(* ===== verification/_CoqProject ===== *)
-Q . S2P
Prelude.v
Catalog.v
Format.v
Countdown.v
Browser.v
Persist.v
App.v
AppFacts.v
Invariants.v
Views.v
Timers.v
Current.v
Methods.v
Audio.v
Handlers.v
Scenarios.v
Liveness.v
