(* ===== verification/Prelude.v ===== *)
(** * Neck-care routine guide: a verification development of [src/neck-care/script.js]

    ** The program

    [script.js] is the whole program: a browser page that walks through a
    fixed routine of nine neck exercises.  Its parts and how they meet:
    - the catalog [routine] (lines 2-123), immutable data;
    - the session [state] (lines 126-134): current index, completed set,
      rep and set counters, the current [CountdownTimer], the hold-loop
      flag and the theme;
    - the countdown class [CountdownTimer] (lines 159-191), which drives a
      100 ms [setInterval] and calls back [onTick] and [onDone];
    - [renderExercise] (lines 270-325), which builds a fresh countdown for
      the exercise shown, whose [onDone] closure is the mode state machine
      of the hold loops ([hold-reps], [hold-sets]) and queues the next hold
      with [setTimeout] (400 ms, 600 ms);
    - the button handlers (lines 332-393), [selectIndex] and
      [cleanupTimers] (253-267) and the start-up [init] (396-401);
    - persistence of the progress and theme in [localStorage]
      ([loadProgress], [saveProgress], lines 238-250);
    - the display format [fmt] (138-142) and [beep] (144-156).
    The browser's timer queue is the one piece of the environment the
    program's behaviour depends on; it is modelled too (Browser.v).

    ** Files

    - Prelude.v (this file): the effect monad [EM S A] of the handlers
      (state passing with a thrown [TypeError] as [None], keeping the
      state reached at the throw, with stdpp's monad notation); JavaScript
      numbers as the kernel's IEEE binary64 floats ([js_tenth] is the
      source's [0.1], [js_max]/[js_min] are [Math.max]/[Math.min],
      [float_floor]/[float_mod_floor] are [Math.floor] of [x] and of
      [x % d] computed on the exact value of the float); [String(n)] and
      [padStart]; JavaScript [Set]s as insertion-ordered lists up to
      SameValueZero ([jsset_add], [jsset_of_list]) with their lemmas; the
      hint databases [neck] and [neck_rw] and the shared tactics; IEEE
      equality [x =? y] read on the float's representation
      ([float_eqb_true]: the same value or the two zeros).
    - Catalog.v, Module [Catalog]: the exercise record, the [mode] enum
      and the [targets] object (fields present or [undefined]), the
      nine exercises verbatim, and [routine[i]] for a number [i]
      ([routine_at]).  Lemmas: the catalog is well formed; [routine[i]]
      reads element [n] exactly when [i] is [n] (or [-0] for 0).
    - Format.v, Module [Format]: [fmt]; theorem: on every whole number of
      seconds below 6000 it prints the two-digit [MM:SS] of the contract.
    - Countdown.v, Module [Countdown]: the timer object and its methods
      [start], [pause], [reset] and the interval callback [tick], written
      once against the interface [TimerHost] (object store, [setInterval],
      [clearInterval], [onTick], [onDone]) whose laws are the class
      [TimerHostLaws].  Lemmas: the effect of each method on its own
      timer (others untouched) and the ticks of a started countdown, for
      any host; the float arithmetic of the countdown ([rem_after],
      [ticks_from]).  Theorem: against the ideal countdown ([10 * d] ticks
      for [d] seconds) the float one is on time or one tick late for every
      [d] up to 10 minutes ([countdown_refines_ideal]).  The tick counts of
      the catalog's durations and the spec's [start(10)] example are
      evaluated as lemmas.
    - Browser.v, Module [Browser]: the timer queue (clock in ms, next
      handle, tasks with handle, due time and callback tag); [setInterval],
      [setTimeout], [clearInterval] and one turn of the event loop ([pop]:
      the earliest due task, ties by handle, an interval re-armed before its
      callback runs).  Lemmas: the queue stays well formed; a cleared
      handle never fires; the pending intervals ([intervals]) and
      timeouts ([timeouts]) have distinct handles and change only as each
      primitive says.
    - Persist.v, Module [Persist]: parsed JSON values, the values of the
      completed set with SameValueZero, [saveProgress]'s stored object and
      [loadProgress]'s reading of it ([Math.min(Math.max(0, i), 8)] on
      floats).  Theorem: save then load gives back a completed set of ids
      and a valid index; SameValueZero written on the representation is
      shown to be the specification's (NaN equals NaN, otherwise [===]).
    - App.v, Module [App]: the whole state [app] (session, the store of
      every [CountdownTimer] created, the queue, the DOM text written, the
      two storage keys, the log of beeps and the oscillators still
      sounding, whose stops wait in the queue; the view holds every text the
      handlers write: timer display, counters, body class, the exercise
      panel [render_panel] and the step-list items [render_steps]); the
      host instance of the countdown; every handler as an [EM app] computation following the
      source line by line; the callbacks the queue runs ([CbTick],
      [CbRestart], [CbStopTone]); the event loop ([fire], [advance], [step_event],
      [run]).
    - AppFacts.v, Module [AppFacts]: the methods as equations on [app];
      the handlers' behaviour: [selectIndex] (counters reset, loop off,
      old countdown paused and its interval gone, fresh countdown, progress
      saved), the [onDone] step of both hold loops and outside them, Start
      on a hold exercise, Prev/Next staying in the catalog, completion; each
      with a witness at a concrete session.
    - Invariants.v, Module [Invariants]: the reachable states (any stored
      progress and theme at start, then any user events and waits) and the
      well-formedness every later file assumes ([state.timer] is [null] or
      a live object, the queue is well formed), by one preservation lemma
      per primitive step;
      the combinators [stays R c] (a computation keeps a preorder [R] on
      each outcome) and the tactic [stays_solve] the later invariant files
      share.
    - Views.v, Module [Views]: the page shows the state: in every
      reachable state the step list is the rendering of the index and the
      completed set, and the panel shows [routine[state.currentIndex]]
      whenever that is an exercise.
    - Timers.v, Module [Timers]: the countdowns agree with the browser's
      pending intervals in every reachable state; as long as "Reset all
      progress" is not confirmed only [state.timer] can run, so at most one
      interval is pending and it ticks [state.timer].
    - Current.v, Module [Current]: in every reachable state whose index
      names an exercise, [state.timer] is a countdown whose [onDone]
      closure is over that exercise ([reachable_timer_current]): every
      change of the index is followed by [renderExercise].
    - Methods.v, Module [Methods]: the countdown's methods with the page
      as host, in reachable states: [start] leaves exactly one interval
      ticking the countdown; one tick either keeps it running or stops it,
      clears its interval and runs [onDone]; a started countdown runs its
      [n] ticks and then calls [onDone] once ([countdown_runs_to_done]).
    - Audio.v, Module [Audio]: in every reachable state the oscillators
      still sounding are exactly the beeps whose stop is queued, each stop
      queued once; the countdowns' [clearInterval] never drops a stop.
    - Handlers.v, Module [Handlers]: the other buttons and the start:
      Start on a [timer] exercise resumes or starts the countdown; Pause
      and Reset stop [state.timer] but cancel no queued timeout, and
      neither does a switch of exercise, whose pending restart then starts
      the new exercise's countdown; a confirmed "Reset all progress" stops
      nothing; in every reachable state the theme button flips the light
      class and stores the new theme; reloading after a save resumes the
      session, and a stored index that names no exercise makes the start
      throw with no countdown until a step-list click.
    - Scenarios.v, Module [Scenarios]: whole sessions evaluated on the
      model, kept as lemmas: the spec's chin-tuck scenario, and the
      interleavings that show the defects the general theorems above
      predict (Pause or Next in the gap between holds, "Reset all
      progress" during a hold, a fractional stored index).
    - Liveness.v, Module [Liveness]: every hold loop of the catalog ends:
      Start on a [hold-reps] or [hold-sets] exercise runs [n] holds and
      [n - 1] gaps ([hold_loop_ms], from the countdown's tick count), the
      loop is off at that time with its counter at the target, and the
      queue is empty, so no later wait changes the session.

    ** Bounds and fuel

    Counters are [nat] (JavaScript numbers, exact as integers below 2^53).
    Times of the queue are [N] milliseconds.  [ticks_from] searches
    [10 * d + 2] ticks, enough since the result is at most [10 * d + 1].
    [advance] gets [(ms / 100 + 1) * (tasks + 2)] turns for a wait of [ms]:
    each queued task fires at most once per 100 ms; every scenario checks
    that nothing due is left at the end ([settled]) or that the queue is
    empty, so the fuel never cut a run short; once the queue is empty a
    wait of any length only moves the clock ([Liveness.wait_idle]).  The
    invariants hold for every fuel.  Facts on all whole seconds, durations
    or exercises of the catalog are proved by evaluation over the bounded
    range stated with them ([forallb_seq_spec]).

    ** Not modelled

    The HTML page and the DOM elements' initial text (not in src/; taken
    empty), the HTML tags around the texts of a step-list item (its class,
    index, name and tag are modelled), the oscillator's waveform and
    volume inside [beep] and the [catch] of a browser without Web Audio
    (the model's browser has it; nothing the program reads depends on
    it), the text form of [JSON.stringify]/[JSON.parse] (the
    stored value is the parsed one), timer clamping and jitter of real
    browsers, and [confirm] (its answer is an argument). *)

From stdpp Require Import base list strings.
From Stdlib Require Import Ascii String ZArith Floats Uint63 Lia.

(** ** The effect monad of the event handlers

    Every handler of [script.js] mutates the one global [state] object, the
    DOM and [localStorage], and may throw a [TypeError] (reading a property
    of [undefined]).  A JavaScript exception does not roll back the
    mutations made before it, so the monad keeps the state reached at the
    throw: [EM S A] returns [None] for a thrown exception together with the
    state at that point. *)

Definition EM (S A : Type) : Type := S -> option A * S.

Definition em_ret {S A} (a : A) : EM S A := fun s => (Some a, s).
Definition em_bind {S A B} (c : EM S A) (k : A -> EM S B) : EM S B :=
  fun s => match c s with
           | (Some a, s') => k a s'
           | (None, s') => (None, s')
           end.
Definition em_get {S} : EM S S := fun s => (Some s, s).
Definition em_put {S} (s : S) : EM S unit := fun _ => (Some tt, s).
Definition em_modify {S} (f : S -> S) : EM S unit := fun s => (Some tt, f s).
(** [throw]: a [TypeError] escapes the handler. *)
Definition em_throw {S A} : EM S A := fun s => (None, s).
(** [when b c]: [if (b) { c }]. *)
Definition em_when {S} (b : bool) (c : EM S unit) : EM S unit :=
  if b then c else em_ret tt.

(** The handlers are written with stdpp's monad notation
    ([x ← c; k], [c;; k], [mret]) through these instances. *)
#[export] Instance em_mret {S} : MRet (EM S) := fun A a => em_ret a.
#[export] Instance em_mbind {S} : MBind (EM S) := fun A B k c => em_bind c k.

(** The state after running a handler, whether it returned or threw. *)
Definition em_exec {S A} (c : EM S A) (s : S) : S := snd (c s).

Section EmLaws.
Context {S : Type}.

Lemma em_bind_ret_l {A B} (a : A) (k : A -> EM S B) s :
  em_bind (em_ret a) k s = k a s.
Proof. reflexivity. Qed.

Lemma em_bind_assoc {A B C} (c : EM S A) (k : A -> EM S B) (h : B -> EM S C) s :
  em_bind (em_bind c k) h s = em_bind c (fun a => em_bind (k a) h) s.
Proof. unfold em_bind. destruct (c s) as [[a|] s']; reflexivity. Qed.

Lemma em_bind_some {A B} (c : EM S A) (k : A -> EM S B) s a s' :
  c s = (Some a, s') -> em_bind c k s = k a s'.
Proof. intros H. unfold em_bind. now rewrite H. Qed.

Lemma em_bind_modify {B} (f : S -> S) (k : unit -> EM S B) s :
  em_bind (em_modify f) k s = k tt (f s).
Proof. reflexivity. Qed.

Lemma em_bind_none {A B} (c : EM S A) (k : A -> EM S B) s s' :
  c s = (None, s') -> em_bind c k s = (None, s').
Proof. intros H. unfold em_bind. now rewrite H. Qed.
End EmLaws.

(** ** JavaScript numbers

    JavaScript numbers are IEEE-754 binary64 values; they are modelled by
    the kernel's primitive floats, whose [sub], [div], [leb] and [ltb] are
    the IEEE round-to-nearest operations that a JavaScript engine uses. *)

Declare Scope js_scope.
Delimit Scope js_scope with js.

(** The literal [0.1] of the source: the binary64 value nearest to 1/10. *)
Definition js_tenth : float := 0x1.999999999999ap-4%float.

(** A small natural number as a JavaScript number (exact below 2^53). *)
Definition js_of_nat (n : nat) : float := PrimFloat.of_uint63 (Uint63.of_Z (Z.of_nat n)).

(** [Math.max(a, b)]: NaN if either is NaN, +0 above -0. *)
Definition js_max (a b : float) : float :=
  if PrimFloat.is_nan a || PrimFloat.is_nan b then PrimFloat.nan
  else if (a <? b)%float then b
  else if (b <? a)%float then a
  else if PrimFloat.get_sign a then b else a.

(** [Math.min(a, b)]: NaN if either is NaN, -0 below +0. *)
Definition js_min (a b : float) : float :=
  if PrimFloat.is_nan a || PrimFloat.is_nan b then PrimFloat.nan
  else if (a <? b)%float then a
  else if (b <? a)%float then b
  else if PrimFloat.get_sign a then a else b.

(** The exact value of a finite float as [num / 2^k]: (num, k). *)
Definition float_exact (x : float) : option (Z * Z) :=
  match Prim2SF x with
  | S754_zero _ => Some (0%Z, 0%Z)
  | S754_finite s m e =>
      let n := if s then Z.neg m else Z.pos m in
      if (0 <=? e)%Z then Some (Z.shiftl n e, 0%Z) else Some (n, Z.opp e)
  | _ => None
  end.

(** [Math.floor(x)] of a finite float, as an integer; [None] for NaN and
    the infinities. *)
Definition float_floor (x : float) : option Z :=
  match float_exact x with
  | Some (n, k) => Some (Z.div n (Z.shiftl 1 k))
  | None => None
  end.

(** [Math.floor(x % d)] for a finite [x] and a positive integer [d]: the
    remainder [%] of JavaScript truncates (its sign is the dividend's) and
    is exact, so it is computed on the exact value [num / 2^k]. *)
Definition float_mod_floor (x : float) (d : Z) : option Z :=
  match float_exact x with
  | Some (n, k) => let den := Z.shiftl 1 k in Some (Z.div (Z.rem n (d * den)) den)
  | None => None
  end.

(** ** Equality of numbers

    [x === y] on numbers is the IEEE equality [PrimFloat.eqb]: it holds of
    the same value, and of [+0] and [-0]; NaN equals nothing. *)

Definition sf_zero (f : spec_float) : bool := match f with S754_zero _ => true | _ => false end.

Lemma pos_compare_cont_eq m1 m2 : Pos.compare_cont Eq m1 m2 = Eq -> m1 = m2.
Proof. intros H. apply Pos.compare_eq_iff. exact H. Qed.

Lemma sfcompare_eq f g :
  SFcompare f g = Some Eq -> f = g \/ sf_zero f && sf_zero g = true.
Proof.
  destruct f as [s1|s1| |s1 m1 e1], g as [s2|s2| |s2 m2 e2]; simpl;
    repeat match goal with b : bool |- _ => destruct b end; try discriminate; auto;
    destruct (Z.compare_spec e1 e2); try discriminate; subst; intros H; injection H as H;
    first [apply pos_compare_cont_eq in H | apply CompOpp_iff, pos_compare_cont_eq in H];
    subst; auto.
Qed.

Lemma float_eqb_true x y :
  (x =? y)%float = true -> x = y \/ sf_zero (Prim2SF x) && sf_zero (Prim2SF y) = true.
Proof.
  rewrite FloatAxioms.eqb_spec. unfold SFeqb.
  destruct (SFcompare _ _) as [[]|] eqn:E; try discriminate. intros _.
  destruct (sfcompare_eq _ _ E) as [H|H]; [left; now apply Prim2SF_inj | now right].
Qed.

(** The two zeros. *)
Lemma sf_zero_cases x : sf_zero (Prim2SF x) = true -> x = 0%float \/ x = (-0)%float.
Proof.
  destruct (Prim2SF x) as [[]| | |] eqn:E; try discriminate; intros _;
    [right | left]; apply Prim2SF_inj; rewrite E; reflexivity.
Qed.

Lemma is_nan_sf x :
  PrimFloat.is_nan x = match Prim2SF x with S754_nan => true | _ => false end.
Proof.
  unfold PrimFloat.is_nan. rewrite FloatAxioms.eqb_spec. unfold SFeqb.
  destruct (Prim2SF x) as [s|s| |s m e]; simpl; try destruct s; try reflexivity;
    rewrite Z.compare_refl; change (Pos.compare_cont Eq m m) with (Pos.compare m m);
    now rewrite Pos.compare_refl.
Qed.

Lemma sfeqb_finite s m1 e1 m2 e2 :
  SFeqb (S754_finite s m1 e1) (S754_finite s m2 e2) = Pos.eqb m1 m2 && Z.eqb e1 e2.
Proof.
  unfold SFeqb. simpl. change (Pos.compare_cont Eq m1 m2) with (Pos.compare m1 m2).
  destruct (Z.eqb_spec e1 e2) as [<-|He]; [rewrite Z.compare_refl, andb_true_r|].
  - destruct (Pos.eqb_spec m1 m2) as [<-|Hm]; [rewrite Pos.compare_refl; now destruct s|].
    destruct (Pos.compare_spec m1 m2); [congruence | now destruct s | now destruct s].
  - rewrite andb_false_r. destruct (Z.compare_spec e1 e2); [congruence | now destruct s | now destruct s].
Qed.

(** ** Strings of numbers *)

Fixpoint digits_rev (fuel : nat) (n : Z) : list ascii :=
  match fuel with
  | O => []
  | S f =>
      let d := ascii_of_nat (48 + Z.to_nat (Z.rem n 10)) in
      if (n <? 10)%Z then [d] else d :: digits_rev f (Z.quot n 10)
  end.

(** [String(n)] of an integer-valued number below 10^21 (the bound where
    JavaScript switches to exponent notation): its decimal digits, with a
    minus sign when negative. *)
Definition js_int_to_string (n : Z) : string :=
  let body := string_of_list_ascii (rev (digits_rev 70 (Z.abs n))) in
  if (n <? 0)%Z then String "-" body else body.

(** [s.padStart(2, '0')]. *)
Definition pad2 (s : string) : string :=
  match String.length s with
  | 0 => "00"
  | 1 => String "0" s
  | _ => s
  end.

(** ** JavaScript [Set]s

    A [Set] keeps its elements in insertion order ([Array.from] lists them
    in that order), compared by SameValueZero, given here as [eqv]. *)

Section JsSet.
Context {A : Type} (eqv : A -> A -> bool).

Definition jsset_has (s : list A) (x : A) : bool := existsb (eqv x) s.

(** [s.add(x)]: appends [x] unless it is already there. *)
Definition jsset_add (x : A) (s : list A) : list A :=
  if jsset_has s x then s else s ++ [x].

(** [new Set(arr)]. *)
Definition jsset_of_list (l : list A) : list A :=
  fold_left (fun s x => jsset_add x s) l [].

(** Each element is distinct from the ones after it. *)
Fixpoint jsset_distinct (l : list A) : bool :=
  match l with
  | [] => true
  | x :: l' => negb (jsset_has l' x) && jsset_distinct l'
  end.

Context (eqv_refl : forall x, eqv x x = true) (eqv_sym : forall x y, eqv x y = eqv y x).

Lemma jsset_has_app s1 s2 x :
  jsset_has (s1 ++ s2) x = jsset_has s1 x || jsset_has s2 x.
Proof. unfold jsset_has. now rewrite existsb_app. Qed.

Lemma jsset_add_has s x : jsset_has s x = true -> jsset_add x s = s.
Proof. unfold jsset_add. now intros ->. Qed.

Lemma jsset_add_idem s x : jsset_add x (jsset_add x s) = jsset_add x s.
Proof.
  unfold jsset_add at 2 3. destruct (jsset_has s x) eqn:E.
  - now apply jsset_add_has.
  - unfold jsset_add. now rewrite jsset_has_app, E; simpl; rewrite eqv_refl.
Qed.

Lemma jsset_fold_distinct l acc :
  jsset_distinct (acc ++ l) = true ->
  fold_left (fun s x => jsset_add x s) l acc = acc ++ l.
Proof.
  revert acc. induction l as [|x l IH]; intros acc H; simpl.
  - now rewrite app_nil_r.
  - assert (Hx : jsset_has acc x = false).
    { clear IH. induction acc as [|y acc IHa]; [reflexivity|].
      simpl in *. apply andb_prop in H as [Hy Hd].
      rewrite IHa by exact Hd. rewrite orb_false_r.
      apply negb_true_iff in Hy. rewrite jsset_has_app in Hy. simpl in Hy.
      rewrite eqv_sym. destruct (eqv y x); [|reflexivity].
      now rewrite orb_true_r in Hy. }
    unfold jsset_add. rewrite Hx. rewrite IH by now rewrite <- app_assoc.
    now rewrite <- app_assoc.
Qed.

(** A set listed by [Array.from] and rebuilt by [new Set] is the same. *)
Lemma jsset_of_list_distinct l : jsset_distinct l = true -> jsset_of_list l = l.
Proof. intros H. apply (jsset_fold_distinct l []). exact H. Qed.

Lemma jsset_distinct_app_single s x :
  jsset_distinct s = true -> jsset_has s x = false -> jsset_distinct (s ++ [x]) = true.
Proof.
  induction s as [|y s IH]; intros Hd Hh; simpl in *; [reflexivity|].
  apply andb_prop in Hd as [Hy Hd]. apply orb_false_iff in Hh as [Hxy Hh].
  rewrite IH by assumption. rewrite jsset_has_app. simpl.
  rewrite eqv_sym, Hxy. apply negb_true_iff in Hy. now rewrite Hy.
Qed.

Lemma jsset_add_distinct s x :
  jsset_distinct s = true -> jsset_distinct (jsset_add x s) = true.
Proof.
  intros Hd. unfold jsset_add. destruct (jsset_has s x) eqn:E; [exact Hd|].
  now apply jsset_distinct_app_single.
Qed.
End JsSet.

(** ** Automation shared by the components *)

Create HintDb neck discriminated.
Create Rewrite HintDb neck_rw.
#[export] Hint Resolve jsset_add_distinct : neck.
#[export] Hint Rewrite @em_bind_ret_l @em_bind_assoc : neck_rw.

(** Run a handler of the monad symbolically: unfold the binds and simplify. *)
Ltac em_run :=
  repeat (unfold mbind, mret, em_mbind, em_mret, em_bind, em_ret, em_get, em_put, em_modify, em_when, em_throw in *;
          simpl in *).

(** Expose the monad instances as [em_bind] / [em_ret]. *)
Ltac em_norm := cbv [mbind em_mbind mret em_mret] in *.

Ltac invc H := inversion H; subst; clear H.

(** A list without duplicates whose elements are all equal has at most one. *)
Lemma nodup_all_equal {A} (l : list A) :
  List.NoDup l -> (forall x y, In x l -> In y l -> x = y) -> List.length l <= 1.
Proof.
  destruct l as [|x [|y l]]; simpl; intros Hn He; try lia.
  apply List.NoDup_cons_iff in Hn as [Hx _]. exfalso. apply Hx.
  rewrite (He x y (or_introl eq_refl) (or_intror (or_introl eq_refl))). now left.
Qed.

(** ** Checking a property on a finite range by evaluation *)

Lemma forallb_seq_spec (f : nat -> bool) (a len : nat) :
  forallb f (seq a len) = true -> forall n, a <= n < a + len -> f n = true.
Proof.
  intros H n Hn. apply (proj1 (forallb_forall f (seq a len)) H).
  apply in_seq. lia.
Qed.
