(* ===== verification/Catalog.v ===== *)
(** * The routine catalog ([const routine], script.js lines 2-123)

    The exercise definitions as the source declares them, the JavaScript
    lookup [routine[i]] by a number [i], and the well-formedness of the
    catalog (targets match the mode, ids are distinct) that the handlers
    rely on. *)

From stdpp Require Import base list strings.
From Stdlib Require Import Ascii String ZArith Floats Uint63 Lia.
From S2P Require Import Prelude.

Open Scope string_scope.

Module Catalog.

(** The [mode] field: the strings ['timer'], ['hold-reps'], ['hold-sets'],
    ['reps-sets'] that the handlers compare with [===]. *)
Inductive mode := Timer | HoldReps | HoldSets | RepsSets.

#[export] Instance mode_eq_dec : EqDecision mode.
Proof. solve_decision. Defined.

Definition mode_name (m : mode) : string :=
  match m with
  | Timer => "timer" | HoldReps => "hold-reps"
  | HoldSets => "hold-sets" | RepsSets => "reps-sets"
  end.

(** The [targets] object: each field is present or [undefined]. *)
Record targets := mk_targets {
  durationSec : option nat;
  reps : option nat;
  holdSec : option nat;
  sets : option nat
}.

Definition no_targets : targets := mk_targets None None None None.

Record exercise := mk_exercise {
  ex_id : string;
  category : string;
  title : string;
  note : string;
  instructions : list string;
  caution : string;
  ex_mode : mode;
  ex_targets : targets
}.

Definition routine : list exercise := [
  mk_exercise "posture-breath" "Reset posture & breath" "Reset posture & breath"
    "Sit tall, ribs down; slow diaphragmatic breaths—helps offload the SCM/upper traps that overwork when we’re tense. (General posture guidance; see muscle overview.)"
    [ "Sit tall with a neutral spine. Gently draw ribs down (avoid flaring).";
      "Place one hand on the belly and one on the lower ribs. Inhale through the nose letting the belly and lower ribs expand.";
      "Exhale slowly. Relax the neck and jaw. Shoulders stay heavy." ]
    EmptyString Timer (mk_targets (Some 120) None None None);
  mk_exercise "chin-tucks" "Mobility & stretch" "Chin tucks (cervical retraction)"
    "Glide your head straight back (double‑chin). Hold 5 sec × 10."
    [ "Keep the eyes level. Glide the head straight back without tilting up or down.";
      "Hold the end position briefly; then return to neutral and repeat." ]
    "Move gently; no sharp pain or dizziness." HoldReps (mk_targets None (Some 10) (Some 5) None);
  mk_exercise "levator-stretch-left" "Mobility & stretch" "Levator scapulae stretch (left side)"
    "Look down toward your right armpit; gently pull the back of your head forward/down with the right hand. Hold 30 sec × 3."
    [ "Sit tall. Turn nose toward the right armpit (diagonal down).";
      "Place right hand on the back of the head and gently guide forward/down.";
      "Keep the left shoulder relaxed and down. Avoid shrugging." ]
    "Gentle stretch only; avoid nerve‑like pain or tingling." HoldSets (mk_targets None None (Some 30) (Some 3));
  mk_exercise "upper-trap-stretch-right" "Mobility & stretch" "Upper trapezius stretch"
    "Ear toward right shoulder; gentle overpressure with right hand. Hold 30 sec × 3."
    [ "Sit tall. Gently side‑bend head to the right (ear toward shoulder).";
      "Use right hand for very light overpressure. Left shoulder stays heavy." ]
    "No forcing; avoid compressing the side of the neck." HoldSets (mk_targets None None (Some 30) (Some 3));
  mk_exercise "scm-stretch-left" "Mobility & stretch" "SCM stretch (left SCM)"
    "Side‑bend head to the right, rotate left, slight lift of chin; VERY gentle—no front‑of‑neck pressure. Hold 20–30 sec × 3."
    [ "Side‑bend head to the right (ear toward right shoulder).";
      "Rotate the head to the left and slightly lift the chin to feel a gentle stretch.";
      "Keep pressure minimal; avoid pressing into the front of the neck." ]
    "Very gentle. No front‑of‑neck pressure. Stop if any lightheadedness." HoldSets (mk_targets None None (Some 25) (Some 3));
  mk_exercise "scap-retraction" "Activate what stabilizes" "Scapular retraction"
    "Squeeze shoulder blades “down and back” (don’t shrug). 2 sets × 10."
    [ "Stand or sit tall. Draw shoulder blades down and back as if tucking into back pockets.";
      "Avoid shrugging. Hold briefly, then release and repeat." ]
    EmptyString RepsSets (mk_targets None (Some 10) None (Some 2));
  mk_exercise "wall-slides-or-rows" "Activate what stabilizes" "Wall slides or gentle band rows"
    "Choose either. Helps unload the neck long‑term. Aim for 2 sets × 10 if time allows (~3 min total for this block)."
    [ "Wall slides: forearms on wall, slide arms up keeping ribs down and neck relaxed.";
      "OR Band rows: light band, elbows glide back keeping shoulder blades down and back." ]
    "Keep the neck relaxed. If symptoms increase, reduce range or stop." RepsSets (mk_targets None (Some 10) None (Some 2));
  mk_exercise "ball-on-wall" "Gentle self‑release" "Ball on wall (upper trapezius/levator – left)"
    "Lean your left upper‑back/neck corner onto a tennis/lacrosse ball; slow small rolls. 60 sec."
    [ "Place ball at the upper trapezius/levator area on the left.";
      "Lean into a wall and make slow, small rolls or sustained pressure on tender spots." ]
    "Avoid pressing hard on the side/front of the neck (carotid area)." Timer (mk_targets (Some 60) None None None);
  mk_exercise "suboccipital-release" "Gentle self‑release" "Suboccipital release"
    "Lie on two taped tennis balls (“peanut”) under the skull base for ~2 mins."
    [ "Lie on your back with the peanut under the skull base (not on the neck).";
      "Let the head rest and breathe slowly. You can make tiny nodding motions." ]
    "No direct pressure on the throat or carotid area." Timer (mk_targets (Some 120) None None None)
].

(** [routine.length - 1], the last index. *)
Definition last_index : nat := List.length routine - 1.

(** [routine[i]] for a JavaScript number [i]: the property key is
    [String(i)], which names an element exactly when [i] is an integer in
    [0, routine.length) ([-0] prints as ["0"]); any other number gives
    [undefined]. *)
Definition index_of_js (i : float) : option nat :=
  List.find (fun n => PrimFloat.eqb (js_of_nat n) i) (seq 0 (List.length routine)).

Definition routine_at (i : float) : option exercise :=
  match index_of_js i with
  | Some n => routine !! n
  | None => None
  end.

(** ** Well-formedness of the catalog (the data model's invariant) *)

(** The targets a mode reads are present and positive, the others absent. *)
Definition targets_fit (m : mode) (t : targets) : bool :=
  let pos o := match o with Some n => bool_decide (0 < n) | None => false end in
  let absent o := match o with Some _ => false | None => true end in
  match m with
  | Timer => pos (durationSec t) && absent (reps t) && absent (holdSec t) && absent (sets t)
  | HoldReps => absent (durationSec t) && pos (reps t) && pos (holdSec t) && absent (sets t)
  | HoldSets => absent (durationSec t) && absent (reps t) && pos (holdSec t) && pos (sets t)
  | RepsSets => absent (durationSec t) && pos (reps t) && absent (holdSec t) && pos (sets t)
  end.

Definition catalog_wf (r : list exercise) : bool :=
  forallb (fun e => targets_fit (ex_mode e) (ex_targets e)) r
  && bool_decide (NoDup (map ex_id r)).

(** The catalog is well formed: every exercise carries exactly the
    positive targets its mode reads, and the ids are distinct (the
    completed set is keyed by id). *)
Lemma routine_wf : catalog_wf routine = true.
Proof. vm_compute. reflexivity. Qed.

(** [routine[n]] for the number [n] of an index in range is element [n]. *)
Lemma routine_at_nat n :
  n < List.length routine -> routine_at (js_of_nat n) = routine !! n.
Proof. simpl. intros Hn. do 9 (destruct n as [|n]; [reflexivity|]). lia. Qed.

(** No other number names an element: a number that is not an integer in
    range gives [undefined]. *)
Lemma routine_at_some i ex :
  routine_at i = Some ex -> exists n, n < List.length routine /\ PrimFloat.eqb (js_of_nat n) i = true /\
                                     routine !! n = Some ex.
Proof.
  unfold routine_at, index_of_js. destruct (List.find _ _) as [n|] eqn:E; [|discriminate].
  intros Hn. apply List.find_some in E as [Hin Heq]. apply in_seq in Hin.
  exists n. split; [lia|]. split; assumption.
Qed.

(** [routine[i]] reads element [n] exactly when [i] is the number
    [n] of an index in range, or [-0] for element 0: the property key of
    [i] is [String(i)], which is ["n"] only for these numbers. *)
Lemma index_of_js_spec i n :
  index_of_js i = Some n <->
  n < List.length routine /\ (i = js_of_nat n \/ (n = 0 /\ i = (-0)%float)).
Proof.
  split.
  - unfold index_of_js. intros E. apply List.find_some in E as [Hin Heq]. apply in_seq in Hin.
    split; [lia|]. destruct (float_eqb_true _ _ Heq) as [<-|Hz]; [now left|].
    apply andb_prop in Hz as [Hn Hi].
    assert (n = 0) as -> by (do 9 (destruct n as [|n]; [reflexivity || discriminate Hn|]); simpl in Hin; lia).
    destruct (sf_zero_cases i Hi) as [->| ->]; [left | right]; auto.
  - intros [Hn [-> | [-> ->]]]; [|reflexivity].
    simpl in Hn. do 9 (destruct n as [|n]; [reflexivity|]). lia.
Qed.

(** An index that names no element makes no item of the step list
    active. *)
Lemma index_of_js_none i :
  index_of_js i = None -> forall n, n < List.length routine -> PrimFloat.eqb (js_of_nat n) i = false.
Proof.
  unfold index_of_js. intros E n Hn. apply (List.find_none _ _ E). apply in_seq. lia.
Qed.

End Catalog.

