(* ===== verification/Format.v ===== *)
(** * The timer display ([fmt], script.js lines 138-142)

    [fmt(secTotal)] prints a number of seconds as [MM:SS]: the minutes are
    [Math.floor(secTotal / 60)] (a rounded float division, then floor), the
    seconds [Math.floor(secTotal % 60)] (an exact remainder, then floor),
    each printed by [String] and padded to two digits.  The theorem of this
    file is that on every whole number of seconds below 100 minutes the
    output is the four-digit [MM:SS] of the presentation contract. *)

From stdpp Require Import base list strings.
From Stdlib Require Import Ascii String ZArith Floats Uint63 Lia.
From S2P Require Import Prelude.

#[local] Set Warnings "-abstract-large-number".

Module Format.

Open Scope string_scope.

(** [String(Math.floor(x))]. *)
Definition js_floor_string (x : float) : string :=
  match float_floor x with
  | Some z => js_int_to_string z
  | None =>
      if PrimFloat.is_nan x then "NaN"
      else if PrimFloat.get_sign x then "-Infinity" else "Infinity"
  end.

(** [String(Math.floor(x % 60))]: NaN when [x] is not finite. *)
Definition js_mod60_floor_string (x : float) : string :=
  match float_mod_floor x 60 with
  | Some z => js_int_to_string z
  | None => "NaN"
  end.

Definition fmt (secTotal : float) : string :=
  let m := js_floor_string (secTotal / 60)%float in
  let s := js_mod60_floor_string secTotal in
  pad2 m ++ ":" ++ pad2 s.

(** ** The contract: [MM:SS] with two decimal digits each *)

Definition digit (n : nat) : ascii := ascii_of_nat (48 + n mod 10).

(** The reference rendering of [n] seconds, written from the contract. *)
Definition mmss (n : nat) : string :=
  let m := n / 60 in
  let s := n mod 60 in
  String (digit (m / 10)) (String (digit m)
    (String ":" (String (digit (s / 10)) (String (digit s) EmptyString)))).

Definition fmt_matches (n : nat) : bool := String.eqb (fmt (js_of_nat n)) (mmss n).

End Format.

Module FormatFacts.
Import Format.

Lemma fmt_matches_below_6000 : forallb fmt_matches (seq 0 6000) = true.
Proof. vm_compute. reflexivity. Qed.

(** C28: on every whole number of seconds [n] below 100 minutes, [fmt]
    prints [MM:SS] with two-digit minutes [n / 60] and two-digit seconds
    [n mod 60]. *)
Theorem fmt_whole_seconds (n : nat) :
  n < 6000 -> fmt (js_of_nat n) = mmss n.
Proof.
  intros Hn. apply String.eqb_eq.
  apply (forallb_seq_spec fmt_matches 0 6000 fmt_matches_below_6000). lia.
Qed.

Lemma fmt_whole_seconds_witness : 125 < 6000 /\ fmt (js_of_nat 125) = "02:05"%string.
Proof.
  split; [apply Nat.ltb_lt; reflexivity|].
  rewrite (fmt_whole_seconds 125) by (apply Nat.ltb_lt; reflexivity). reflexivity.
Defined.

End FormatFacts.
