(* ===== verification/Countdown.v ===== *)
(** * The countdown primitive ([class CountdownTimer], script.js lines 159-191)

    A [CountdownTimer] object holds [interval] (the handle of its
    [setInterval], or [null]), [remaining] (a JavaScript number of seconds)
    and its two callbacks.  Its methods talk to two other parts of the
    program: the browser's timer queue ([setInterval], [clearInterval]) and
    the client that created it ([onTick], [onDone]).  Both are abstracted
    here by the interface [TimerHost]: the methods are written once against
    it, and the application instantiates it (App.v).  The interval callback,
    run every 100 ms, is the method [tick].

    The second half of the file is the arithmetic of the countdown: the
    float value after [n] ticks, the number of ticks until [remaining <= 0],
    and how that number compares with the ideal [10 * seconds]. *)

From stdpp Require Import base list strings.
From Stdlib Require Import ZArith Floats Uint63 Lia.
From S2P Require Import Prelude.

Module Countdown.

(** The timer object; [C] is what the client's callbacks capture (in the
    application: the exercise object [ex] of [renderExercise]). *)
Record timer (C : Type) := mk_timer {
  interval : option nat;
  remaining : float;
  callbacks : C
}.
Arguments mk_timer {C} _ _ _.
Arguments interval {C} _.
Arguments remaining {C} _.
Arguments callbacks {C} _.

Definition set_remaining {C} (x : float) (t : timer C) : timer C :=
  mk_timer (interval t) x (callbacks t).
Definition set_interval_field {C} (h : option nat) (t : timer C) : timer C :=
  mk_timer h (remaining t) (callbacks t).

(** What the timer needs from its environment: the object store holding
    the timers (by reference), the browser's interval functions and the
    client's callbacks. *)
Class TimerHost (S C : Type) := {
  timer_get : nat -> S -> option (timer C);
  timer_set : nat -> timer C -> S -> S;
  (** [setInterval(() => <tick of timer r>, 100)], returning the handle *)
  host_set_interval : nat -> EM S nat;
  host_clear_interval : nat -> EM S unit;
  host_on_tick : C -> float -> EM S unit;
  host_on_done : C -> EM S unit
}.

(** A host operation returns normally and leaves every timer object as
    it was. *)
Definition frames {S C A} `{TimerHost S C} (c : EM S A) : Prop :=
  forall s, exists a s', c s = (Some a, s') /\ forall r, timer_get r s' = timer_get r s.

Section Frames.
Context {S C : Type} `{TimerHost S C}.

Lemma frames_ret {A} (a : A) : frames (em_ret a).
Proof. intros s. exists a, s. split; [reflexivity | now intros r]. Qed.

Lemma frames_get : frames em_get.
Proof. intros s. exists s, s. split; [reflexivity | now intros r]. Qed.

Lemma frames_bind {A B} (c : EM S A) (k : A -> EM S B) :
  frames c -> (forall a, frames (k a)) -> frames (em_bind c k).
Proof.
  intros Hc Hk s. destruct (Hc s) as (a & s1 & E1 & T1).
  destruct (Hk a s1) as (b & s2 & E2 & T2). exists b, s2. split.
  - unfold em_bind. now rewrite E1.
  - intros r. now rewrite T2, T1.
Qed.

Lemma frames_mbind {A B} (c : EM S A) (k : A -> EM S B) :
  frames c -> (forall a, frames (k a)) -> frames (mbind k c).
Proof. apply frames_bind. Qed.

Lemma frames_when b (c : EM S unit) : frames c -> frames (em_when b c).
Proof. intros Hc. destruct b; [exact Hc | apply frames_ret]. Qed.

Lemma frames_if {A} (b : bool) (c1 c2 : EM S A) :
  frames c1 -> frames c2 -> frames (if b then c1 else c2).
Proof. now destruct b. Qed.

Lemma frames_modify (f : S -> S) : (forall s r, timer_get r (f s) = timer_get r s) ->
  frames (em_modify f).
Proof. intros Hf s. exists tt, (f s). split; [reflexivity | apply Hf]. Qed.
End Frames.

Create HintDb frames discriminated.
#[export] Hint Resolve frames_ret frames_get frames_bind frames_mbind frames_when frames_if : frames.

(** Split a composed computation into its parts and close each by the
    [frames] hints. *)
Ltac frames_solve :=
  repeat (intros; first
    [ apply frames_mbind | apply frames_bind | apply frames_when | apply frames_if
    | apply frames_ret | apply frames_get | solve [auto with frames] ]).

Class TimerHostLaws (S C : Type) `{TimerHost S C} := {
  get_set_eq : forall r t t0 s, timer_get r s = Some t0 -> timer_get r (timer_set r t s) = Some t;
  get_set_ne : forall r r' t s, r <> r' -> timer_get r' (timer_set r t s) = timer_get r' s;
  set_interval_frames : forall r, frames (host_set_interval r);
  clear_interval_frames : forall h, frames (host_clear_interval h);
  on_tick_frames : forall c x, frames (host_on_tick c x);
  on_done_frames : forall c, frames (host_on_done c)
}.

Section Methods.
Context {S C : Type} `{TimerHost S C}.

Definition load (r : nat) : EM S (timer C) :=
  fun s => match timer_get r s with Some t => (Some t, s) | None => (None, s) end.
Definition store (r : nat) (t : timer C) : EM S unit := em_modify (timer_set r t).

(** [if (this.interval) clearInterval(this.interval);] *)
Definition clear_own (r : nat) : EM S unit :=
  t ← load r;
  match interval t with Some h => host_clear_interval h | None => mret tt end.

(** [start(seconds)]; [seconds] is [None] when it is not a number. *)
Definition start (r : nat) (seconds : option float) : EM S unit :=
  clear_own r;;
  t ← load r;
  store r (match seconds with Some x => set_remaining x t | None => t end);;
  t ← load r;
  host_on_tick (callbacks t) (remaining t);;
  h ← host_set_interval r;
  t ← load r;
  store r (set_interval_field (Some h) t).

(** The interval callback: [this.remaining -= 0.1; ...]. *)
Definition tick (r : nat) : EM S unit :=
  t ← load r;
  let rem := (remaining t - js_tenth)%float in
  store r (set_remaining rem t);;
  if (rem <=? 0)%float then
    t ← load r;
    store r (set_remaining 0%float t);;
    t ← load r;
    match interval t with Some h => host_clear_interval h | None => mret tt end;;
    t ← load r;
    store r (set_interval_field None t);;
    host_on_tick (callbacks t) 0%float;;
    host_on_done (callbacks t)
  else host_on_tick (callbacks t) rem.

(** [pause()]: [if (this.interval) { clearInterval(...); this.interval = null; }] *)
Definition pause (r : nat) : EM S unit :=
  t ← load r;
  match interval t with
  | Some h => host_clear_interval h;; t ← load r; store r (set_interval_field None t)
  | None => mret tt
  end.

(** [reset()]: [this.pause(); this.remaining = 0; this.onTick?.(0);] *)
Definition reset (r : nat) : EM S unit :=
  pause r;;
  t ← load r;
  store r (set_remaining 0%float t);;
  host_on_tick (callbacks t) 0%float.
End Methods.

(** ** The methods against the interface's laws *)

Section MethodLaws.
Context {S C : Type} `{TimerHostLaws S C}.

Definition same_timers (s1 s0 : S) : Prop := forall r, timer_get r s1 = timer_get r s0.

Lemma bind_load {A} r s t (k : timer C -> EM S A) :
  timer_get r s = Some t -> em_bind (load r) k s = k t s.
Proof. intros E. unfold em_bind, load. now rewrite E. Qed.

Lemma bind_store {A} r t s (k : unit -> EM S A) :
  em_bind (store r t) k s = k tt (timer_set r t s).
Proof. reflexivity. Qed.

Lemma bind_frames {A B} (c : EM S A) (k : A -> EM S B) s :
  frames c -> exists a s1, em_bind c k s = k a s1 /\ same_timers s1 s.
Proof.
  intros Hc. destruct (Hc s) as (a & s1 & E & Hs). exists a, s1.
  split; [now apply em_bind_some | exact Hs].
Qed.

(** Storing into [r] and then moving through frame-preserving operations. *)
Lemma same_timers_set r t t0 s1 s0 :
  same_timers s1 s0 -> timer_get r s0 = Some t0 ->
  timer_get r (timer_set r t s1) = Some t.
Proof. intros Hs E. apply (get_set_eq r t t0). now rewrite Hs. Qed.

Lemma same_timers_trans s2 s1 s0 : same_timers s2 s1 -> same_timers s1 s0 -> same_timers s2 s0.
Proof. intros H2 H1 r. now rewrite H2. Qed.

Lemma clear_own_spec {A} r s t (k : unit -> EM S A) :
  timer_get r s = Some t ->
  exists s1, em_bind (clear_own r) k s = k tt s1 /\ same_timers s1 s.
Proof.
  intros E. unfold clear_own. em_norm. rewrite em_bind_assoc, (bind_load r s t) by exact E.
  destruct (interval t) as [h|].
  - destruct (bind_frames (host_clear_interval h) k s (clear_interval_frames h))
      as ([] & s1 & -> & Hs). eauto.
  - exists s. split; [reflexivity | now intros r'].
Qed.
End MethodLaws.

(** Proof steps through a method body: a store, a load of a timer whose
    value is known, or a host operation (which keeps every timer). *)
Ltac solve_get :=
  first
  [ reflexivity
  | eassumption
  | eapply get_set_eq; solve_get
  | rewrite get_set_ne by congruence; solve_get
  | match goal with
    | Hs : same_timers ?s1 _ |- timer_get _ ?s1 = _ => rewrite Hs; solve_get
    | Hs : forall r, timer_get r ?s1 = _ |- timer_get _ ?s1 = _ => rewrite Hs; solve_get
    end
  | match goal with
    | O : forall r', r' <> ?r -> timer_get r' ?s1 = _ |- timer_get _ ?s1 = _ =>
        rewrite O by congruence; solve_get
    end ].

Ltac frames_auto :=
  first [ apply set_interval_frames | apply clear_interval_frames
        | apply on_tick_frames | apply on_done_frames ].

Ltac cd_step :=
  em_norm;
  first
  [ rewrite bind_store
  | rewrite em_bind_ret_l
  | match goal with
    | |- context [em_bind (clear_own ?r) ?k ?s] =>
        let E := fresh "Eget" in let s' := fresh "s" in let Hs := fresh "Hs" in
        assert (E : exists t, timer_get r s = Some t) by (eexists; solve_get);
        destruct E as [? E]; destruct (clear_own_spec r s _ k E) as (s' & -> & Hs); clear E
    end
  | match goal with
    | |- context [em_bind (load ?r) ?k ?s] =>
        erewrite (bind_load r s _ k) by solve_get
    end
  | match goal with
    | |- context [em_bind ?c ?k ?s] =>
        let a := fresh "a" in let s' := fresh "s" in
        let E := fresh "E" in let Hs := fresh "Hs" in
        destruct (bind_frames c k s ltac:(frames_auto)) as (a & s' & E & Hs);
        rewrite E; clear E
    end ].

(** Close a goal [exists s', c s = (Some tt, s') /\ ...] once [c] is the
    last host operation or nothing is left to run. *)
Ltac cd_finish :=
  em_norm;
  match goal with
  | |- exists s', ?c ?s = _ /\ _ =>
      first
      [ eexists; split; [reflexivity | split; [solve_get | intros; solve_get]]
      | let Hf := fresh "Hf" in let s' := fresh "s" in
        let E := fresh "E" in let Hs := fresh "Hs" in
        assert (Hf : frames c) by frames_auto;
        destruct (Hf s) as ([] & s' & E & Hs);
        exists s'; split; [exact E | split; [solve_get | intros; solve_get]] ]
  end.

Section MethodSpecs.
Context {S C : Type} `{TimerHostLaws S C}.

(** The timer a method leaves in the store, other timers untouched. *)
Definition leaves (c : EM S unit) (r : nat) (t' : timer C) (s : S) : Prop :=
  exists s', c s = (Some tt, s') /\ timer_get r s' = Some t' /\
    forall r', r' <> r -> timer_get r' s' = timer_get r' s.

(** [start(seconds)] leaves the timer running on a fresh
    interval handle, with [remaining] set to [seconds] when it is a number
    and kept otherwise (resume after [pause]). *)
Lemma start_spec r secs s t :
  timer_get r s = Some t ->
  exists h, leaves (start r secs) r
    (mk_timer (Some h) (match secs with Some x => x | None => remaining t end) (callbacks t)) s.
Proof.
  intros Et. unfold leaves, start. do 7 cd_step.
  exists a0. eexists. split; [reflexivity|]. split.
  - destruct secs; solve_get.
  - intros r' Hr'. solve_get.
Qed.

(** [pause()] stops the timer and keeps [remaining]. *)
Lemma pause_spec r s t :
  timer_get r s = Some t -> leaves (pause r) r (set_interval_field None t) s.
Proof.
  intros Et. unfold leaves, pause. cd_step. destruct t as [[h|] x c]; simpl.
  - repeat cd_step. cd_finish.
  - cd_finish.
Qed.

(** [reset()] stops the timer and sets [remaining] to 0. *)
Lemma reset_spec r s t :
  timer_get r s = Some t -> leaves (reset r) r (mk_timer None 0%float (callbacks t)) s.
Proof.
  intros Et. unfold leaves, reset, pause. em_norm. rewrite em_bind_assoc. cd_step.
  destruct t as [[h|] x c]; simpl; repeat (rewrite ?em_bind_assoc; cd_step); cd_finish.
Qed.

Lemma tick_running r s t :
  timer_get r s = Some t -> (remaining t - js_tenth <=? 0)%float = false ->
  leaves (tick r) r (set_remaining (remaining t - js_tenth)%float t) s.
Proof.
  intros Et Hpos. unfold leaves, tick. do 2 cd_step. rewrite Hpos. cd_finish.
Qed.

Lemma tick_done r s t :
  timer_get r s = Some t -> (remaining t - js_tenth <=? 0)%float = true ->
  leaves (tick r) r (mk_timer None 0%float (callbacks t)) s.
Proof.
  intros Et Hle. unfold leaves, tick. do 2 cd_step. rewrite Hle.
  do 3 cd_step. destruct t as [[h|] x c]; simpl; repeat cd_step; cd_finish.
Qed.

(** An interval tick subtracts the binary64 value of [0.1];
    while the result is positive the timer keeps running with it, and the
    tick that brings it to 0 or below clamps [remaining] to 0 and stops the
    timer. *)
Lemma tick_spec r s t :
  timer_get r s = Some t ->
  leaves (tick r) r
    (if (remaining t - js_tenth <=? 0)%float then mk_timer None 0%float (callbacks t)
     else set_remaining (remaining t - js_tenth)%float t) s.
Proof.
  intros Et. destruct (remaining t - js_tenth <=? 0)%float eqn:E;
    [apply tick_done | apply tick_running]; assumption.
Qed.
End MethodSpecs.

(** ** The arithmetic of the countdown

    Each tick replaces [remaining] by the rounded difference
    [remaining - 0.1]; [rem_after x n] is the value after [n] ticks from
    [x], and [ticks_from] counts the ticks until the value is [<= 0] (the
    tick that fires [onDone]).  The ideal countdown of the spec stops after
    exactly [10 * seconds] ticks. *)

Fixpoint rem_after (x : float) (n : nat) : float :=
  match n with
  | O => x
  | S k => (rem_after x k - js_tenth)%float
  end.

(** The number of ticks until [remaining <= 0], searched up to [fuel]. *)
Fixpoint ticks_from (fuel : nat) (r : float) : option nat :=
  match fuel with
  | O => None
  | S f =>
      let r' := (r - js_tenth)%float in
      if (r' <=? 0)%float then Some 1 else option_map S (ticks_from f r')
  end.

(** The ideal countdown of [d] whole seconds: [10 * d] ticks of 0.1 s. *)
Definition ideal_ticks (d : nat) : nat := 10 * d.

(** The float countdown stops on the ideal tick or one tick late. *)
Definition within_one_tick (d : nat) : bool :=
  match ticks_from (10 * d + 2) (js_of_nat d) with
  | Some n => Nat.eqb n (ideal_ticks d) || Nat.eqb n (S (ideal_ticks d))
  | None => false
  end.

(** [n] ticks of one timer in a row, with nothing in between. *)
Fixpoint tick_n {St Cb : Type} `{TimerHost St Cb} (r : nat) (n : nat) : EM St unit :=
  match n with
  | O => mret tt
  | S k => tick r;; tick_n r k
  end.

Lemma rem_after_shift x k : rem_after (x - js_tenth)%float k = rem_after x (S k).
Proof. induction k as [|k IH]; simpl; [reflexivity|]. now rewrite IH. Qed.

(** What [ticks_from] finds: the values before the [n]-th tick stay
    positive and the [n]-th is [<= 0]. *)
Lemma ticks_from_spec fuel x n :
  ticks_from fuel x = Some n ->
  1 <= n /\ (forall k, 1 <= k < n -> (rem_after x k <=? 0)%float = false) /\
  (rem_after x n <=? 0)%float = true.
Proof.
  revert x n. induction fuel as [|f IH]; intros x n H; simpl in H; [discriminate|].
  destruct (x - js_tenth <=? 0)%float eqn:E.
  - invc H. split; [lia|]. split; [intros; lia | exact E].
  - destruct (ticks_from f (x - js_tenth)%float) as [m|] eqn:Ef; simpl in H; [|discriminate].
    invc H. destruct (IH _ _ Ef) as (Hm & Hlt & Hend).
    rewrite rem_after_shift in Hend. split; [lia|]. split; [|exact Hend].
    intros [|[|k]] Hk; [lia | exact E |].
    rewrite <- rem_after_shift. apply Hlt. lia.
Qed.

Section Termination.
Context {St Cb : Type} `{TimerHostLaws St Cb}.

Lemma leaves_seq (c1 c2 : EM St unit) r t1 t2 s :
  leaves c1 r t1 s -> (forall s1, timer_get r s1 = Some t1 -> leaves c2 r t2 s1) ->
  leaves (c1;; c2) r t2 s.
Proof.
  intros (s1 & E1 & G1 & O1) H2. destruct (H2 s1 G1) as (s2 & E2 & G2 & O2).
  exists s2. em_norm. rewrite (em_bind_some _ _ _ _ _ E1). split; [exact E2|].
  split; [exact G2|]. intros r' Hr'. rewrite O2, O1 by exact Hr'. reflexivity.
Qed.

Lemma leaves_ret r t s : timer_get r s = Some t -> leaves (mret tt) r t s.
Proof. intros E. exists s. split; [reflexivity|]. split; [exact E | reflexivity]. Qed.

Lemma tick_n_running r k : forall s t,
  timer_get r s = Some t ->
  (forall j, 1 <= j <= k -> (rem_after (remaining t) j <=? 0)%float = false) ->
  leaves (tick_n r k) r (set_remaining (rem_after (remaining t) k) t) s.
Proof.
  induction k as [|k IH]; intros s t Et Hpos; cbn [tick_n].
  - apply leaves_ret. destruct t; exact Et.
  - apply leaves_seq with (t1 := set_remaining (remaining t - js_tenth)%float t).
    + apply tick_running; [exact Et | apply (Hpos 1); lia].
    + intros s1 E1. rewrite <- rem_after_shift.
      apply (IH s1 _ E1). intros j Hj. cbn [remaining set_remaining].
      rewrite rem_after_shift. apply Hpos. lia.
Qed.

Lemma tick_n_done r fuel : forall s t n,
  timer_get r s = Some t -> ticks_from fuel (remaining t) = Some n ->
  leaves (tick_n r n) r (mk_timer None 0%float (callbacks t)) s.
Proof.
  induction fuel as [|f IH]; intros s t n Et Hn; simpl in Hn; [discriminate|].
  destruct (remaining t - js_tenth <=? 0)%float eqn:E.
  - invc Hn. simpl. apply leaves_seq with (t1 := mk_timer None 0%float (callbacks t)).
    + now apply tick_done.
    + intros s1 E1. now apply leaves_ret.
  - destruct (ticks_from f (remaining t - js_tenth)%float) as [m|] eqn:Ef;
      simpl in Hn; [|discriminate].
    invc Hn. simpl.
    apply leaves_seq with (t1 := set_remaining (remaining t - js_tenth)%float t).
    + now apply tick_running.
    + intros s1 E1. exact (IH s1 _ m E1 Ef).
Qed.

(** A running countdown whose value reaches [<= 0] at the
    [n]-th tick (as [ticks_from] finds) is still running, holding the
    value [rem_after x k], after each of the first [k < n] ticks, and is
    stopped with [remaining = 0] after the [n]-th: the [onDone] tick. *)
Lemma countdown_runs_to_zero r s t fuel n :
  timer_get r s = Some t -> ticks_from fuel (remaining t) = Some n ->
  (forall k, k < n -> leaves (tick_n r k) r (set_remaining (rem_after (remaining t) k) t) s) /\
  leaves (tick_n r n) r (mk_timer None 0%float (callbacks t)) s.
Proof.
  intros Et Hn. split; [|exact (tick_n_done r fuel s t n Et Hn)].
  intros k Hk. destruct (ticks_from_spec fuel _ _ Hn) as (_ & Hlt & _).
  apply tick_n_running; [exact Et|]. intros j Hj. apply Hlt. lia.
Qed.
End Termination.

Lemma within_one_tick_upto_600 : forallb within_one_tick (seq 1 600) = true.
Proof. vm_compute. reflexivity. Qed.

(** C11: against the ideal countdown of [d] whole seconds ([10 * d]
    ticks), the float countdown of [start(d)] reaches [remaining <= 0] on
    the ideal tick or exactly one tick late, for every [d] from 1 s to
    10 min (the catalog's longest timer is 2 min). *)
Theorem countdown_refines_ideal (d : nat) :
  1 <= d <= 600 ->
  exists n, ticks_from (10 * d + 2) (js_of_nat d) = Some n /\
            (n = ideal_ticks d \/ n = S (ideal_ticks d)).
Proof.
  intros Hd. pose proof (forallb_seq_spec within_one_tick 1 600 within_one_tick_upto_600 d
    ltac:(lia)) as H. unfold within_one_tick in H.
  destruct (ticks_from (10 * d + 2) (js_of_nat d)) as [n|]; [|discriminate].
  exists n. split; [reflexivity|].
  apply orb_true_iff in H as [H|H]; apply Nat.eqb_eq in H; auto.
Qed.

Lemma countdown_refines_ideal_witness :
  1 <= 5 <= 600 /\ exists n, ticks_from (10 * 5 + 2) (js_of_nat 5) = Some n /\
            (n = ideal_ticks 5 \/ n = S (ideal_ticks 5)).
Proof. split; [lia|]. apply countdown_refines_ideal. lia. Defined.

(** The countdowns of the catalog's durations take 51 ticks for
    5 s (the chin-tuck hold lasts 5.1 s), 250, 300 and 600 ticks for
    25 s, 30 s and 60 s, and 1201 ticks for 120 s. *)
Lemma catalog_durations_ticks :
  ticks_from 100 (js_of_nat 5) = Some 51 /\
  ticks_from 300 (js_of_nat 25) = Some 250 /\
  ticks_from 400 (js_of_nat 30) = Some 300 /\
  ticks_from 700 (js_of_nat 60) = Some 600 /\
  ticks_from 1300 (js_of_nat 120) = Some 1201.
Proof. vm_compute. repeat split. Qed.

(** [start(10)] followed by 10 ticks leaves about 9 s on the clock
    (not 0 as the spec's example says), and [onDone] comes on the 101st
    tick. *)
Lemma start10_ten_ticks :
  (rem_after (js_of_nat 10) 10 <=? 0)%float = false /\
  (js_of_nat 8 <? rem_after (js_of_nat 10) 10)%float = true /\
  ticks_from 200 (js_of_nat 10) = Some 101.
Proof. vm_compute. repeat split. Qed.

End Countdown.
