(* ===== verification/Browser.v ===== *)
(** * The browser's timer queue ([setInterval], [setTimeout], [clearInterval])

    script.js schedules work through the browser: [CountdownTimer.start]
    registers a 100 ms interval, the hold loop of [renderExercise]
    registers one-shot 400 ms and 600 ms timeouts, and [beep] a timeout
    that stops its tone.  This file models the
    queue those calls act on: a clock [now] in milliseconds, the next free
    handle, and the pending tasks, each with its handle, due time and
    callback (a first-order tag [K] that the application interprets).
    The event loop runs the due task with the smallest (due time, handle);
    an interval is re-armed [period] ms later before its callback runs.
    Timers fire exactly on time (no clamping or jitter): the fixed cadence
    the source assumes. *)

From stdpp Require Import base list.
From Stdlib Require Import NArith Lia.
From S2P Require Import Prelude.

Module Browser.

Inductive task_kind (K : Type) := Every (period : N) (cb : K) | Once (cb : K).
Arguments Every {K} _ _.
Arguments Once {K} _.

Record task (K : Type) := mk_task { handle : nat; due : N; kind : task_kind K }.
Arguments mk_task {K} _ _ _.
Arguments handle {K} _.
Arguments due {K} _.
Arguments kind {K} _.

Record queue (K : Type) := mk_queue { now : N; next_handle : nat; tasks : list (task K) }.
Arguments mk_queue {K} _ _ _.
Arguments now {K} _.
Arguments next_handle {K} _.
Arguments tasks {K} _.

Section Queue.
Context {K : Type}.

(** Browsers hand out positive handles, so [if (this.interval)] is true
    for every live handle. *)
Definition empty_queue : queue K := mk_queue 0%N 1 [].

(** [setInterval(cb, ms)] and [setTimeout(cb, ms)]: a fresh handle. *)
Definition schedule (k : task_kind K) (ms : N) (q : queue K) : nat * queue K :=
  let h := next_handle q in
  (h, mk_queue (now q) (S h) (tasks q ++ [mk_task h (now q + ms)%N k])).

Definition add_interval (cb : K) (ms : N) (q : queue K) : nat * queue K :=
  schedule (Every ms cb) ms q.
Definition add_timeout (cb : K) (ms : N) (q : queue K) : nat * queue K :=
  schedule (Once cb) ms q.

(** [clearInterval(h)] / [clearTimeout(h)]: the task is dropped. *)
Definition clear (h : nat) (q : queue K) : queue K :=
  mk_queue (now q) (next_handle q) (List.filter (fun t => negb (Nat.eqb (handle t) h)) (tasks q)).

(** Task [a] runs before task [b]. *)
Definition earlier (a b : task K) : bool :=
  N.ltb (due a) (due b) || (N.eqb (due a) (due b) && Nat.ltb (handle a) (handle b)).

Fixpoint first_due (l : list (task K)) : option (task K) :=
  match l with
  | [] => None
  | t :: l' =>
      match first_due l' with
      | Some u => if earlier u t then Some u else Some t
      | None => Some t
      end
  end.

(** One turn of the event loop, when the next task is due by [limit]:
    the clock moves to its due time, an interval is re-armed, a timeout
    is removed; the callback to run is returned. *)
Definition pop (limit : N) (q : queue K) : option (K * queue K) :=
  match first_due (tasks q) with
  | Some t =>
      if N.leb (due t) limit then
        let rest := List.filter (fun u => negb (Nat.eqb (handle u) (handle t))) (tasks q) in
        match kind t with
        | Every p cb => Some (cb, mk_queue (due t) (next_handle q)
                                    (rest ++ [mk_task (handle t) (due t + p)%N (Every p cb)]))
        | Once cb => Some (cb, mk_queue (due t) (next_handle q) rest)
        end
      else None
  | None => None
  end.

(** The pending intervals: (handle, callback) of each [Every] task. *)
Definition intervals (q : queue K) : list (nat * K) :=
  flat_map (fun u => match kind u with Every _ cb => [(handle u, cb)] | Once _ => [] end) (tasks q).

(** The pending timeouts: (handle, callback) of each [Once] task. *)
Definition timeouts (q : queue K) : list (nat * K) :=
  flat_map (fun u => match kind u with Once cb => [(handle u, cb)] | Every _ _ => [] end) (tasks q).

(** Handles are distinct, positive and below [next_handle]; nothing is
    due before [now]. *)
Definition queue_wf (q : queue K) : Prop :=
  1 <= next_handle q /\ List.NoDup (map handle (tasks q)) /\
  Forall (fun t => 1 <= handle t < next_handle q /\ (now q <= due t)%N) (tasks q).
End Queue.

Section QueueLaws.
Context {K : Type}.
Implicit Types (q : queue K) (l : list (task K)) (a b t u : task K).

Lemma first_due_in l t : first_due l = Some t -> In t l.
Proof.
  induction l as [|u l IH]; simpl; [discriminate|].
  destruct (first_due l) as [v|]; [destruct (earlier v u)|]; intros H; invc H; auto.
Qed.

Lemma earlier_due a b : earlier a b = true -> (due a <= due b)%N.
Proof. unfold earlier. intros H. apply orb_true_iff in H as [H|H].
  - apply N.ltb_lt in H. lia.
  - apply andb_prop in H as [H _]. apply N.eqb_eq in H. lia. Qed.

Lemma not_earlier_due a b : earlier a b = false -> (due b <= due a)%N.
Proof. unfold earlier. intros H. apply orb_false_iff in H as [H _].
  apply N.ltb_ge in H. exact H. Qed.

(** The task the loop runs is due no later than any other. *)
Lemma first_due_min l t : first_due l = Some t -> Forall (fun u => (due t <= due u)%N) l.
Proof.
  revert t. induction l as [|u l IH]; intros t; simpl; [discriminate|].
  destruct (first_due l) as [v|] eqn:Ev.
  - specialize (IH v eq_refl). destruct (earlier v u) eqn:Eu; intros H; invc H.
    + constructor; [now apply earlier_due | exact IH].
    + constructor; [lia|]. apply not_earlier_due in Eu.
      eapply Forall_impl; [exact IH | intros w Hw; simpl in Hw; lia].
  - intros H; invc H. destruct l; [constructor; [lia | constructor]|].
    simpl in Ev. destruct (first_due l); [destruct (earlier _ _)|]; discriminate.
Qed.

Lemma nodup_map_filter (f : task K -> bool) l :
  List.NoDup (map handle l) -> List.NoDup (map handle (List.filter f l)).
Proof.
  induction l as [|u l IH]; simpl; intros Hn; [constructor|].
  apply List.NoDup_cons_iff in Hn as [Hu Hn]. destruct (f u); simpl; [|auto].
  constructor; [|auto]. intros Hin. apply Hu.
  apply in_map_iff in Hin as (w & Hw & Hin). apply filter_In in Hin as [Hin _].
  apply in_map_iff. eauto.
Qed.

Lemma nodup_snoc_fresh l (t : task K) :
  List.NoDup (map handle l) -> ~ In (handle t) (map handle l) -> List.NoDup (map handle (l ++ [t])).
Proof.
  intros Hn Hf. rewrite map_app. simpl. apply List.NoDup_app; [exact Hn | | ].
  - constructor; [intros [] | constructor].
  - intros x Hx [<-|[]]. contradiction.
Qed.

Lemma schedule_wf k ms q : queue_wf q -> queue_wf (snd (schedule k ms q)).
Proof.
  intros (H1 & Hn & Hf). unfold schedule. split; [simpl; lia|]. split; simpl.
  - apply nodup_snoc_fresh; [exact Hn|]. intros Hin.
    apply in_map_iff in Hin as (t & Ht & Hin).
    apply List.Forall_forall with (x := t) in Hf; [|exact Hin]. simpl in Ht, Hf. lia.
  - apply Forall_app. split.
    + eapply Forall_impl; [exact Hf|]. intros t Ht. simpl in *. lia.
    + constructor; [simpl; lia | constructor].
Qed.

Lemma clear_wf h q : queue_wf q -> queue_wf (clear h q).
Proof.
  intros (H1 & Hn & Hf). split; [exact H1|]. split; simpl.
  - now apply nodup_map_filter.
  - apply List.Forall_forall. intros t Ht. apply filter_In in Ht as [Ht _].
    exact (proj1 (List.Forall_forall _ _) Hf t Ht).
Qed.

(** [clearInterval(h)] leaves no task with handle [h]: its callback never
    runs again. *)
Lemma clear_removes h q : Forall (fun t => handle t <> h) (tasks (clear h q)).
Proof.
  apply List.Forall_forall. intros t Ht. simpl in Ht. apply filter_In in Ht as [_ Ht].
  apply negb_true_iff, Nat.eqb_neq in Ht. exact Ht.
Qed.

Lemma pop_wf limit q cb q' : queue_wf q -> pop limit q = Some (cb, q') -> queue_wf q'.
Proof.
  intros (H1 & Hn & Hf) Hp. unfold pop in Hp.
  destruct (first_due (tasks q)) as [t|] eqn:Et; [|discriminate].
  destruct (N.leb (due t) limit); [|discriminate].
  pose proof (first_due_min _ _ Et) as Hmin.
  pose proof (proj1 (List.Forall_forall _ _) Hf t (first_due_in _ _ Et)) as [Ht _].
  set (rest := List.filter _ (tasks q)) in Hp.
  assert (Hrest : Forall (fun u => 1 <= handle u < next_handle q /\ (due t <= due u)%N) rest).
  { apply List.Forall_forall. intros u Hu. apply filter_In in Hu as [Hu _]. split.
    - exact (proj1 (proj1 (List.Forall_forall _ _) Hf u Hu)).
    - exact (proj1 (List.Forall_forall _ _) Hmin u Hu). }
  assert (Hnr : List.NoDup (map handle rest)) by now apply nodup_map_filter.
  destruct (kind t) as [p c|c]; invc Hp; (split; [exact H1|]); split; simpl.
  - apply nodup_snoc_fresh; [exact Hnr|]. intros Hin.
    apply in_map_iff in Hin as (u & Hu & Hin). apply filter_In in Hin as [_ Hin].
    rewrite Hu, Nat.eqb_refl in Hin. discriminate.
  - apply Forall_app. split; [exact Hrest|]. constructor; [simpl; lia | constructor].
  - exact Hnr.
  - exact Hrest.
Qed.

(** ** The pending intervals under the queue's operations *)

Lemma in_intervals q h cb :
  In (h, cb) (intervals q) <-> exists u p, In u (tasks q) /\ handle u = h /\ kind u = Every p cb.
Proof.
  unfold intervals. rewrite in_flat_map. split.
  - intros (u & Hu & Hin). destruct (kind u) as [p c|c] eqn:Ek; [|contradiction].
    destruct Hin as [[= <- <-]|[]]. eauto.
  - intros (u & p & Hu & <- & Ek). exists u. rewrite Ek. auto with datatypes.
Qed.

Lemma in_intervals_add_interval cb ms q x :
  In x (intervals (snd (add_interval cb ms q))) <-> In x (intervals q) \/ x = (next_handle q, cb).
Proof.
  unfold intervals, add_interval, schedule. simpl. rewrite flat_map_app, in_app_iff. simpl.
  split; intros [H|H]; auto; destruct H as [H|[]]; auto.
Qed.

Lemma intervals_add_timeout cb ms q : intervals (snd (add_timeout cb ms q)) = intervals q.
Proof. unfold intervals, add_timeout, schedule. simpl. rewrite flat_map_app. simpl. apply app_nil_r. Qed.

Lemma in_intervals_clear h q x :
  In x (intervals (clear h q)) <-> In x (intervals q) /\ fst x <> h.
Proof.
  destruct x as [h' cb]. rewrite !in_intervals. simpl. split.
  - intros (u & p & Hu & Hh & Hk). apply filter_In in Hu as [Hu Hne].
    apply negb_true_iff, Nat.eqb_neq in Hne. split; [eauto | congruence].
  - intros [(u & p & Hu & Hh & Hk) Hne]. exists u, p. split; [|auto].
    apply filter_In. split; [exact Hu|]. apply negb_true_iff, Nat.eqb_neq. congruence.
Qed.

(** In a well-formed queue a handle names one task. *)
Lemma wf_handle_unique q u v :
  queue_wf q -> In u (tasks q) -> In v (tasks q) -> handle u = handle v -> u = v.
Proof.
  intros (_ & Hn & _). induction (tasks q) as [|w l IH]; [intros []|].
  simpl. apply List.NoDup_cons_iff in Hn as [Hw Hn].
  intros [<-|Hu] [<-|Hv] Hh; auto; exfalso; apply Hw; [rewrite Hh | rewrite <- Hh]; apply in_map; assumption.
Qed.

Lemma intervals_unique q h cb1 cb2 :
  queue_wf q -> In (h, cb1) (intervals q) -> In (h, cb2) (intervals q) -> cb1 = cb2.
Proof.
  intros Hq H1 H2. apply in_intervals in H1 as (u & p & Hu & Hh & Hk).
  apply in_intervals in H2 as (v & p' & Hv & Hh' & Hk').
  rewrite (wf_handle_unique q u v Hq Hu Hv ltac:(congruence)) in Hk. congruence.
Qed.

Lemma intervals_fresh q h cb : queue_wf q -> In (h, cb) (intervals q) -> h < next_handle q.
Proof.
  intros (_ & _ & Hf) H. apply in_intervals in H as (u & p & Hu & <- & _).
  exact (proj2 (proj1 (proj1 (List.Forall_forall _ _) Hf u Hu))).
Qed.

Lemma intervals_nodup q : queue_wf q -> List.NoDup (intervals q).
Proof.
  intros (_ & Hn & _). unfold intervals. induction (tasks q) as [|u l IH]; simpl; [constructor|].
  apply List.NoDup_cons_iff in Hn as [Hu Hn].
  destruct (kind u) as [p cb|cb]; simpl; [|exact (IH Hn)].
  constructor; [|exact (IH Hn)]. intros Hin. apply Hu.
  apply in_flat_map in Hin as (v & Hv & Hin). destruct (kind v); [|contradiction].
  destruct Hin as [[= Hh _]|[]]. rewrite <- Hh. now apply in_map.
Qed.

(** A turn of the loop keeps the pending intervals: an interval is
    re-armed under its handle, a timeout was none of them. *)
Lemma in_intervals_pop limit q cb q' x :
  queue_wf q -> pop limit q = Some (cb, q') -> In x (intervals q') <-> In x (intervals q).
Proof.
  intros Hq Hp. unfold pop in Hp.
  destruct (first_due (tasks q)) as [t|] eqn:Et; [|discriminate].
  destruct (N.leb (due t) limit); [|discriminate].
  pose proof (first_due_in _ _ Et) as Ht.
  assert (Hrest : forall y, In y (flat_map (fun u => match kind u with Every _ cb => [(handle u, cb)] | Once _ => [] end)
                                 (List.filter (fun u => negb (Nat.eqb (handle u) (handle t))) (tasks q)))
                            <-> In y (intervals q) /\ fst y <> handle t).
  { intros y. exact (in_intervals_clear (handle t) q y). }
  destruct x as [h c]. destruct (kind t) as [p c0|c0] eqn:Ek; invc Hp; unfold intervals; simpl;
    rewrite ?flat_map_app, ?in_app_iff, Hrest; simpl.
  - split.
    + intros [[H _]|[[= <- <-]|[]]]; [exact H|]. apply in_intervals. eauto.
    + intros H. destruct (Nat.eq_dec h (handle t)) as [->|Hne]; [right; left|left; auto].
      f_equal. apply (intervals_unique q (handle t)); [exact Hq | | exact H].
      apply in_intervals. eauto.
  - split; [intros [H _]; exact H|]. intros H. split; [exact H|]. simpl. intros ->.
    apply in_intervals in H as (u & p & Hu & Hh & Hk).
    rewrite (wf_handle_unique q u t Hq Hu Ht Hh) in Hk. congruence.
Qed.

(** ** The pending timeouts under the queue's operations *)

Lemma in_timeouts q h cb :
  In (h, cb) (timeouts q) <-> exists u, In u (tasks q) /\ handle u = h /\ kind u = Once cb.
Proof.
  unfold timeouts. rewrite in_flat_map. split.
  - intros (u & Hu & Hin). destruct (kind u) as [p c|c] eqn:Ek; [contradiction|].
    destruct Hin as [[= <- <-]|[]]. eauto.
  - intros (u & Hu & <- & Ek). exists u. rewrite Ek. auto with datatypes.
Qed.

Lemma timeouts_add_timeout cb ms q :
  timeouts (snd (add_timeout cb ms q)) = timeouts q ++ [(next_handle q, cb)].
Proof. unfold timeouts, add_timeout, schedule. simpl. now rewrite flat_map_app. Qed.

Lemma timeouts_add_interval cb ms q : timeouts (snd (add_interval cb ms q)) = timeouts q.
Proof. unfold timeouts, add_interval, schedule. simpl. rewrite flat_map_app. simpl. apply app_nil_r. Qed.

(** Dropping the tasks of handle [h] drops the timeouts of handle [h]. *)
Lemma timeouts_filter h l :
  flat_map (fun u => match kind u with Once cb => [(handle u, cb)] | Every _ _ => [] end)
    (List.filter (fun u => negb (Nat.eqb (handle u) h)) l) =
  List.filter (fun x => negb (Nat.eqb (fst x) h))
    (flat_map (fun u => match kind u with Once cb => [(handle u, cb)] | Every _ _ => [] end) l).
Proof.
  induction l as [|u l IH]; [reflexivity|]. simpl.
  destruct u as [hu du [p c|c]]; simpl; destruct (Nat.eqb hu h) eqn:E; simpl; rewrite ?E;
    simpl; rewrite IH; reflexivity.
Qed.

Lemma timeouts_clear h q :
  timeouts (clear h q) = List.filter (fun x => negb (Nat.eqb (fst x) h)) (timeouts q).
Proof. apply timeouts_filter. Qed.

(** No timeout has the handle of an interval. *)
Lemma timeouts_interval_handle q h cb :
  queue_wf q -> In (h, cb) (intervals q) -> List.filter (fun x => negb (Nat.eqb (fst x) h)) (timeouts q) = timeouts q.
Proof.
  intros Hq Hi. apply in_intervals in Hi as (u & p & Hu & Hh & Hk).
  apply List.forallb_filter_id, forallb_forall. intros [h' c] Hin.
  apply in_timeouts in Hin as (v & Hv & Hh' & Hk'). simpl. apply negb_true_iff, Nat.eqb_neq.
  intros ->. rewrite (wf_handle_unique q v u Hq Hv Hu ltac:(congruence)) in Hk'. congruence.
Qed.

Lemma timeouts_nodup_handles q : queue_wf q -> List.NoDup (map fst (timeouts q)).
Proof.
  intros (_ & Hn & _). unfold timeouts. induction (tasks q) as [|u l IH]; simpl; [constructor|].
  apply List.NoDup_cons_iff in Hn as [Hu Hn].
  destruct (kind u) as [p cb|cb]; simpl; [exact (IH Hn)|].
  constructor; [|exact (IH Hn)]. intros Hin. apply Hu.
  apply in_map_iff in Hin as ([h c] & Hh & Hin). simpl in Hh. subst h.
  apply in_flat_map in Hin as (v & Hv & Hin). destruct (kind v); [contradiction|].
  destruct Hin as [[= Hh _]|[]]. rewrite <- Hh. now apply in_map.
Qed.

Lemma timeouts_unique q h cb1 cb2 :
  queue_wf q -> In (h, cb1) (timeouts q) -> In (h, cb2) (timeouts q) -> cb1 = cb2.
Proof.
  intros Hq H1 H2. apply in_timeouts in H1 as (u & Hu & Hh & Hk).
  apply in_timeouts in H2 as (v & Hv & Hh' & Hk').
  rewrite (wf_handle_unique q u v Hq Hu Hv ltac:(congruence)) in Hk. congruence.
Qed.

(** A turn of the loop re-arms an interval, leaving the timeouts, or
    runs a timeout, which leaves the queue. *)
Lemma timeouts_pop limit q cb q' :
  queue_wf q -> pop limit q = Some (cb, q') ->
  (timeouts q' = timeouts q /\ exists h, In (h, cb) (intervals q)) \/
  (exists h, In (h, cb) (timeouts q) /\
             timeouts q' = List.filter (fun x => negb (Nat.eqb (fst x) h)) (timeouts q)).
Proof.
  intros Hq Hp. unfold pop in Hp.
  destruct (first_due (tasks q)) as [t|] eqn:Et; [|discriminate].
  destruct (N.leb (due t) limit); [|discriminate].
  pose proof (first_due_in _ _ Et) as Ht.
  destruct (kind t) as [p c0|c0] eqn:Ek; invc Hp; unfold timeouts at 1; simpl.
  - left. rewrite flat_map_app, timeouts_filter. simpl. rewrite app_nil_r.
    assert (Hi : In (handle t, cb) (intervals q)) by (apply in_intervals; eauto).
    split; [exact (timeouts_interval_handle q _ _ Hq Hi) | eauto].
  - right. exists (handle t). split; [apply in_timeouts; eauto | apply timeouts_filter].
Qed.
End QueueLaws.

End Browser.
