(* ===== verification/Persist.v ===== *)
(** * Persistence ([loadProgress], [saveProgress], script.js lines 238-250)

    The progress key of [localStorage] holds the JSON text of
    [{completed: Array.from(state.completed), currentIndex: state.currentIndex}].
    Stored text is modelled by the value [JSON.parse] gives for it ([SJson])
    or by [SInvalid] when [JSON.parse] throws; a missing key (and the empty
    string, which [|| '{}'] replaces) is [None].  [JSON.stringify] and
    [JSON.parse] are inverse on the values written here, so the stored
    value is the serialised one.

    The completed set holds JavaScript values: the strings the handler adds,
    and whatever [new Set(saved.completed)] put there from the stored
    array.  Arrays and objects read from storage are fresh objects, told
    apart by a reference number, which is how SameValueZero compares them. *)

From stdpp Require Import base list strings.
From Stdlib Require Import Ascii String ZArith Floats Uint63 Lia.
From S2P Require Import Prelude Catalog.

#[local] Set Warnings "-register-all".

Module Persist.

Inductive json :=
| JNull
| JBool (b : bool)
| JNum (f : float)
| JStr (s : string)
| JArr (l : list json)
| JObj (fields : list (string * json)).

Inductive stored := SJson (v : json) | SInvalid.

(** A JavaScript value held in the completed set. *)
Inductive jsval :=
| VNull
| VBool (b : bool)
| VNum (f : float)
| VStr (s : string)
| VRef (ref : nat) (v : json).

(** SameValueZero on numbers: both NaN, both zeros (of either sign), or
    the same number value. *)
Definition number_svz (x y : float) : bool :=
  match Prim2SF x, Prim2SF y with
  | S754_nan, S754_nan => true
  | S754_zero _, S754_zero _ => true
  | S754_infinity s1, S754_infinity s2 => Bool.eqb s1 s2
  | S754_finite s1 m1 e1, S754_finite s2 m2 e2 =>
      Bool.eqb s1 s2 && Pos.eqb m1 m2 && Z.eqb e1 e2
  | _, _ => false
  end.

(** SameValueZero: NaN equals NaN, +0 equals -0, objects by reference. *)
Definition same_value_zero (a b : jsval) : bool :=
  match a, b with
  | VNull, VNull => true
  | VBool x, VBool y => Bool.eqb x y
  | VNum x, VNum y => number_svz x y
  | VStr x, VStr y => String.eqb x y
  | VRef i _, VRef j _ => Nat.eqb i j
  | _, _ => false
  end.

(** [obj[key]] of a parsed object (its own keys are distinct). *)
Fixpoint obj_get (fields : list (string * json)) (key : string) : option json :=
  match fields with
  | [] => None
  | (k, v) :: rest => if String.eqb k key then Some v else obj_get rest key
  end.

(** The elements of a parsed array as values: arrays and objects become
    distinct references (their position). *)
Definition jsvals_of_array (l : list json) : list jsval :=
  imap (fun i v => match v with
                   | JNull => VNull | JBool b => VBool b | JNum f => VNum f
                   | JStr s => VStr s | JArr _ | JObj _ => VRef i v
                   end) l.

(** [JSON.stringify] of a number: non-finite numbers become [null]. *)
Definition json_of_number (f : float) : json :=
  if PrimFloat.is_finite f then JNum f else JNull.

Definition json_of_jsval (v : jsval) : json :=
  match v with
  | VNull => JNull | VBool b => JBool b | VNum f => json_of_number f
  | VStr s => JStr s | VRef _ j => j
  end.

(** [saveProgress]: the stored object. *)
Definition encode_progress (completed : list jsval) (currentIndex : float) : json :=
  JObj [("completed", JArr (map json_of_jsval completed));
        ("currentIndex", json_of_number currentIndex)].

(** [loadProgress]: the completed set and index after reading [item].
    [saved.completed] throws on [null] (so nothing changes); other
    non-objects have no such property. *)
Definition load_progress (item : option stored) (completed : list jsval) (currentIndex : float)
  : list jsval * float :=
  let saved := match item with
               | None => Some (JObj [])
               | Some (SJson v) => Some v
               | Some SInvalid => None
               end in
  match saved with
  | None => (completed, currentIndex)
  | Some JNull => (completed, currentIndex)
  | Some v =>
      let prop k := match v with JObj fs => obj_get fs k | _ => None end in
      let completed' := match prop "completed"%string with
                        | Some (JArr l) => jsset_of_list same_value_zero (jsvals_of_array l)
                        | _ => completed
                        end in
      let index' := match prop "currentIndex"%string with
                    | Some (JNum n) =>
                        js_min (js_max 0%float n) (js_of_nat (List.length Catalog.routine - 1))
                    | _ => currentIndex
                    end in
      (completed', index')
  end.

(** ** SameValueZero is an equivalence *)

Lemma bool_eqb_sym a b : Bool.eqb a b = Bool.eqb b a.
Proof. now destruct a, b. Qed.

Lemma number_svz_refl x : number_svz x x = true.
Proof.
  unfold number_svz. destruct (Prim2SF x); try reflexivity.
  - apply Bool.eqb_reflx.
  - now rewrite Bool.eqb_reflx, Pos.eqb_refl, Z.eqb_refl.
Qed.

Lemma number_svz_sym x y : number_svz x y = number_svz y x.
Proof.
  unfold number_svz. destruct (Prim2SF x), (Prim2SF y); try reflexivity.
  - apply bool_eqb_sym.
  - now rewrite bool_eqb_sym, Pos.eqb_sym, (Z.eqb_sym e).
Qed.

Lemma same_value_zero_refl v : same_value_zero v v = true.
Proof.
  destruct v; simpl; auto using number_svz_refl, Bool.eqb_reflx, String.eqb_refl, Nat.eqb_refl.
Qed.

Lemma same_value_zero_sym v w : same_value_zero v w = same_value_zero w v.
Proof.
  destruct v, w; simpl; try reflexivity.
  - apply bool_eqb_sym.
  - apply number_svz_sym.
  - apply String.eqb_sym.
  - apply Nat.eqb_sym.
Qed.

#[export] Hint Resolve same_value_zero_refl same_value_zero_sym : neck.

(** The SameValueZero of numbers, written on the IEEE representation,
    is the one of the ECMAScript specification: two NaNs are equal, and
    otherwise it is the numeric equality [===] (so [+0] equals [-0]). *)
Lemma number_svz_spec x y :
  number_svz x y = (PrimFloat.is_nan x && PrimFloat.is_nan y) || (x =? y)%float.
Proof.
  unfold number_svz. rewrite !is_nan_sf, FloatAxioms.eqb_spec.
  destruct (Prim2SF x) as [s1|s1| |s1 m1 e1], (Prim2SF y) as [s2|s2| |s2 m2 e2];
    repeat match goal with b : bool |- _ => destruct b end; simpl; rewrite ?sfeqb_finite; reflexivity.
Qed.

(** ** Saving and loading *)

Definition is_vstr (v : jsval) : bool := match v with VStr _ => true | _ => false end.

Lemma imap_json_strings (f : nat -> json -> jsval) (l : list jsval) :
  (forall i s, f i (JStr s) = VStr s) -> forallb is_vstr l = true ->
  imap f (map json_of_jsval l) = l.
Proof.
  revert f. induction l as [|v l IH]; intros f Hf Hl; [reflexivity|].
  simpl in Hl. apply andb_prop in Hl as [Hv Hl]. destruct v; try discriminate.
  simpl. rewrite Hf. f_equal. apply IH; [|exact Hl]. intros i s'. apply Hf.
Qed.

Lemma jsvals_of_strings (l : list jsval) :
  forallb is_vstr l = true -> jsvals_of_array (map json_of_jsval l) = l.
Proof. apply imap_json_strings. reflexivity. Qed.

(** The index written for exercise [n] is read back unchanged. *)
Lemma index_roundtrip n :
  n < List.length Catalog.routine ->
  json_of_number (js_of_nat n) = JNum (js_of_nat n) /\
  js_min (js_max 0%float (js_of_nat n)) (js_of_nat (List.length Catalog.routine - 1)) = js_of_nat n.
Proof.
  simpl. intros Hn. do 9 (destruct n as [|n]; [split; reflexivity|]). lia.
Qed.

(** What [loadProgress] reads from what [saveProgress] wrote. *)
Lemma load_progress_saved (c : list jsval) (n : nat) (c0 : list jsval) (i0 : float) :
  forallb is_vstr c = true -> jsset_distinct same_value_zero c = true ->
  n < List.length Catalog.routine ->
  load_progress (Some (SJson (encode_progress c (js_of_nat n)))) c0 i0 = (c, js_of_nat n).
Proof.
  intros Hs Hd Hn. destruct (index_roundtrip n Hn) as [Hj Hc].
  unfold load_progress, encode_progress. rewrite Hj. simpl obj_get. cbv beta iota.
  rewrite jsvals_of_strings by exact Hs.
  rewrite jsset_of_list_distinct by auto using same_value_zero_sym. now rewrite Hc.
Qed.

(** C21: a completed set of exercise ids (distinct strings) and a
    valid index saved by [saveProgress] are read back identically by
    [loadProgress], whatever the state before loading. *)
Theorem progress_roundtrip (c : list jsval) (n : nat) (c0 : list jsval) (i0 : float) :
  forallb is_vstr c = true -> jsset_distinct same_value_zero c = true ->
  n < List.length Catalog.routine ->
  load_progress (Some (SJson (encode_progress c (js_of_nat n)))) c0 i0 = (c, js_of_nat n).
Proof. exact (load_progress_saved c n c0 i0). Qed.

Lemma progress_roundtrip_witness :
  forallb is_vstr [VStr "chin-tucks"] = true /\
  jsset_distinct same_value_zero [VStr "chin-tucks"] = true /\ 1 < List.length Catalog.routine /\
  load_progress (Some (SJson (encode_progress [VStr "chin-tucks"] (js_of_nat 1)))) [] 0%float
    = ([VStr "chin-tucks"], js_of_nat 1).
Proof.
  split; [reflexivity|]. split; [reflexivity|]. split; [simpl; lia|].
  apply progress_roundtrip; [reflexivity | reflexivity | simpl; lia].
Defined.

End Persist.
