(* ===== verification/App.v ===== *)
(** * The application: session state, handlers and the event loop
    (script.js lines 125-134, 221-401)

    The global [state] object, the DOM text the handlers write, the two
    [localStorage] keys, the [CountdownTimer] objects ever created (an
    object store: [state.timer] and the interval callbacks hold references
    into it) and the browser's timer queue form one record [app].  Every
    handler of the source is a computation of [EM app]: it mutates the
    record in the order of the source and may throw a [TypeError].  The
    application instantiates the countdown's [TimerHost] interface: the
    interval of a timer is a task [CbTick r] of the queue, [onTick] is
    [updateTimerDisplay] and [onDone] is the closure built by
    [renderExercise] over its exercise [ex].

    The exercise panel texts and the items of the step list are fields of
    the view, written when the source writes them.  [beep] logs its call,
    marks its oscillator as sounding and queues the timeout that stops it
    ([CbStopTone]) in the same queue as the countdowns' intervals. *)

From stdpp Require Import base list strings.
From Stdlib Require Import Ascii String NArith ZArith Floats Uint63 Lia.
From S2P Require Import Prelude Catalog Format Countdown Browser Persist.

Import Catalog Format Countdown Persist.

Module App.

(** A callback waiting in the browser's queue. *)
Inductive callback :=
| CbTick (r : nat)                   (** the interval of timer [r] *)
| CbRestart (holdSec : option nat)   (** [() => state.timer.start(ex.targets.holdSec)] *)
| CbStopTone (k : nat).              (** [() => { o.stop(); ctx.close(); }] of beep [k] *)

(** The [state] object of lines 126-134. *)
Record session := mk_session {
  currentIndex : float;
  completed : list jsval;
  repsDone : nat;
  setsDone : nat;
  cur_timer : option nat;     (** [state.timer]: a timer reference or [null] *)
  holdLoopActive : bool;
  theme : string              (** [state.preferences.theme] *)
}.

(** One [li] of the step list (lines 225-232): its [className] and the
    texts of its three [div]s (a check mark or the number, the title, the
    category). *)
Record step_item := mk_step_item {
  li_class : string;
  li_index : string;
  li_name : string;
  li_tag : string
}.

(** The texts of the exercise panel [renderExercise] writes (lines
    272-297): category, title, note, the instruction items, and the four
    target lines. *)
Record panel := mk_panel {
  p_category : string;
  p_title : string;
  p_note : string;
  p_instructions : list string;
  p_duration : string;
  p_reps : string;
  p_sets : string;
  p_caution : string
}.

(** The DOM the handlers write. *)
Record dom := mk_dom {
  timerDisplay : string;
  repCount : string;
  setCount : string;
  bodyLight : bool;           (** [document.body.classList] has ['light'] *)
  exercisePanel : panel;
  stepList : list step_item   (** the children of [els.stepList] *)
}.

Record app := mk_app {
  st : session;
  timers : list (timer exercise);
  queue : Browser.queue callback;
  view : dom;
  ls_progress : option stored;
  ls_theme : option string;
  beeps : list (nat * nat);   (** [beep(duration, frequency)] calls, in order *)
  sounding : list nat         (** the beeps whose oscillator is not stopped yet *)
}.

(** ** Field updates *)

Definition upd_st (f : session -> session) (a : app) : app :=
  mk_app (f (st a)) (timers a) (queue a) (view a) (ls_progress a) (ls_theme a) (beeps a) (sounding a).
Definition upd_timers (f : list (timer exercise) -> list (timer exercise)) (a : app) : app :=
  mk_app (st a) (f (timers a)) (queue a) (view a) (ls_progress a) (ls_theme a) (beeps a) (sounding a).
Definition upd_queue (f : Browser.queue callback -> Browser.queue callback) (a : app) : app :=
  mk_app (st a) (timers a) (f (queue a)) (view a) (ls_progress a) (ls_theme a) (beeps a) (sounding a).
Definition upd_view (f : dom -> dom) (a : app) : app :=
  mk_app (st a) (timers a) (queue a) (f (view a)) (ls_progress a) (ls_theme a) (beeps a) (sounding a).
Definition upd_ls_progress (v : option stored) (a : app) : app :=
  mk_app (st a) (timers a) (queue a) (view a) v (ls_theme a) (beeps a) (sounding a).
Definition upd_ls_theme (v : option string) (a : app) : app :=
  mk_app (st a) (timers a) (queue a) (view a) (ls_progress a) v (beeps a) (sounding a).
Definition upd_beeps (f : list (nat * nat) -> list (nat * nat)) (a : app) : app :=
  mk_app (st a) (timers a) (queue a) (view a) (ls_progress a) (ls_theme a) (f (beeps a)) (sounding a).
Definition upd_sounding (f : list nat -> list nat) (a : app) : app :=
  mk_app (st a) (timers a) (queue a) (view a) (ls_progress a) (ls_theme a) (beeps a) (f (sounding a)).

Definition set_currentIndex (i : float) (s : session) : session :=
  mk_session i (completed s) (repsDone s) (setsDone s) (cur_timer s) (holdLoopActive s) (theme s).
Definition set_completed (c : list jsval) (s : session) : session :=
  mk_session (currentIndex s) c (repsDone s) (setsDone s) (cur_timer s) (holdLoopActive s) (theme s).
Definition set_repsDone (n : nat) (s : session) : session :=
  mk_session (currentIndex s) (completed s) n (setsDone s) (cur_timer s) (holdLoopActive s) (theme s).
Definition set_setsDone (n : nat) (s : session) : session :=
  mk_session (currentIndex s) (completed s) (repsDone s) n (cur_timer s) (holdLoopActive s) (theme s).
Definition set_cur_timer (r : option nat) (s : session) : session :=
  mk_session (currentIndex s) (completed s) (repsDone s) (setsDone s) r (holdLoopActive s) (theme s).
Definition set_holdLoopActive (b : bool) (s : session) : session :=
  mk_session (currentIndex s) (completed s) (repsDone s) (setsDone s) (cur_timer s) b (theme s).
Definition set_theme (t : string) (s : session) : session :=
  mk_session (currentIndex s) (completed s) (repsDone s) (setsDone s) (cur_timer s) (holdLoopActive s) t.

Definition set_timerDisplay (x : string) (d : dom) : dom :=
  mk_dom x (repCount d) (setCount d) (bodyLight d) (exercisePanel d) (stepList d).
Definition set_repCount (x : string) (d : dom) : dom :=
  mk_dom (timerDisplay d) x (setCount d) (bodyLight d) (exercisePanel d) (stepList d).
Definition set_setCount (x : string) (d : dom) : dom :=
  mk_dom (timerDisplay d) (repCount d) x (bodyLight d) (exercisePanel d) (stepList d).
Definition set_bodyLight (b : bool) (d : dom) : dom :=
  mk_dom (timerDisplay d) (repCount d) (setCount d) b (exercisePanel d) (stepList d).
Definition set_exercisePanel (x : panel) (d : dom) : dom :=
  mk_dom (timerDisplay d) (repCount d) (setCount d) (bodyLight d) x (stepList d).
Definition set_stepList (x : list step_item) (d : dom) : dom :=
  mk_dom (timerDisplay d) (repCount d) (setCount d) (bodyLight d) (exercisePanel d) x.

(** ** Helpers of the source *)

(** [String(n)] of a counter. *)
Definition count_text (n : nat) : string := js_int_to_string (Z.of_nat n).

(** [setTimeout(cb, ms)]; the handle is not kept by the source. *)
Definition set_timeout (cb : callback) (ms : N) : EM app unit :=
  fun a => (Some tt, upd_queue (fun q => snd (Browser.add_timeout cb ms q)) a).

(** [beep(duration, frequency)] (lines 144-156): a new audio context whose
    oscillator starts sounding, beep [k] of the log, and
    [setTimeout(() => { o.stop(); ctx.close(); }, duration)].  The
    oscillator's type and volume are constants; the [catch] of a browser
    without Web Audio is not taken. *)
Definition beep (duration frequency : nat) : EM app unit :=
  a ← em_get;
  em_modify (upd_beeps (fun l => (l ++ [(duration, frequency)])%list));;
  em_modify (upd_sounding (fun l => (l ++ [List.length (beeps a)])%list));;
  set_timeout (CbStopTone (List.length (beeps a))) (N.of_nat duration).

(** [o.stop(); ctx.close()] of beep [k]. *)
Definition stop_tone (k : nat) : EM app unit :=
  em_modify (upd_sounding (List.filter (fun j => negb (Nat.eqb j k)))).

(** [updateTimerDisplay(seconds)]. *)
Definition updateTimerDisplay (seconds : float) : EM app unit :=
  em_modify (upd_view (set_timerDisplay (fmt seconds))).

(** A number of the catalog as the argument of [start]: [typeof seconds ===
    'number'] is false for [undefined]. *)
Definition js_opt (o : option nat) : option float := option_map js_of_nat o.

(** [a < b] with [b] possibly [undefined] (then false). *)
Definition lt_opt (n : nat) (o : option nat) : bool :=
  match o with Some m => Nat.ltb n m | None => false end.
Definition ge_opt (n : nat) (o : option nat) : bool :=
  match o with Some m => Nat.leb m n | None => false end.

(** The [onDone] closure of [renderExercise] (lines 305-323) over [ex]. *)
Definition on_done (ex : exercise) : EM app unit :=
  beep 180 1200;; beep 200 900;;
  a ← em_get;
  em_when (bool_decide (ex_mode ex = HoldReps) && holdLoopActive (st a))
    (let n := S (repsDone (st a)) in
     em_modify (upd_st (set_repsDone n));;
     em_modify (upd_view (set_repCount (count_text n)));;
     if lt_opt n (reps (ex_targets ex))
     then set_timeout (CbRestart (holdSec (ex_targets ex))) 400%N
     else em_modify (upd_st (set_holdLoopActive false)));;
  a ← em_get;
  em_when (bool_decide (ex_mode ex = HoldSets) && holdLoopActive (st a))
    (let n := S (setsDone (st a)) in
     em_modify (upd_st (set_setsDone n));;
     em_modify (upd_view (set_setCount (count_text n)));;
     if lt_opt n (sets (ex_targets ex))
     then set_timeout (CbRestart (holdSec (ex_targets ex))) 600%N
     else em_modify (upd_st (set_holdLoopActive false))).

(** The application is the host of its countdown timers. *)
#[export] Instance app_timer_host : TimerHost app exercise := {
  timer_get r a := timers a !! r;
  timer_set r t a := upd_timers (fun l => <[r := t]> l) a;
  host_set_interval r := fun a =>
    let (h, q) := Browser.add_interval (CbTick r) 100%N (queue a) in (Some h, upd_queue (fun _ => q) a);
  host_clear_interval h := em_modify (upd_queue (Browser.clear h));
  host_on_tick _ x := updateTimerDisplay x;
  host_on_done ex := on_done ex
}.

Lemma frames_app_modify (f : app -> app) :
  (forall a, timers (f a) = timers a) -> frames (em_modify f).
Proof. intros Hf. apply frames_modify. intros s r. simpl. now rewrite Hf. Qed.

Lemma frames_set_timeout cb ms : frames (set_timeout cb ms).
Proof. intros a. eexists tt, _. split; [reflexivity | now intros r]. Qed.

#[export] Hint Resolve frames_set_timeout : frames.
#[export] Hint Extern 1 (frames (em_modify _)) => apply frames_app_modify; reflexivity : frames.
#[export] Hint Extern 1 (frames (updateTimerDisplay _)) => apply frames_app_modify; reflexivity : frames.

Lemma frames_beep d f : frames (beep d f).
Proof. unfold beep. frames_solve. Qed.

#[export] Hint Resolve frames_beep : frames.

Lemma frames_on_done ex : frames (on_done ex).
Proof. unfold on_done. frames_solve. Qed.

#[export] Instance app_timer_host_laws : TimerHostLaws app exercise.
Proof.
  constructor.
  - intros r t t0 a E. simpl in *. apply list_lookup_insert_eq. eapply lookup_lt_Some; eauto.
  - intros r r' t a Hne. simpl. now apply list_lookup_insert_ne.
  - intros r a. simpl. destruct (Browser.add_interval (CbTick r) 100%N (queue a)).
    eexists _, _. split; [reflexivity|now intros].
  - intros h. apply frames_app_modify. reflexivity.
  - intros c x. apply frames_app_modify. reflexivity.
  - intros c. apply frames_on_done.
Qed.

(** ** The handlers *)

(** [routine[state.currentIndex]]; reading a property of [undefined] throws. *)
Definition current_ex : EM app exercise :=
  fun a => match routine_at (currentIndex (st a)) with
           | Some ex => (Some ex, a)
           | None => (None, a)
           end.

(** [state.timer]; using [null] throws. *)
Definition the_timer : EM app nat :=
  fun a => match cur_timer (st a) with Some r => (Some r, a) | None => (None, a) end.

(** [saveProgress()] (lines 245-250). *)
Definition saveProgress : EM app unit :=
  em_modify (fun a => upd_ls_progress
    (Some (SJson (encode_progress (completed (st a)) (currentIndex (st a))))) a).

(** [loadProgress()] (lines 238-244). *)
Definition loadProgress : EM app unit :=
  em_modify (fun a =>
    let (c, i) := load_progress (ls_progress a) (completed (st a)) (currentIndex (st a)) in
    upd_st (fun s => set_currentIndex i (set_completed c s)) a).

(** [applyTheme()] (lines 385-388). *)
Definition applyTheme : EM app unit :=
  em_modify (fun a => upd_view (set_bodyLight (String.eqb (theme (st a)) "light")) a).

(** The items [renderStepList()] builds (lines 224-234): [idx ===
    state.currentIndex] is the equality of numbers ([+0] equals [-0], NaN
    nothing), the check mark replaces the number [idx + 1] of a completed
    step.  The [onclick] of item [idx] is the event [Select idx]. *)
Definition render_steps (s : session) : list step_item :=
  imap (fun idx step =>
          let done_ := jsset_has same_value_zero (completed s) (VStr (ex_id step)) in
          mk_step_item
            ("step" ++ (if PrimFloat.eqb (js_of_nat idx) (currentIndex s) then " active" else "")
                    ++ (if done_ then " complete" else ""))
            (if done_ then "✓" else count_text (S idx))
            (title step) (category step)) routine.

(** [renderStepList()] (lines 222-235): the list is emptied and refilled. *)
Definition renderStepList : EM app unit :=
  em_modify (fun a => upd_view (set_stepList (render_steps (st a))) a).

(** [cleanupTimers()] (lines 263-267). *)
Definition cleanupTimers : EM app unit :=
  em_modify (upd_st (set_holdLoopActive false));;
  a ← em_get;
  match cur_timer (st a) with Some r => pause r | None => mret tt end;;
  em_modify (upd_view (set_timerDisplay "00:00")).

(** A number of the catalog in a template literal: [String(n)], and
    ["undefined"] for a missing field. *)
Definition js_num_text (o : option nat) : string :=
  match o with Some n => count_text n | None => "undefined" end.

(** [fmt(ex.targets.durationSec)]: [fmt(undefined)] computes on NaN. *)
Definition fmt_opt (o : option nat) : string :=
  fmt (match js_opt o with Some x => x | None => PrimFloat.nan end).

(** The panel texts of lines 272-297.  [ex.note || ''] and
    [ex.caution || ''] are the strings themselves (both are strings, and
    [''] is replaced by [''] ). *)
Definition render_panel (ex : exercise) : panel :=
  let t := ex_targets ex in
  let p := mk_panel (category ex) (title ex) (note ex) (instructions ex) "" "" "" (caution ex) in
  match ex_mode ex with
  | Timer => mk_panel (p_category p) (p_title p) (p_note p) (p_instructions p)
               ("Duration: " ++ fmt_opt (durationSec t)) "" "" (p_caution p)
  | HoldReps => mk_panel (p_category p) (p_title p) (p_note p) (p_instructions p) ""
               ("Reps: " ++ js_num_text (reps t) ++ " (hold " ++ js_num_text (holdSec t) ++ "s each)")
               "" (p_caution p)
  | HoldSets => mk_panel (p_category p) (p_title p) (p_note p) (p_instructions p) "" ""
               ("Sets: " ++ js_num_text (sets t) ++ " × hold " ++ js_num_text (holdSec t) ++ "s")
               (p_caution p)
  | RepsSets => mk_panel (p_category p) (p_title p) (p_note p) (p_instructions p) "" ""
               ("Sets × Reps: " ++ js_num_text (sets t) ++ " × " ++ js_num_text (reps t))
               (p_caution p)
  end.

(** [state.timer = new CountdownTimer(updateTimerDisplay, <onDone over ex>)]:
    a fresh object appended to the store. *)
Definition new_timer (ex : exercise) : EM app unit :=
  em_modify (fun a =>
    upd_st (set_cur_timer (Some (List.length (timers a))))
      (upd_timers (fun l => (l ++ [mk_timer None 0%float ex])%list) a)).

(** [renderExercise()] (lines 270-325).  Once [ex] is read nothing in the
    panel writes can throw, so they are one update of the view. *)
Definition renderExercise : EM app unit :=
  ex ← current_ex;
  em_modify (upd_view (set_exercisePanel (render_panel ex)));;
  em_modify (upd_st (set_repsDone 0));;
  em_modify (upd_st (set_setsDone 0));;
  em_modify (upd_view (set_repCount "0"));;
  em_modify (upd_view (set_setCount "0"));;
  new_timer ex;;
  updateTimerDisplay 0%float.

(** [selectIndex(idx)] (lines 253-261). *)
Definition selectIndex (idx : float) : EM app unit :=
  cleanupTimers;;
  em_modify (upd_st (set_currentIndex idx));;
  em_modify (upd_st (set_repsDone 0));;
  em_modify (upd_st (set_setsDone 0));;
  renderExercise;;
  renderStepList;;
  saveProgress.

(** [els.btnStart.onclick] (lines 332-353). *)
Definition btnStart : EM app unit :=
  ex ← current_ex;
  match ex_mode ex with
  | Timer =>
      r ← the_timer;
      t ← load r;
      let secs := if (0 <? remaining t)%float then Some (remaining t)
                  else js_opt (durationSec (ex_targets ex)) in
      start r secs
  | HoldReps =>
      a ← em_get;
      em_when (negb (holdLoopActive (st a)))
        (em_modify (upd_st (set_holdLoopActive true));;
         a ← em_get;
         em_when (ge_opt (repsDone (st a)) (reps (ex_targets ex)))
           (em_modify (upd_st (set_repsDone 0));; em_modify (upd_view (set_repCount "0")));;
         r ← the_timer;
         start r (js_opt (holdSec (ex_targets ex))))
  | HoldSets =>
      a ← em_get;
      em_when (negb (holdLoopActive (st a)))
        (em_modify (upd_st (set_holdLoopActive true));;
         a ← em_get;
         em_when (ge_opt (setsDone (st a)) (sets (ex_targets ex)))
           (em_modify (upd_st (set_setsDone 0));; em_modify (upd_view (set_setCount "0")));;
         r ← the_timer;
         start r (js_opt (holdSec (ex_targets ex))))
  | RepsSets => beep 100 700
  end.

(** [els.btnPause.onclick] and [els.btnReset.onclick] (lines 355-356). *)
Definition btnPause : EM app unit :=
  a ← em_get;
  match cur_timer (st a) with Some r => pause r | None => mret tt end;;
  em_modify (upd_st (set_holdLoopActive false)).

Definition btnReset : EM app unit :=
  a ← em_get;
  match cur_timer (st a) with Some r => reset r | None => mret tt end;;
  em_modify (upd_st (set_holdLoopActive false)).

(** The counter buttons (lines 358-361): [Math.max(0, n - 1)] is the
    truncated subtraction on the non-negative integer counters. *)
Definition repInc : EM app unit :=
  a ← em_get; let n := S (repsDone (st a)) in
  em_modify (upd_st (set_repsDone n));; em_modify (upd_view (set_repCount (count_text n))).
Definition repDec : EM app unit :=
  a ← em_get; let n := repsDone (st a) - 1 in
  em_modify (upd_st (set_repsDone n));; em_modify (upd_view (set_repCount (count_text n))).
Definition setInc : EM app unit :=
  a ← em_get; let n := S (setsDone (st a)) in
  em_modify (upd_st (set_setsDone n));; em_modify (upd_view (set_setCount (count_text n))).
Definition setDec : EM app unit :=
  a ← em_get; let n := setsDone (st a) - 1 in
  em_modify (upd_st (set_setsDone n));; em_modify (upd_view (set_setCount (count_text n))).

(** [routine.length - 1] as a number. *)
Definition last_js : float := js_of_nat (List.length routine - 1).

(** [els.prev.onclick] and [els.next.onclick] (lines 363-364). *)
Definition prevStep : EM app unit :=
  a ← em_get;
  em_when (0 <? currentIndex (st a))%float (selectIndex (currentIndex (st a) - 1)%float).
Definition nextStep : EM app unit :=
  a ← em_get;
  em_when (currentIndex (st a) <? last_js)%float (selectIndex (currentIndex (st a) + 1)%float).

(** [els.complete.onclick] (lines 365-372). *)
Definition completeStep : EM app unit :=
  ex ← current_ex;
  em_modify (upd_st (fun s => set_completed
    (jsset_add same_value_zero (VStr (ex_id ex)) (completed s)) s));;
  beep 100 1200;; beep 100 900;;
  renderStepList;;
  saveProgress;;
  a ← em_get;
  em_when (currentIndex (st a) <? last_js)%float (selectIndex (currentIndex (st a) + 1)%float).

(** [els.resetProgress.onclick] (lines 374-382); [confirmed] is the
    answer to [confirm('Reset all progress?')]. *)
Definition resetProgress (confirmed : bool) : EM app unit :=
  em_when confirmed
    (em_modify (upd_st (set_completed []));;
     em_modify (upd_st (set_currentIndex 0%float));;
     saveProgress;;
     renderStepList;;
     renderExercise).

(** [els.toggleTheme.onclick] (lines 389-393). *)
Definition toggleTheme : EM app unit :=
  a ← em_get;
  let t := if String.eqb (theme (st a)) "light" then "dark" else "light" in
  em_modify (upd_st (set_theme t));;
  em_modify (upd_ls_theme (Some t));;
  applyTheme.

(** The script's start: the [state] literal (theme from storage, ['dark']
    when missing or empty) and [init()] (lines 396-401). *)
Definition initial_theme (v : option string) : string :=
  match v with Some t => if String.eqb t "" then "dark" else t | None => "dark" end.

(** The page before the script runs: the static markup is not part of the
    source, its texts are taken empty. *)
Definition empty_panel : panel := mk_panel "" "" "" [] "" "" "" "".

Definition boot (progress : option stored) (theme_item : option string) : app :=
  mk_app (mk_session 0%float [] 0 0 None false (initial_theme theme_item))
         [] Browser.empty_queue (mk_dom "" "" "" false empty_panel []) progress theme_item [] [].

Definition init : EM app unit :=
  loadProgress;; applyTheme;; renderStepList;; renderExercise.

(** ** The event loop *)

Inductive user_event :=
| Select (idx : nat)     (** a click on item [idx] of the step list (if there is one) *)
| Start | Pause | Reset | RepInc | RepDec | SetInc | SetDec
| Prev | Next | Complete | ResetAll (confirmed : bool) | ToggleTheme.

#[export] Instance user_event_eq_dec : EqDecision user_event.
Proof. solve_decision. Defined.

Definition dispatch (e : user_event) : EM app unit :=
  match e with
  | Select i => em_when (Nat.ltb i (List.length routine)) (selectIndex (js_of_nat i))
  | Start => btnStart | Pause => btnPause | Reset => btnReset
  | RepInc => repInc | RepDec => repDec | SetInc => setInc | SetDec => setDec
  | Prev => prevStep | Next => nextStep | Complete => completeStep
  | ResetAll b => resetProgress b | ToggleTheme => toggleTheme
  end.

(** A queued callback. *)
Definition run_callback (cb : callback) : EM app unit :=
  match cb with
  | CbTick r => tick r
  | CbRestart hs => r ← the_timer; start r (js_opt hs)
  | CbStopTone k => stop_tone k
  end.

(** Run the next task due by [limit]; a thrown exception ends the task. *)
Definition fire (limit : N) (a : app) : option app :=
  match Browser.pop limit (queue a) with
  | Some (cb, q) => Some (em_exec (run_callback cb) (upd_queue (fun _ => q) a))
  | None => None
  end.

Definition set_now (t : N) (q : Browser.queue callback) : Browser.queue callback :=
  Browser.mk_queue t (Browser.next_handle q) (Browser.tasks q).

(** Let time pass until [limit], running the due tasks in order. *)
Fixpoint advance (fuel : nat) (limit : N) (a : app) : app :=
  match fuel with
  | O => a
  | S f => match fire limit a with
           | Some a' => advance f limit a'
           | None => upd_queue (set_now limit) a
           end
  end.

Inductive event := User (e : user_event) | Wait (ms : N).

(** The turns of the loop allowed for [ms] milliseconds: each task
    queued before or during the wait fires at most once per 100 ms.  The
    runs below are checked to end with nothing due before the limit. *)
Definition wait_fuel (a : app) (ms : N) : nat :=
  N.to_nat ((ms / 100 + 1) * (N.of_nat (List.length (Browser.tasks (queue a))) + 2)).

Definition step_event (a : app) (e : event) : app :=
  match e with
  | User u => em_exec (dispatch u) a
  | Wait ms => advance (wait_fuel a ms) (Browser.now (queue a) + ms)%N a
  end.

Definition run (a : app) (es : list event) : app := fold_left step_event es a.

End App.
