(* ===== verification/AppFacts.v ===== *)
(** * Functional behaviour of the handlers

    What each handler of script.js does to the session state, the timers
    and the queue, for every state in which [state.timer] is [null] or
    refers to a timer of the store ([timer_ok]).  The countdown methods
    are first given as equations on the application's state (the host
    instance of Countdown.v made concrete), then the handlers are stated
    on top of them. *)

From stdpp Require Import base list strings.
From Stdlib Require Import Ascii String NArith ZArith Floats Uint63 Lia.
From S2P Require Import Prelude Catalog Format Countdown Browser Persist App.

Import Catalog Format Countdown Persist App.

Module AppFacts.

(** [state.timer] is [null] or a timer of the store. *)
Definition timer_ok (a : app) : Prop :=
  match cur_timer (st a) with Some r => is_Some (timers a !! r) | None => True end.

(** ** The countdown methods on the application's state *)

Lemma app_load {A} r a t (k : timer exercise -> EM app A) :
  timers a !! r = Some t -> em_bind (load r) k a = k t a.
Proof. intros E. unfold em_bind, load. simpl. now rewrite E. Qed.

Lemma app_pause r a t : timers a !! r = Some t ->
  pause r a = (Some tt, match interval t with
                        | Some h => upd_timers (fun l => <[r := set_interval_field None t]> l)
                                      (upd_queue (Browser.clear h) a)
                        | None => a
                        end).
Proof.
  intros E. unfold pause. em_norm. rewrite (app_load r a t) by exact E.
  destruct (interval t) as [h|]; [|reflexivity].
  unfold em_bind at 1. simpl. rewrite (app_load r _ t) by exact E. reflexivity.
Qed.

(** [start(seconds)] on the application: the timer's old interval (if
    any) leaves the queue, a fresh 100 ms interval is queued, the timer
    holds its handle and the new [remaining], and the display shows it. *)
Lemma app_start r secs a t :
  timers a !! r = Some t ->
  let x := match secs with Some x => x | None => remaining t end in
  let q0 := match interval t with Some h => Browser.clear h (queue a) | None => queue a end in
  start r secs a =
    (Some tt, mk_app (st a)
                (<[r := mk_timer (Some (Browser.next_handle q0)) x (callbacks t)]> (timers a))
                (snd (Browser.add_interval (CbTick r) 100%N q0))
                (set_timerDisplay (fmt x) (view a)) (ls_progress a) (ls_theme a) (beeps a) (sounding a)).
Proof.
  intros Et x q0. assert (Hr : r < List.length (timers a)) by (eapply lookup_lt_Some; eauto).
  unfold start, clear_own, load, store, updateTimerDisplay. em_run. rewrite Et.
  destruct (interval t) as [h|] eqn:Eh; simpl; rewrite Et;
    repeat (rewrite list_lookup_insert_eq by (rewrite ?length_insert; exact Hr); simpl);
    unfold upd_timers, upd_queue, upd_view; simpl;
    rewrite ?list_insert_insert_eq; subst x q0; rewrite ?Eh; destruct secs; reflexivity.
Qed.

(** The state after [cleanupTimers()]: loop off, the current countdown
    paused, the display reset. *)
Lemma cleanupTimers_spec a :
  timer_ok a ->
  exists a', cleanupTimers a = (Some tt, a') /\
    st a' = set_holdLoopActive false (st a) /\
    timerDisplay (view a') = "00:00"%string /\
    repCount (view a') = repCount (view a) /\ setCount (view a') = setCount (view a) /\
    ls_progress a' = ls_progress a /\
    List.length (timers a') = List.length (timers a) /\
    (forall r', cur_timer (st a) <> Some r' -> timers a' !! r' = timers a !! r') /\
    (forall r t, cur_timer (st a) = Some r -> timers a !! r = Some t ->
       timers a' !! r = Some (set_interval_field None t) /\
       queue a' = match interval t with Some h => Browser.clear h (queue a) | None => queue a end).
Proof.
  unfold timer_ok, cleanupTimers. intros Hok. em_norm.
  unfold em_bind at 1, em_modify. simpl. unfold em_bind at 1, em_get.
  destruct (cur_timer (st a)) as [r|] eqn:Er.
  - destruct Hok as [t Et]. cbn [upd_st st set_holdLoopActive cur_timer]. rewrite Er.
    erewrite em_bind_some by (apply app_pause; exact Et). cbn beta.
    eexists. split; [reflexivity|].
    destruct (interval t) as [h|] eqn:Eh; simpl; rewrite ?Er;
      (split; [reflexivity|]); (split; [reflexivity|]); (split; [reflexivity|]);
      (split; [reflexivity|]); (split; [reflexivity|]).
    + split; [now rewrite length_insert|]. split.
      * intros r' Hr'. apply list_lookup_insert_ne. congruence.
      * intros r0 t0 [= <-] E0. rewrite Et in E0. injection E0 as <-.
        split; [|now rewrite Eh]. apply list_lookup_insert_eq. eapply lookup_lt_Some; eauto.
    + split; [reflexivity|]. split; [reflexivity|].
      intros r0 t0 [= <-] E0. rewrite Et in E0. injection E0 as <-. rewrite Eh.
      split; [|reflexivity]. destruct t as [i x c]; simpl in *; subst. exact Et.
  - cbn [upd_st st set_holdLoopActive cur_timer]. rewrite Er. simpl.
    eexists. split; [reflexivity|]. simpl.
    repeat (split; [reflexivity|]). intros r t Hr. discriminate.
Qed.

(** [renderExercise()] on an index naming [ex]: the panel shows [ex],
    counters and their text reset, a fresh countdown over [ex] becomes [state.timer], the display
    shows [fmt(0)]. *)
Lemma renderExercise_eq a ex :
  routine_at (currentIndex (st a)) = Some ex ->
  renderExercise a =
    (Some tt, mk_app (set_cur_timer (Some (List.length (timers a)))
                        (set_setsDone 0 (set_repsDone 0 (st a))))
                     ((timers a ++ [mk_timer None 0%float ex])%list) (queue a)
                     (set_timerDisplay (fmt 0%float) (set_setCount "0" (set_repCount "0"
                        (set_exercisePanel (render_panel ex) (view a)))))
                     (ls_progress a) (ls_theme a) (beeps a) (sounding a)).
Proof. intros E. unfold renderExercise, current_ex. em_norm. unfold em_bind at 1. now rewrite E. Qed.

(** [routine[state.currentIndex]] is [undefined]: [ex.category] throws
    before anything is written. *)
Lemma renderExercise_none a :
  routine_at (currentIndex (st a)) = None -> renderExercise a = (None, a).
Proof. intros E. unfold renderExercise, current_ex. em_norm. unfold em_bind at 1. now rewrite E. Qed.

(** The state [selectIndex(n)] leaves once [cleanupTimers()] has left
    [a1]. *)
Definition selected (a1 : app) (idx : float) (ex : exercise) : app :=
  let s1 := set_setsDone 0 (set_repsDone 0 (set_currentIndex idx (st a1))) in
  let s2 := set_cur_timer (Some (List.length (timers a1))) (set_setsDone 0 (set_repsDone 0 s1)) in
  mk_app s2 ((timers a1 ++ [mk_timer None 0%float ex])%list) (queue a1)
         (set_stepList (render_steps s2) (set_timerDisplay (fmt 0%float) (set_setCount "0"
            (set_repCount "0" (set_exercisePanel (render_panel ex) (view a1))))))
         (Some (SJson (encode_progress (completed (st a1)) idx)))
         (ls_theme a1) (beeps a1) (sounding a1).

Lemma selectIndex_eq a a1 idx ex :
  cleanupTimers a = (Some tt, a1) -> routine_at idx = Some ex ->
  selectIndex idx a = (Some tt, selected a1 idx ex).
Proof.
  intros E1 En.
  unfold selectIndex. em_norm. rewrite (em_bind_some _ _ _ _ _ E1).
  unfold em_bind at 1, em_modify. cbv beta iota.
  unfold em_bind at 1. cbv beta iota. unfold em_bind at 1. cbv beta iota.
  erewrite em_bind_some
    by (apply renderExercise_eq; cbn [upd_st st set_setsDone set_repsDone set_currentIndex currentIndex];
        exact En).
  reflexivity.
Qed.

(** C1: selecting exercise [n] (a step-list click, Prev or Next)
    pauses the countdown that was current and drops its interval from the
    queue, turns the hold loop off, makes [n] current with both counters
    at 0, gives it a fresh stopped countdown over its exercise with the
    display at 00:00, and saves the progress with index [n]. *)
Theorem selectIndex_spec a n ex :
  timer_ok a -> routine !! n = Some ex ->
  exists a', selectIndex (js_of_nat n) a = (Some tt, a') /\
    currentIndex (st a') = js_of_nat n /\ completed (st a') = completed (st a) /\
    repsDone (st a') = 0 /\ setsDone (st a') = 0 /\ holdLoopActive (st a') = false /\
    cur_timer (st a') = Some (List.length (timers a)) /\
    timers a' !! List.length (timers a) = Some (mk_timer None 0%float ex) /\
    timerDisplay (view a') = "00:00"%string /\
    (forall r t, cur_timer (st a) = Some r -> timers a !! r = Some t ->
       timers a' !! r = Some (set_interval_field None t) /\
       forall h, interval t = Some h -> Forall (fun u => Browser.handle u <> h) (Browser.tasks (queue a'))) /\
    ls_progress a' = Some (SJson (encode_progress (completed (st a)) (js_of_nat n))).
Proof.
  intros Hok En.
  destruct (cleanupTimers_spec a Hok) as (a1 & E1 & S1 & D1 & _ & _ & _ & L1 & O1 & C1).
  assert (Hn : n < List.length routine) by (eapply lookup_lt_Some; eauto).
  rewrite (selectIndex_eq a a1 (js_of_nat n) ex E1) by (rewrite routine_at_nat by exact Hn; exact En). eexists. split; [reflexivity|]. cbn.
  rewrite S1. cbn. rewrite L1.
  do 6 (split; [reflexivity|]).
  split; [rewrite lookup_app_r by lia; rewrite L1, Nat.sub_diag; reflexivity|].
  split; [reflexivity|]. split; [|reflexivity].
  intros r t Er Et. destruct (C1 r t Er Et) as [T1 Q1].
  split; [rewrite lookup_app_l; [exact T1|]; rewrite L1; eapply lookup_lt_Some; eauto|].
  intros h Eh. rewrite Q1, Eh. apply Browser.clear_removes.
Qed.

(** ** The [onDone] closure: the mode state machine's completion step *)

Definition done_beeps : list (nat * nat) := [(180, 1200); (200, 900)].

(** The state after [beep(d, f)]: the call logged as beep [k], its
    oscillator sounding, and its stop queued [d] ms later. *)
Definition tone_added (d f : nat) (a : app) : app :=
  let k := List.length (beeps a) in
  upd_queue (fun q => snd (Browser.add_timeout (CbStopTone k) (N.of_nat d) q))
    (upd_sounding (fun l => (l ++ [k])%list) (upd_beeps (fun l => (l ++ [(d, f)])%list) a)).

(** The state after the beeps [l], in order. *)
Definition sound (l : list (nat * nat)) (a : app) : app :=
  fold_left (fun a df => tone_added (fst df) (snd df) a) l a.

Lemma beep_eq d f a : beep d f a = (Some tt, tone_added d f a).
Proof. reflexivity. Qed.

Lemma sound_cons df l a : sound (df :: l) a = sound l (tone_added (fst df) (snd df) a).
Proof. reflexivity. Qed.

Lemma sound_fields l a :
  st (sound l a) = st a /\ timers (sound l a) = timers a /\ view (sound l a) = view a /\
  ls_progress (sound l a) = ls_progress a /\ ls_theme (sound l a) = ls_theme a.
Proof.
  revert a. induction l as [|df l IH]; intros a; [auto|].
  rewrite sound_cons. destruct (IH (tone_added (fst df) (snd df) a)) as (-> & -> & -> & -> & ->).
  auto.
Qed.

(** The log grows by [l]; the new oscillators, numbered from the length
    of the old log, are sounding. *)
Lemma sound_beeps l a :
  beeps (sound l a) = (beeps a ++ l)%list /\
  sounding (sound l a) = (sounding a ++ seq (List.length (beeps a)) (List.length l))%list.
Proof.
  revert a. induction l as [|df l IH]; intros a; [simpl; rewrite !app_nil_r; auto|].
  rewrite sound_cons. destruct (IH (tone_added (fst df) (snd df) a)) as [-> ->]. simpl.
  rewrite length_app, <- !app_assoc. simpl. rewrite Nat.add_1_r. destruct df. auto.
Qed.

(** C2: when a hold of a [hold-reps] exercise ends while the loop
    is on, the rep counter goes up by one and is shown; if it is still
    below the target a restart with the exercise's hold is queued 400 ms
    later, otherwise the loop turns off and nothing is queued.  The two
    completion tones sound either way. *)
Theorem on_done_hold_reps ex a :
  ex_mode ex = HoldReps -> holdLoopActive (st a) = true ->
  exists a', on_done ex a = (Some tt, a') /\
    repsDone (st a') = S (repsDone (st a)) /\ setsDone (st a') = setsDone (st a) /\
    repCount (view a') = count_text (S (repsDone (st a))) /\
    beeps a' = beeps (sound done_beeps a) /\ sounding a' = sounding (sound done_beeps a) /\
    timers a' = timers a /\
    if lt_opt (S (repsDone (st a))) (reps (ex_targets ex))
    then holdLoopActive (st a') = true /\
         queue a' = snd (Browser.add_timeout (CbRestart (holdSec (ex_targets ex))) 400%N
                           (queue (sound done_beeps a)))
    else holdLoopActive (st a') = false /\ queue a' = queue (sound done_beeps a).
Proof.
  intros Hm Hl. unfold on_done, beep, set_timeout. em_run. rewrite Hm, Hl. simpl.
  destruct (lt_opt _ _); simpl; rewrite ?Hl; simpl.
  all: eexists; split; [reflexivity|]; simpl; repeat split; auto.
Qed.

(** C23: The same for a [hold-sets] exercise, with the set counter and a
    600 ms pause. *)
Theorem on_done_hold_sets ex a :
  ex_mode ex = HoldSets -> holdLoopActive (st a) = true ->
  exists a', on_done ex a = (Some tt, a') /\
    setsDone (st a') = S (setsDone (st a)) /\ repsDone (st a') = repsDone (st a) /\
    setCount (view a') = count_text (S (setsDone (st a))) /\
    beeps a' = beeps (sound done_beeps a) /\ sounding a' = sounding (sound done_beeps a) /\
    timers a' = timers a /\
    if lt_opt (S (setsDone (st a))) (sets (ex_targets ex))
    then holdLoopActive (st a') = true /\
         queue a' = snd (Browser.add_timeout (CbRestart (holdSec (ex_targets ex))) 600%N
                           (queue (sound done_beeps a)))
    else holdLoopActive (st a') = false /\ queue a' = queue (sound done_beeps a).
Proof.
  intros Hm Hl. unfold on_done, beep, set_timeout. em_run. rewrite Hm, Hl. simpl.
  destruct (lt_opt _ _); simpl; rewrite ?Hl; simpl.
  all: eexists; split; [reflexivity|]; simpl; repeat split; auto.
Qed.

(** C27: Outside a running hold loop, the end of a countdown only sounds the
    two tones. *)
Theorem on_done_idle ex a :
  holdLoopActive (st a) = false \/ ex_mode ex = Timer \/ ex_mode ex = RepsSets ->
  on_done ex a = (Some tt, sound done_beeps a).
Proof.
  intros H. unfold on_done, beep, set_timeout. em_run.
  destruct H as [H|[H|H]]; rewrite H; simpl;
    [destruct (bool_decide _), (bool_decide _)|..]; simpl; rewrite ?H; reflexivity.
Qed.

(** ** The start button on a hold exercise *)

(** The countdown of [state.timer] is running from [x]: it holds an
    interval handle [h] and the queue has that 100 ms interval. *)
Definition runs_from (a : app) (r : nat) (x : float) : Prop :=
  exists h t, timers a !! r = Some t /\ interval t = Some h /\ remaining t = x /\
    In (Browser.mk_task h (Browser.now (queue a) + 100)%N (Browser.Every 100%N (CbTick r)))
       (Browser.tasks (queue a)).

Lemma app_start_runs r secs a t :
  timers a !! r = Some t ->
  runs_from (em_exec (start r secs) a) r (match secs with Some x => x | None => remaining t end).
Proof.
  intros Et. unfold em_exec. rewrite (app_start r secs a t Et). cbv zeta.
  eexists _, _. split; [apply list_lookup_insert_eq; eapply lookup_lt_Some; eauto|].
  split; [reflexivity|]. split; [reflexivity|]. simpl.
  apply in_or_app. right. destruct (interval t); left; reflexivity.
Qed.

(** C12: Start on a [hold-reps] exercise while its loop is off turns
    the loop on, resets a rep counter that had reached the target, and
    starts [state.timer] from the exercise's hold; while the loop is on,
    Start does nothing. *)
Theorem btnStart_hold_reps a n ex r t :
  currentIndex (st a) = js_of_nat n -> routine !! n = Some ex -> ex_mode ex = HoldReps ->
  cur_timer (st a) = Some r -> timers a !! r = Some t ->
  (holdLoopActive (st a) = true -> btnStart a = (Some tt, a)) /\
  (holdLoopActive (st a) = false ->
     fst (btnStart a) = Some tt /\
     holdLoopActive (st (em_exec btnStart a)) = true /\
     repsDone (st (em_exec btnStart a)) =
       (if ge_opt (repsDone (st a)) (reps (ex_targets ex)) then 0 else repsDone (st a)) /\
     runs_from (em_exec btnStart a) r
       (match js_opt (holdSec (ex_targets ex)) with Some x => x | None => remaining t end)).
Proof.
  intros Ei En Em Er Et.
  assert (Ex : routine_at (currentIndex (st a)) = Some ex)
    by (rewrite Ei, routine_at_nat; [exact En | eapply lookup_lt_Some; eauto]).
  split.
  - intros Hl. unfold btnStart, current_ex. em_norm. unfold em_bind at 1. rewrite Ex, Em.
    unfold em_bind at 1, em_get. cbv beta iota. unfold em_when. rewrite Hl. reflexivity.
  - intros Hl.
    set (a0 := upd_st (set_holdLoopActive true) a).
    set (a1 := if ge_opt (repsDone (st a)) (reps (ex_targets ex))
               then upd_view (set_repCount "0") (upd_st (set_repsDone 0) a0) else a0).
    assert (HB : btnStart a = start r (js_opt (holdSec (ex_targets ex))) a1).
    { unfold btnStart, current_ex. em_norm. unfold em_bind at 1. rewrite Ex, Em.
      unfold em_bind at 1, em_get. cbv beta iota. unfold em_when at 1. rewrite Hl. simpl.
      unfold em_bind, em_modify, em_when, the_timer. simpl.
      unfold a1, a0. destruct (ge_opt _ _); simpl; rewrite Er; reflexivity. }
    assert (Et1 : timers a1 !! r = Some t) by (unfold a1, a0; destruct (ge_opt _ _); exact Et).
    unfold em_exec. rewrite HB, (app_start r _ a1 t Et1). simpl.
    split; [reflexivity|].
    split; [unfold a1, a0; destruct (ge_opt _ _); reflexivity|].
    split; [unfold a1, a0; destruct (ge_opt _ _); reflexivity|].
    pose proof (app_start_runs r (js_opt (holdSec (ex_targets ex))) a1 t Et1) as HR.
    unfold em_exec in HR. rewrite (app_start r _ a1 t Et1) in HR. exact HR.
Qed.

(** ** Navigation and completion *)

(** The float comparisons and steps of Prev/Next on the catalog's indices
    are exact. *)
Lemma js_index_next n :
  n < List.length routine ->
  (js_of_nat n <? last_js)%float = Nat.ltb n (List.length routine - 1) /\
  (n < List.length routine - 1 -> (js_of_nat n + 1)%float = js_of_nat (S n)).
Proof. simpl. intros Hn. do 9 (destruct n as [|n]; [split; [reflexivity | intros; try lia; reflexivity]|]). lia. Qed.

Lemma js_index_prev n :
  n < List.length routine ->
  (0 <? js_of_nat n)%float = Nat.ltb 0 n /\
  (0 < n -> (js_of_nat n - 1)%float = js_of_nat (n - 1)).
Proof. simpl. intros Hn. do 9 (destruct n as [|n]; [split; [reflexivity | intros; try lia; reflexivity]|]). lia. Qed.

(** The target of Next from [n]: [n + 1], or [n] on the last exercise;
    of Prev: [n - 1], or [0] on the first. *)
Definition next_index (n : nat) : nat := Nat.min (S n) (List.length routine - 1).
Definition prev_index (n : nat) : nat := n - 1.

(** C25: Next from exercise [n] selects [n + 1] (with everything
    [selectIndex] does) and does nothing on the last exercise: the index
    never leaves the catalog. *)
Theorem nextStep_spec a n :
  currentIndex (st a) = js_of_nat n -> n < List.length routine ->
  nextStep a = if Nat.ltb n (List.length routine - 1)
               then selectIndex (js_of_nat (next_index n)) a else (Some tt, a).
Proof.
  intros Ei Hn. destruct (js_index_next n Hn) as [Hlt Hstep].
  unfold nextStep. em_norm. unfold em_bind, em_get. cbv beta iota. unfold em_when.
  rewrite Ei, Hlt. destruct (Nat.ltb n (List.length routine - 1)) eqn:Hl; [|reflexivity].
  apply Nat.ltb_lt in Hl. unfold next_index. rewrite Nat.min_l by lia.
  rewrite Hstep by exact Hl. reflexivity.
Qed.

(** C26: Prev from exercise [n] selects [n - 1] and does nothing on the
    first exercise. *)
Theorem prevStep_spec a n :
  currentIndex (st a) = js_of_nat n -> n < List.length routine ->
  prevStep a = if Nat.ltb 0 n then selectIndex (js_of_nat (prev_index n)) a else (Some tt, a).
Proof.
  intros Ei Hn. destruct (js_index_prev n Hn) as [Hlt Hstep].
  unfold prevStep. em_norm. unfold em_bind, em_get. cbv beta iota. unfold em_when.
  rewrite Ei, Hlt. destruct (Nat.ltb 0 n) eqn:Hl; [|reflexivity].
  apply Nat.ltb_lt in Hl. unfold prev_index. rewrite Hstep by exact Hl. reflexivity.
Qed.

(** The state [els.complete.onclick] reaches before it moves to the next
    exercise: the id added, the two tones, the list redrawn, the progress
    saved. *)
Definition marked (a : app) (ex : exercise) : app :=
  let c := jsset_add same_value_zero (VStr (ex_id ex)) (completed (st a)) in
  upd_ls_progress (Some (SJson (encode_progress c (currentIndex (st a)))))
    (upd_view (set_stepList (render_steps (set_completed c (st a))))
      (sound [(100, 1200); (100, 900)] (upd_st (set_completed c) a))).

Lemma completeStep_eq a ex :
  routine_at (currentIndex (st a)) = Some ex ->
  completeStep a = em_when (currentIndex (st a) <? last_js)%float
                     (selectIndex (currentIndex (st a) + 1)%float) (marked a ex).
Proof.
  intros Ex. unfold completeStep, current_ex. em_norm. unfold em_bind at 1. rewrite Ex.
  unfold em_bind, em_modify, renderStepList, saveProgress, em_get. rewrite !beep_eq.
  unfold marked, sound. cbn [fold_left fst snd]. reflexivity.
Qed.

(** C24: marking exercise [n] complete adds its id to the
    completed set (a set: adding an id already there changes nothing),
    saves it, and moves to the next exercise except on the last one. *)
Theorem completeStep_spec a n ex :
  timer_ok a -> currentIndex (st a) = js_of_nat n -> routine !! n = Some ex ->
  let c := jsset_add same_value_zero (VStr (ex_id ex)) (completed (st a)) in
  completed (st (em_exec completeStep a)) = c /\
  currentIndex (st (em_exec completeStep a)) = js_of_nat (next_index n) /\
  ls_progress (em_exec completeStep a) = Some (SJson (encode_progress c (js_of_nat (next_index n)))).
Proof.
  intros Hok Ei En c.
  assert (Hn : n < List.length routine) by (eapply lookup_lt_Some; eauto).
  assert (Ex : routine_at (currentIndex (st a)) = Some ex) by (rewrite Ei, routine_at_nat; assumption).
  destruct (js_index_next n Hn) as [Hlt Hstep].
  set (a1 := marked a ex).
  assert (HB : completeStep a = em_when (Nat.ltb n (List.length routine - 1))
                                  (selectIndex (js_of_nat n + 1)%float) a1)
    by (rewrite (completeStep_eq a ex Ex), Ei, Hlt; reflexivity).
  assert (Hok1 : timer_ok a1) by exact Hok.
  unfold em_exec. rewrite HB. unfold next_index.
  destruct (Nat.ltb n (List.length routine - 1)) eqn:Hl; simpl em_when.
  - apply Nat.ltb_lt in Hl. rewrite Hstep by exact Hl.
    assert (En' : is_Some (routine !! S n)) by (apply lookup_lt_is_Some; lia).
    destruct En' as [ex' En'].
    destruct (cleanupTimers_spec a1 Hok1) as (a2 & E2 & S2 & _).
    rewrite (selectIndex_eq a1 a2 (js_of_nat (S n)) ex' E2) by (rewrite routine_at_nat by lia; exact En'). simpl. rewrite S2.
    unfold a1, marked. simpl in Hl |- *. rewrite Nat.min_l by lia. auto.
  - apply Nat.ltb_ge in Hl. rewrite Nat.min_r by lia.
    replace (List.length routine - 1) with n by lia. unfold a1, marked. simpl. rewrite Ei. auto.
Qed.

(** ** The statements above at concrete states of a session *)

(** The page just loaded with nothing stored; the first exercise is shown. *)
Definition page : app := em_exec init (boot None None).

(** Chin tucks selected; then started. *)
Definition page_chin : app := em_exec (selectIndex (js_of_nat 1)) page.
Definition page_chin_run : app := em_exec btnStart page_chin.
(** The levator stretch ([hold-sets]) selected and started. *)
Definition page_levator_run : app := em_exec btnStart (em_exec (selectIndex (js_of_nat 2)) page).

Lemma selectIndex_spec_witness :
  exists ex, timer_ok page /\ routine !! 1 = Some ex /\
  exists a', selectIndex (js_of_nat 1) page = (Some tt, a') /\
    currentIndex (st a') = js_of_nat 1 /\ completed (st a') = completed (st page) /\
    repsDone (st a') = 0 /\ setsDone (st a') = 0 /\ holdLoopActive (st a') = false /\
    cur_timer (st a') = Some (List.length (timers page)) /\
    timers a' !! List.length (timers page) = Some (mk_timer None 0%float ex) /\
    timerDisplay (view a') = "00:00"%string /\
    (forall r t, cur_timer (st page) = Some r -> timers page !! r = Some t ->
       timers a' !! r = Some (set_interval_field None t) /\
       forall h, interval t = Some h -> Forall (fun u => Browser.handle u <> h) (Browser.tasks (queue a'))) /\
    ls_progress a' = Some (SJson (encode_progress (completed (st page)) (js_of_nat 1))).
Proof.
  eexists. assert (Hok : timer_ok page) by (vm_compute; eexists; reflexivity).
  split; [exact Hok|]. split; [vm_compute; reflexivity|].
  apply (selectIndex_spec page 1); [exact Hok | vm_compute; reflexivity].
Defined.

Lemma on_done_hold_reps_witness :
  exists ex, routine !! 1 = Some ex /\ ex_mode ex = HoldReps /\
  holdLoopActive (st page_chin_run) = true /\
  exists a', on_done ex page_chin_run = (Some tt, a') /\
    repsDone (st a') = S (repsDone (st page_chin_run)) /\ setsDone (st a') = setsDone (st page_chin_run) /\
    repCount (view a') = count_text (S (repsDone (st page_chin_run))) /\
    beeps a' = beeps (sound done_beeps page_chin_run) /\ sounding a' = sounding (sound done_beeps page_chin_run) /\
    timers a' = timers page_chin_run /\
    if lt_opt (S (repsDone (st page_chin_run))) (reps (ex_targets ex))
    then holdLoopActive (st a') = true /\
         queue a' = snd (Browser.add_timeout (CbRestart (holdSec (ex_targets ex))) 400%N
                           (queue (sound done_beeps page_chin_run)))
    else holdLoopActive (st a') = false /\ queue a' = queue (sound done_beeps page_chin_run).
Proof.
  eexists. split; [vm_compute; reflexivity|]. split; [vm_compute; reflexivity|].
  split; [vm_compute; reflexivity|].
  apply on_done_hold_reps; vm_compute; reflexivity.
Defined.

Lemma on_done_hold_sets_witness :
  exists ex, routine !! 2 = Some ex /\ ex_mode ex = HoldSets /\
  holdLoopActive (st page_levator_run) = true /\
  exists a', on_done ex page_levator_run = (Some tt, a') /\
    setsDone (st a') = S (setsDone (st page_levator_run)) /\
    repsDone (st a') = repsDone (st page_levator_run) /\
    setCount (view a') = count_text (S (setsDone (st page_levator_run))) /\
    beeps a' = beeps (sound done_beeps page_levator_run) /\ sounding a' = sounding (sound done_beeps page_levator_run) /\
    timers a' = timers page_levator_run /\
    if lt_opt (S (setsDone (st page_levator_run))) (sets (ex_targets ex))
    then holdLoopActive (st a') = true /\
         queue a' = snd (Browser.add_timeout (CbRestart (holdSec (ex_targets ex))) 600%N
                           (queue (sound done_beeps page_levator_run)))
    else holdLoopActive (st a') = false /\ queue a' = queue (sound done_beeps page_levator_run).
Proof.
  eexists. split; [vm_compute; reflexivity|]. split; [vm_compute; reflexivity|].
  split; [vm_compute; reflexivity|].
  apply on_done_hold_sets; vm_compute; reflexivity.
Defined.

Lemma on_done_idle_witness :
  exists ex, routine !! 1 = Some ex /\ holdLoopActive (st page) = false /\
    on_done ex page = (Some tt, sound done_beeps page).
Proof.
  eexists. split; [vm_compute; reflexivity|]. split; [vm_compute; reflexivity|].
  apply on_done_idle. left. vm_compute. reflexivity.
Defined.

Lemma btnStart_hold_reps_witness :
  exists ex t, currentIndex (st page_chin) = js_of_nat 1 /\ routine !! 1 = Some ex /\
    ex_mode ex = HoldReps /\ cur_timer (st page_chin) = Some 1 /\ timers page_chin !! 1 = Some t /\
  (holdLoopActive (st page_chin) = true -> btnStart page_chin = (Some tt, page_chin)) /\
  (holdLoopActive (st page_chin) = false ->
     fst (btnStart page_chin) = Some tt /\
     holdLoopActive (st (em_exec btnStart page_chin)) = true /\
     repsDone (st (em_exec btnStart page_chin)) =
       (if ge_opt (repsDone (st page_chin)) (reps (ex_targets ex)) then 0 else repsDone (st page_chin)) /\
     runs_from (em_exec btnStart page_chin) 1
       (match js_opt (holdSec (ex_targets ex)) with Some x => x | None => remaining t end)).
Proof.
  do 2 eexists. split; [vm_compute; reflexivity|]. split; [vm_compute; reflexivity|].
  split; [vm_compute; reflexivity|]. split; [vm_compute; reflexivity|].
  split; [vm_compute; reflexivity|].
  apply (btnStart_hold_reps page_chin 1); vm_compute; reflexivity.
Defined.

Lemma nextStep_spec_witness :
  currentIndex (st page) = js_of_nat 0 /\ 0 < List.length routine /\
  nextStep page = if Nat.ltb 0 (List.length routine - 1)
                  then selectIndex (js_of_nat (next_index 0)) page else (Some tt, page).
Proof.
  split; [vm_compute; reflexivity|]. split; [simpl; lia|].
  apply nextStep_spec; [vm_compute; reflexivity | simpl; lia].
Defined.

Lemma prevStep_spec_witness :
  currentIndex (st page_chin) = js_of_nat 1 /\ 1 < List.length routine /\
  prevStep page_chin = if Nat.ltb 0 1 then selectIndex (js_of_nat (prev_index 1)) page_chin
                       else (Some tt, page_chin).
Proof.
  split; [vm_compute; reflexivity|]. split; [simpl; lia|].
  apply prevStep_spec; [vm_compute; reflexivity | simpl; lia].
Defined.

Lemma completeStep_spec_witness :
  exists ex, timer_ok page /\ currentIndex (st page) = js_of_nat 0 /\ routine !! 0 = Some ex /\
  let c := jsset_add same_value_zero (VStr (ex_id ex)) (completed (st page)) in
  completed (st (em_exec completeStep page)) = c /\
  currentIndex (st (em_exec completeStep page)) = js_of_nat (next_index 0) /\
  ls_progress (em_exec completeStep page) = Some (SJson (encode_progress c (js_of_nat (next_index 0)))).
Proof.
  eexists. assert (Hok : timer_ok page) by (vm_compute; eexists; reflexivity).
  split; [exact Hok|]. split; [vm_compute; reflexivity|]. split; [vm_compute; reflexivity|].
  apply completeStep_spec; [exact Hok | vm_compute; reflexivity | vm_compute; reflexivity].
Defined.

End AppFacts.
