(* ===== verification/Invariants.v ===== *)
(** * The invariant of every reachable state

    Whatever the user does and whenever the timers fire, [state.timer] is
    [null] or a reference to a [CountdownTimer] of the store, and the
    browser's queue is well formed (distinct live handles, nothing due in
    the past).  The proof composes one preservation fact per primitive
    step of the handlers: a handler that throws halfway leaves a state
    that still satisfies it.  The later invariant files build on it and
    reuse the combinators [stays] and the tactic [stays_solve]. *)

From stdpp Require Import base list strings.
From Stdlib Require Import Ascii String NArith ZArith Floats Uint63 Lia.
From S2P Require Import Prelude Catalog Format Countdown Browser Persist App.

Import Catalog Countdown Persist App.

Module Invariants.

Definition timer_ref_ok (a : app) : Prop :=
  match cur_timer (st a) with Some r => r < List.length (timers a) | None => True end.

Definition app_wf (a : app) : Prop := Browser.queue_wf (queue a) /\ timer_ref_ok a.

(** ** Computations that keep a relation to their start

    [stays R c]: whatever [c] does, also when it throws, the state it
    leaves is related by [R] to the one it started from.  For a preorder
    [R] this is closed under the monad's operations. *)

Section Stays.
Context (R : app -> app -> Prop) `{!PreOrder R}.

Definition stays {A} (c : EM app A) : Prop := forall a, R a (snd (c a)).

Lemma stays_ret {A} (x : A) : stays (em_ret x).
Proof. intros a. simpl. reflexivity. Qed.

Lemma stays_get : stays em_get.
Proof. intros a. simpl. reflexivity. Qed.

Lemma stays_bind {A B} (c : EM app A) (k : A -> EM app B) :
  stays c -> (forall x, stays (k x)) -> stays (em_bind c k).
Proof.
  intros Hc Hk a. unfold em_bind. specialize (Hc a).
  destruct (c a) as [[x|] a1]; simpl in *; [etransitivity; [exact Hc | apply Hk] | exact Hc].
Qed.

Lemma stays_mbind {A B} (c : EM app A) (k : A -> EM app B) :
  stays c -> (forall x, stays (k x)) -> stays (mbind k c).
Proof. apply stays_bind. Qed.

Lemma stays_when b (c : EM app unit) : stays c -> stays (em_when b c).
Proof. intros Hc. destruct b; [exact Hc | apply stays_ret]. Qed.

Lemma stays_if {A} (b : bool) (c1 c2 : EM app A) :
  stays c1 -> stays c2 -> stays (if b then c1 else c2).
Proof. now destruct b. Qed.
End Stays.

(** ** The invariant is kept by every step *)

Definition wf_step (a b : app) : Prop := app_wf a -> app_wf b.

#[export] Instance wf_step_preorder : PreOrder wf_step.
Proof. split; [intros a H; exact H | intros a b c H1 H2 H; exact (H2 (H1 H))]. Qed.

(** A computation whose every outcome (also a thrown exception) keeps the
    invariant. *)
Abbreviation preserves := (stays wf_step).

(** A state update that leaves the queue, the store and [state.timer]. *)
Lemma preserves_modify (f : app -> app) :
  (forall a, queue (f a) = queue a /\ timers (f a) = timers a /\ cur_timer (st (f a)) = cur_timer (st a)) ->
  preserves (em_modify f).
Proof.
  intros Hf a [Hq Ht]. destruct (Hf a) as (E1 & E2 & E3). split.
  - simpl. now rewrite E1.
  - unfold timer_ref_ok in *. simpl. now rewrite E2, E3.
Qed.

Lemma preserves_load r : preserves (load r).
Proof. intros a H. unfold load. simpl. now destruct (timers a !! r). Qed.

Lemma preserves_store r t : preserves (store r t).
Proof.
  intros a [Hq Ht]. split; [exact Hq|]. unfold timer_ref_ok in *. simpl.
  now rewrite length_insert.
Qed.

Lemma preserves_set_interval r : preserves (host_set_interval r).
Proof.
  intros a [Hq Ht]. simpl. split; [|exact Ht].
  exact (Browser.schedule_wf _ _ _ Hq).
Qed.

Lemma preserves_clear_interval h : preserves (host_clear_interval h).
Proof. intros a [Hq Ht]. split; [exact (Browser.clear_wf h _ Hq) | exact Ht]. Qed.

Lemma preserves_set_timeout cb ms : preserves (set_timeout cb ms).
Proof. intros a [Hq Ht]. split; [exact (Browser.schedule_wf _ _ _ Hq) | exact Ht]. Qed.

Create HintDb wf discriminated.
#[export] Hint Resolve stays_ret stays_get preserves_load preserves_store
  preserves_set_interval preserves_clear_interval preserves_set_timeout : wf.
#[export] Hint Extern 1 (preserves (em_modify _)) =>
  apply preserves_modify; intros; simpl; auto : wf.
#[export] Hint Extern 1 (preserves (updateTimerDisplay _)) =>
  apply preserves_modify; intros; simpl; auto : wf.

(** Split a computation into the primitives of the monad, closing each
    with [leaf]; a [match] of the handler is split by cases. *)
Ltac stays_solve leaf :=
  repeat (intros; first
    [ solve [leaf] | apply stays_mbind | apply stays_bind | apply stays_when
    | apply stays_if | apply stays_ret | apply stays_get
    | match goal with |- PreOrder _ => typeclasses eauto end
    | match goal with |- stays _ (match ?x with _ => _ end) => destruct x end ]).

Ltac wf_solve := stays_solve ltac:(auto with wf).

Lemma preserves_beep d f : preserves (beep d f).
Proof. unfold beep. wf_solve. Qed.

Lemma preserves_stop_tone k : preserves (stop_tone k).
Proof. unfold stop_tone. wf_solve. Qed.

#[export] Hint Resolve preserves_beep preserves_stop_tone : wf.

Lemma preserves_on_tick c x : preserves (host_on_tick c x).
Proof. apply preserves_modify. intros; simpl; auto. Qed.

Lemma preserves_on_done ex : preserves (host_on_done ex).
Proof. simpl. unfold on_done. wf_solve. Qed.

#[export] Hint Resolve preserves_on_tick preserves_on_done : wf.

Lemma preserves_start r secs : preserves (start r secs).
Proof. unfold start, clear_own. wf_solve. Qed.

Lemma preserves_tick r : preserves (tick r).
Proof. unfold tick. wf_solve. Qed.

Lemma preserves_pause r : preserves (pause r).
Proof. unfold pause. wf_solve. Qed.

Lemma preserves_reset r : preserves (reset r).
Proof. unfold reset. wf_solve. Qed.

Lemma preserves_current_ex : preserves current_ex.
Proof. intros a H. unfold current_ex. now destruct (routine_at _). Qed.

Lemma preserves_the_timer : preserves the_timer.
Proof. intros a H. unfold the_timer. now destruct (cur_timer _). Qed.

(** [new CountdownTimer]: the fresh object is at the end of the store. *)
Lemma preserves_new_timer ex : preserves (new_timer ex).
Proof.
  intros a [Hq Ht]. split; [exact Hq|]. unfold timer_ref_ok. simpl.
  rewrite length_app. simpl. lia.
Qed.

Lemma preserves_loadProgress : preserves loadProgress.
Proof.
  apply preserves_modify. intros a.
  destruct (load_progress _ _ _). simpl. auto.
Qed.

Lemma preserves_renderStepList : preserves renderStepList.
Proof. apply preserves_modify. intros; simpl; auto. Qed.

Lemma preserves_saveProgress : preserves saveProgress.
Proof. apply preserves_modify. intros; simpl; auto. Qed.

#[export] Hint Resolve preserves_renderStepList preserves_saveProgress preserves_start preserves_tick preserves_pause preserves_reset
  preserves_current_ex preserves_the_timer preserves_new_timer preserves_loadProgress : wf.

Lemma preserves_renderExercise : preserves renderExercise.
Proof. unfold renderExercise. wf_solve. Qed.

Lemma preserves_selectIndex i : preserves (selectIndex i).
Proof.
  unfold selectIndex, cleanupTimers, renderStepList, saveProgress. wf_solve.
Qed.

#[export] Hint Resolve preserves_renderExercise preserves_selectIndex : wf.

Lemma preserves_dispatch e : preserves (dispatch e).
Proof.
  destruct e; simpl;
    unfold btnStart, btnPause, btnReset, repInc, repDec, setInc, setDec, prevStep, nextStep,
      completeStep, resetProgress, toggleTheme, applyTheme, renderStepList, saveProgress;
    wf_solve.
Qed.

Lemma preserves_run_callback cb : preserves (run_callback cb).
Proof. destruct cb; simpl; wf_solve. Qed.

Lemma fire_wf limit a a' : app_wf a -> fire limit a = Some a' -> app_wf a'.
Proof.
  unfold fire. intros [Hq Ht] E.
  destruct (Browser.pop limit (queue a)) as [[cb q]|] eqn:Ep; [|discriminate].
  invc E. apply preserves_run_callback. split; [exact (Browser.pop_wf _ _ _ _ Hq Ep) | exact Ht].
Qed.

(** When nothing is due by [limit], the clock may move to [limit]. *)
Lemma pop_none_later limit (q : Browser.queue callback) :
  Browser.queue_wf q -> Browser.pop limit q = None -> Browser.queue_wf (set_now limit q).
Proof.
  intros (H1 & Hn & Hf) Hp. unfold Browser.pop in Hp.
  unfold set_now. split; [exact H1|]. split; [exact Hn|]. simpl.
  destruct (Browser.first_due (Browser.tasks q)) as [t|] eqn:Et.
  - destruct (N.leb (Browser.due t) limit) eqn:El; [destruct (Browser.kind t); discriminate|].
    apply N.leb_gt in El. pose proof (Browser.first_due_min _ _ Et) as Hmin.
    apply List.Forall_forall. intros u Hu.
    pose proof (proj1 (List.Forall_forall _ _) Hf u Hu) as [Hh _].
    pose proof (proj1 (List.Forall_forall _ _) Hmin u Hu). simpl in *. split; [exact Hh | lia].
  - destruct (Browser.tasks q) as [|u l]; [constructor|].
    simpl in Et. destruct (Browser.first_due l); [destruct (Browser.earlier _ _)|]; discriminate.
Qed.

Lemma advance_wf fuel limit : forall a, app_wf a -> app_wf (advance fuel limit a).
Proof.
  induction fuel as [|f IH]; intros a Ha; simpl; [exact Ha|].
  destruct (fire limit a) as [a'|] eqn:E.
  - apply IH. exact (fire_wf _ _ _ Ha E).
  - destruct Ha as [Hq Ht]. split; [|exact Ht]. simpl.
    apply pop_none_later; [exact Hq|]. unfold fire in E.
    destruct (Browser.pop limit (queue a)) as [[]|]; [discriminate | reflexivity].
Qed.

Lemma step_event_wf a e : app_wf a -> app_wf (step_event a e).
Proof.
  destruct e as [u|ms]; simpl; intros Ha.
  - exact (preserves_dispatch u a Ha).
  - now apply advance_wf.
Qed.

(** The states the program can reach: the script's start on any stored
    progress and theme, then any sequence of user events and waits. *)
Inductive reachable : app -> Prop :=
| reach_boot p t : reachable (em_exec init (boot p t))
| reach_step a e : reachable a -> reachable (step_event a e).

Lemma boot_wf p t : app_wf (boot p t).
Proof.
  split; [|exact I]. split; [simpl; lia|]. split; [constructor | constructor].
Qed.

Lemma preserves_init : preserves init.
Proof. unfold init, applyTheme, renderStepList. wf_solve. Qed.

(** In every reachable state [state.timer] is [null] or refers to a
    countdown object of the store, and the browser's timer queue has
    distinct live handles and nothing due before its clock. *)
Lemma reachable_wf a : reachable a -> app_wf a.
Proof.
  induction 1 as [p t | a e _ IH].
  - apply preserves_init, boot_wf.
  - now apply step_event_wf.
Qed.

End Invariants.
