(* ===== verification/Views.v ===== *)
(** * The page shows the state

    The step list and the exercise panel are written by [renderStepList]
    and [renderExercise] only, and the handlers call them after changing
    [state.currentIndex] or [state.completed].  This file proves that in
    every reachable state the step list is the rendering of the current
    index and completed set, and the exercise panel shows
    [routine[state.currentIndex]] whenever that is an exercise.  When the
    index names no exercise (a fraction read from storage) [renderExercise]
    throws before writing anything and the list is not redrawn; the list
    is still right, since no index that names no exercise marks an item
    active. *)

From stdpp Require Import base list strings.
From Stdlib Require Import Ascii String NArith ZArith Floats Uint63 Lia.
From S2P Require Import Prelude Catalog Format Countdown Browser Persist App AppFacts Invariants.

Import Catalog Countdown Persist App AppFacts Invariants.

Module Views.

(** The parts of the state the two renderings read and write. *)
Definition same_view (a b : app) : Prop :=
  currentIndex (st b) = currentIndex (st a) /\ completed (st b) = completed (st a) /\
  exercisePanel (view b) = exercisePanel (view a) /\ stepList (view b) = stepList (view a).

#[export] Instance same_view_preorder : PreOrder same_view.
Proof.
  split; [intros a; repeat split |].
  intros a b c (E1 & E2 & E3 & E4) (F1 & F2 & F3 & F4). repeat split; congruence.
Qed.

(** A computation that leaves the index, the completed set, the panel and
    the step list alone. *)
Abbreviation quiet := (stays same_view).

Lemma quiet_modify (f : app -> app) : (forall a, same_view a (f a)) -> quiet (em_modify f).
Proof. intros Hf a. exact (Hf a). Qed.

Lemma quiet_load r : quiet (load r).
Proof. intros a. unfold load. simpl. destruct (timers a !! r); simpl; reflexivity. Qed.

Lemma quiet_set_interval r : quiet (host_set_interval r).
Proof. intros a. simpl. destruct (Browser.add_interval (CbTick r) 100%N (queue a)). repeat split. Qed.

Lemma quiet_set_timeout cb ms : quiet (App.set_timeout cb ms).
Proof. intros a. repeat split. Qed.

Create HintDb views discriminated.
#[export] Hint Resolve quiet_load quiet_set_interval quiet_set_timeout : views.
#[export] Hint Extern 1 (quiet (em_modify _)) => apply quiet_modify; intros; repeat split : views.
#[export] Hint Extern 1 (quiet (store _ _)) => apply quiet_modify; intros; repeat split : views.
#[export] Hint Extern 1 (quiet (host_clear_interval _)) => apply quiet_modify; intros; repeat split : views.
#[export] Hint Extern 1 (quiet (host_on_tick _ _)) => apply quiet_modify; intros; repeat split : views.
#[export] Hint Extern 1 (quiet (updateTimerDisplay _)) => apply quiet_modify; intros; repeat split : views.

Ltac view_solve := stays_solve ltac:(auto with views).

Lemma quiet_beep d f : quiet (beep d f).
Proof. unfold beep. view_solve. Qed.

Lemma quiet_stop_tone k : quiet (stop_tone k).
Proof. unfold stop_tone. view_solve. Qed.

#[export] Hint Resolve quiet_beep quiet_stop_tone : views.

Lemma quiet_on_done ex : quiet (host_on_done ex).
Proof. simpl. unfold on_done. view_solve. Qed.

#[export] Hint Resolve quiet_on_done : views.

Lemma quiet_start r secs : quiet (start r secs).
Proof. unfold start, clear_own. view_solve. Qed.

Lemma quiet_tick r : quiet (tick r).
Proof. unfold tick. view_solve. Qed.

Lemma quiet_pause r : quiet (pause r).
Proof. unfold pause. view_solve. Qed.

Lemma quiet_reset r : quiet (reset r).
Proof. unfold reset. view_solve. Qed.

Lemma quiet_current_ex : quiet current_ex.
Proof. intros a. unfold current_ex. destruct (routine_at _); simpl; reflexivity. Qed.

Lemma quiet_the_timer : quiet the_timer.
Proof. intros a. unfold the_timer. destruct (cur_timer _); simpl; reflexivity. Qed.

#[export] Hint Resolve quiet_start quiet_tick quiet_pause quiet_reset quiet_current_ex
  quiet_the_timer : views.

Lemma quiet_cleanupTimers : quiet cleanupTimers.
Proof. unfold cleanupTimers. view_solve. Qed.

Lemma quiet_run_callback cb : quiet (run_callback cb).
Proof. destruct cb; simpl; view_solve. Qed.

Lemma quiet_btnStart : quiet btnStart.
Proof. unfold btnStart. view_solve. Qed.

Lemma quiet_toggleTheme : quiet toggleTheme.
Proof. unfold toggleTheme, applyTheme. view_solve. Qed.

(** ** The invariant *)

Definition view_ok (a : app) : Prop :=
  stepList (view a) = render_steps (st a) /\
  forall ex, routine_at (currentIndex (st a)) = Some ex -> exercisePanel (view a) = render_panel ex.

Lemma render_steps_congr s s' :
  currentIndex s = currentIndex s' -> completed s = completed s' -> render_steps s = render_steps s'.
Proof. intros E1 E2. unfold render_steps. now rewrite E1, E2. Qed.

(** Two indices that name no exercise render the same list. *)
Lemma render_steps_none s s' :
  index_of_js (currentIndex s) = None -> index_of_js (currentIndex s') = None ->
  completed s = completed s' -> render_steps s = render_steps s'.
Proof.
  intros E E' Ec. unfold render_steps. apply imap_ext. intros i x Hx.
  assert (Hi : i < List.length routine) by (eapply lookup_lt_Some; eauto).
  rewrite (index_of_js_none _ E i Hi), (index_of_js_none _ E' i Hi), Ec. reflexivity.
Qed.

Lemma routine_at_none i : routine_at i = None -> index_of_js i = None.
Proof.
  unfold routine_at. destruct (index_of_js i) as [n|] eqn:E; [|reflexivity].
  apply index_of_js_spec in E as [Hn _]. intros H. apply lookup_ge_None in H. lia.
Qed.

Lemma view_ok_quiet {A} (c : EM app A) a : quiet c -> view_ok a -> view_ok (snd (c a)).
Proof.
  intros Hc [Hl Hp]. destruct (Hc a) as (E1 & E2 & E3 & E4). split.
  - rewrite E4, Hl. apply render_steps_congr; congruence.
  - intros ex Ex. rewrite E3. apply Hp. congruence.
Qed.

(** [renderExercise()] once the list shows the state. *)
Lemma view_renderExercise a :
  stepList (view a) = render_steps (st a) -> view_ok (snd (renderExercise a)).
Proof.
  intros Hl. destruct (routine_at (currentIndex (st a))) as [ex|] eqn:E.
  - rewrite (renderExercise_eq a ex E). split; [exact Hl|]. simpl. congruence.
  - rewrite (renderExercise_none a E). split; [exact Hl | simpl; congruence].
Qed.

Lemma view_selectIndex_some a idx ex :
  routine_at idx = Some ex -> view_ok a -> view_ok (snd (selectIndex idx a)).
Proof.
  intros Ex Hv. destruct (cleanupTimers a) as [[[]|] a1] eqn:E1.
  - rewrite (selectIndex_eq a a1 idx ex E1 Ex). split; [reflexivity|]. simpl. congruence.
  - unfold selectIndex. em_norm. rewrite (em_bind_none _ _ _ _ E1). simpl.
    replace a1 with (snd (cleanupTimers a)) by now rewrite E1.
    exact (view_ok_quiet _ a quiet_cleanupTimers Hv).
Qed.

(** From an index that names no exercise to another: [renderExercise]
    throws, the list is not redrawn and still fits. *)
Lemma view_selectIndex_none a idx :
  routine_at idx = None -> routine_at (currentIndex (st a)) = None ->
  view_ok a -> view_ok (snd (selectIndex idx a)).
Proof.
  intros Ei Ea Hv. pose proof (view_ok_quiet _ a quiet_cleanupTimers Hv) as Hv1.
  pose proof (quiet_cleanupTimers a) as (F1 & F2 & _).
  destruct (cleanupTimers a) as [[[]|] a1] eqn:E1; simpl in *.
  - unfold selectIndex. em_norm. rewrite (em_bind_some _ _ _ _ _ E1), !em_bind_modify.
    erewrite em_bind_none by (apply renderExercise_none; exact Ei).
    split; [|simpl; congruence]. destruct Hv1 as [Hl _]. cbn [snd upd_st view st]. rewrite Hl.
    apply render_steps_none; [rewrite F1; exact (routine_at_none _ Ea) | exact (routine_at_none _ Ei) | reflexivity].
  - unfold selectIndex. em_norm. rewrite (em_bind_none _ _ _ _ E1). exact Hv1.
Qed.

(** Next and Complete from an index that names an exercise reach one. *)
Lemma next_in_range c :
  routine_at c <> None -> (c <? last_js)%float = true -> routine_at (c + 1)%float <> None.
Proof.
  intros Hc Hg. destruct (index_of_js c) as [n|] eqn:E.
  - apply index_of_js_spec in E as [Hn Hc'].
    destruct Hc' as [-> | [-> ->]]; [|vm_compute; discriminate].
    destruct (js_index_next n Hn) as [Hlt Hstep]. rewrite Hlt in Hg. apply Nat.ltb_lt in Hg.
    rewrite Hstep, routine_at_nat by lia. intros H. apply lookup_ge_None in H. lia.
  - unfold routine_at in Hc. now rewrite E in Hc.
Qed.

Lemma prev_in_range c :
  routine_at c <> None -> (0 <? c)%float = true -> routine_at (c - 1)%float <> None.
Proof.
  intros Hc Hg. destruct (index_of_js c) as [n|] eqn:E.
  - apply index_of_js_spec in E as [Hn Hc'].
    destruct Hc' as [-> | [-> ->]]; [|discriminate Hg].
    destruct (js_index_prev n Hn) as [Hlt Hstep]. rewrite Hlt in Hg. apply Nat.ltb_lt in Hg.
    rewrite Hstep, routine_at_nat by lia. intros H. apply lookup_ge_None in H. lia.
  - unfold routine_at in Hc. now rewrite E in Hc.
Qed.

(** A move of [selectIndex] that cannot leave the catalog from inside it. *)
Lemma view_move a (g : bool) idx :
  (g = true -> routine_at (currentIndex (st a)) <> None -> routine_at idx <> None) ->
  view_ok a -> view_ok (snd (em_when g (selectIndex idx) a)).
Proof.
  intros Hin Hv. destruct g; [cbn [em_when] | exact Hv].
  destruct (routine_at idx) as [ex|] eqn:E; [exact (view_selectIndex_some _ _ ex E Hv)|].
  apply view_selectIndex_none; [exact E | | exact Hv].
  destruct (routine_at (currentIndex (st a))) eqn:Ec; [|reflexivity].
  exfalso. apply (Hin eq_refl); [discriminate | reflexivity].
Qed.

Lemma view_next a :
  view_ok a -> view_ok (snd (em_when (currentIndex (st a) <? last_js)%float
                                      (selectIndex (currentIndex (st a) + 1)%float) a)).
Proof. apply view_move. intros G H. exact (next_in_range _ H G). Qed.

Lemma view_nextStep a : view_ok a -> view_ok (snd (nextStep a)).
Proof. apply view_next. Qed.

Lemma view_prevStep a : view_ok a -> view_ok (snd (prevStep a)).
Proof. apply view_move. intros G H. exact (prev_in_range _ H G). Qed.

Lemma view_completeStep a : view_ok a -> view_ok (snd (completeStep a)).
Proof.
  intros [Hl Hp]. destruct (routine_at (currentIndex (st a))) as [ex|] eqn:E.
  - rewrite (completeStep_eq a ex E). apply (view_next (marked a ex)).
    split; [reflexivity|]. intros ex' E'. apply Hp.
    change (routine_at (currentIndex (st a)) = Some ex') in E'. congruence.
  - unfold completeStep, current_ex. em_norm. unfold em_bind at 1. rewrite E.
    split; [exact Hl | simpl; congruence].
Qed.

Lemma view_resetProgress b a : view_ok a -> view_ok (snd (resetProgress b a)).
Proof.
  intros Hv. destruct b; [unfold resetProgress; cbn [em_when] | exact Hv].
  unfold saveProgress, renderStepList. em_norm. rewrite !em_bind_modify.
  apply view_renderExercise. reflexivity.
Qed.

(** The script's start leaves the page showing the state, from any state. *)
Lemma view_init a : view_ok (snd (init a)).
Proof.
  unfold init, loadProgress, applyTheme, renderStepList. em_norm. rewrite !em_bind_modify.
  apply view_renderExercise. reflexivity.
Qed.

Lemma view_dispatch e a : view_ok a -> view_ok (snd (dispatch e a)).
Proof.
  intros Hv. destruct e; cbn [dispatch].
  - destruct (Nat.ltb_spec idx (List.length routine)) as [Hi|Hi]; [cbn [em_when] | exact Hv].
    destruct (lookup_lt_is_Some_2 routine idx Hi) as [ex Ex].
    apply (view_selectIndex_some _ _ ex); [rewrite routine_at_nat by exact Hi; exact Ex | exact Hv].
  - exact (view_ok_quiet _ a quiet_btnStart Hv).
  - apply view_ok_quiet; [unfold btnPause; view_solve | exact Hv].
  - apply view_ok_quiet; [unfold btnReset; view_solve | exact Hv].
  - apply view_ok_quiet; [unfold repInc; view_solve | exact Hv].
  - apply view_ok_quiet; [unfold repDec; view_solve | exact Hv].
  - apply view_ok_quiet; [unfold setInc; view_solve | exact Hv].
  - apply view_ok_quiet; [unfold setDec; view_solve | exact Hv].
  - exact (view_prevStep a Hv).
  - exact (view_nextStep a Hv).
  - exact (view_completeStep a Hv).
  - exact (view_resetProgress confirmed a Hv).
  - exact (view_ok_quiet _ a quiet_toggleTheme Hv).
Qed.

Lemma view_advance fuel limit : forall a, view_ok a -> view_ok (advance fuel limit a).
Proof.
  induction fuel as [|f IH]; intros a Hv; simpl; [exact Hv|].
  unfold fire. destruct (Browser.pop limit (queue a)) as [[cb q]|]; [|exact Hv].
  apply IH. exact (view_ok_quiet _ (upd_queue (fun _ => q) a) (quiet_run_callback cb) Hv).
Qed.

Lemma view_step_event a e : view_ok a -> view_ok (step_event a e).
Proof. destruct e; simpl; [apply view_dispatch | apply view_advance]. Qed.

(** C5: in every reachable state the step list is the rendering of
    [state.currentIndex] and [state.completed] (which item is active,
    which are checked), and the exercise panel shows
    [routine[state.currentIndex]] whenever that names an exercise. *)
Theorem reachable_view_ok a : Invariants.reachable a -> view_ok a.
Proof.
  induction 1 as [p t | a e _ IH]; [apply view_init | now apply view_step_event].
Qed.

Lemma reachable_view_ok_witness :
  Invariants.reachable (em_exec init (boot None None)) /\ view_ok (em_exec init (boot None None)).
Proof. split; [apply Invariants.reach_boot | apply reachable_view_ok, Invariants.reach_boot]. Defined.

End Views.
