(* ===== verification/Timers.v ===== *)
(** * Countdowns and the browser's intervals

    [CountdownTimer] keeps the handle of its interval in [this.interval]
    and the browser keeps the interval itself.  This file proves that the
    two agree in every reachable state: each pending interval ticks a
    countdown whose [interval] is that handle, and each running countdown
    has its interval pending.  On top of it, the safety property of the
    hold loops and exercise switches: as long as "Reset all progress" is
    not confirmed, the only countdown that can run is [state.timer], so at
    most one interval is pending and it ticks [state.timer]; the run of
    [Scenarios.reset_all_orphans_countdown] shows that the exception is
    real. *)

From stdpp Require Import base list strings.
From Stdlib Require Import Ascii String NArith ZArith Floats Uint63 Lia.
From S2P Require Import Prelude Catalog Format Countdown Browser Persist App AppFacts Invariants.

Import Catalog Format Countdown Persist App AppFacts Invariants.

Module Timers.

(** ** The countdown methods on the application's state *)

(** An interval tick of countdown [r]: the new value is stored; at or
    below 0 the countdown is clamped to 0, its interval cleared, the
    display set to [fmt(0)] and [onDone] runs; otherwise the display shows
    the new value. *)
Lemma app_tick r a t :
  timers a !! r = Some t ->
  let rem := (remaining t - js_tenth)%float in
  tick r a =
    if (rem <=? 0)%float
    then on_done (callbacks t)
           (mk_app (st a) (<[r := mk_timer None 0%float (callbacks t)]> (timers a))
              (match interval t with Some h => Browser.clear h (queue a) | None => queue a end)
              (set_timerDisplay (fmt 0%float) (view a)) (ls_progress a) (ls_theme a) (beeps a) (sounding a))
    else (Some tt, mk_app (st a) (<[r := set_remaining rem t]> (timers a)) (queue a)
                     (set_timerDisplay (fmt rem) (view a)) (ls_progress a) (ls_theme a) (beeps a) (sounding a)).
Proof.
  intros Et. cbv zeta. assert (Hr : r < List.length (timers a)) by (eapply lookup_lt_Some; eauto).
  unfold tick, load, store, updateTimerDisplay. em_run. rewrite Et.
  repeat (rewrite list_lookup_insert_eq by (rewrite ?length_insert; exact Hr); simpl).
  destruct (remaining t - js_tenth <=? 0)%float; [|reflexivity].
  destruct t as [[h|] x c]; simpl;
    repeat (rewrite list_lookup_insert_eq by (rewrite ?length_insert; exact Hr); simpl);
    unfold upd_timers, upd_queue, upd_view; simpl; rewrite ?list_insert_insert_eq; reflexivity.
Qed.

(** ** The agreement of countdowns and intervals *)

Definition coherent (a : app) : Prop :=
  forall h cb, In (h, cb) (Browser.intervals (queue a)) <->
    exists r t, cb = CbTick r /\ timers a !! r = Some t /\ interval t = Some h.

(** A countdown updated without touching its interval. *)
Lemma coherent_update a b r t t' :
  timers a !! r = Some t -> interval t' = interval t -> coherent a ->
  timers b = <[r := t']> (timers a) -> queue b = queue a -> coherent b.
Proof.
  intros Et Ei Hc Htb Hqb h cb. assert (Hr : r < List.length (timers a)) by (eapply lookup_lt_Some; eauto).
  rewrite Hqb, (Hc h cb), Htb. split; intros (r' & t0 & -> & E0 & Eh); exists r';
    (destruct (decide (r' = r)) as [->|Hne];
     [rewrite ?list_lookup_insert_eq in * by exact Hr
     | rewrite ?list_lookup_insert_ne in * by congruence]).
  - exists t'. rewrite Et in E0. injection E0 as <-. rewrite Ei. auto.
  - exists t0. auto.
  - exists t. injection E0 as <-. rewrite <- Ei. auto.
  - exists t0. auto.
Qed.

(** A countdown stopped: its interval [h] is cleared and its field is
    [null]. *)
Lemma coherent_stop a b r t h t' :
  Browser.queue_wf (queue a) -> timers a !! r = Some t -> interval t = Some h -> interval t' = None ->
  coherent a -> timers b = <[r := t']> (timers a) -> queue b = Browser.clear h (queue a) -> coherent b.
Proof.
  intros Hq Et Eh Et' Hc Htb Hqb h' cb. assert (Hr : r < List.length (timers a)) by (eapply lookup_lt_Some; eauto).
  rewrite Hqb, Browser.in_intervals_clear, (Hc h' cb), Htb. simpl. split.
  - intros [(r' & t0 & -> & E0 & E0h) Hne]. exists r', t0. split; [reflexivity|].
    destruct (decide (r' = r)) as [->|Hrr]; [rewrite Et in E0; injection E0 as <-; congruence|].
    rewrite list_lookup_insert_ne by congruence. auto.
  - intros (r' & t0 & -> & E0 & E0h). destruct (decide (r' = r)) as [->|Hrr].
    + rewrite list_lookup_insert_eq in E0 by exact Hr. injection E0 as <-. congruence.
    + rewrite list_lookup_insert_ne in E0 by congruence. split; [eauto|]. intros ->.
      assert (CbTick r' = CbTick r) by
        (apply (Browser.intervals_unique (queue a) h); [exact Hq | apply (proj2 (Hc _ _)); eauto | apply (proj2 (Hc _ _)); eauto]).
      congruence.
Qed.

(** A stopped countdown armed with a fresh interval. *)
Lemma coherent_arm a b r t x :
  Browser.queue_wf (queue a) -> timers a !! r = Some t -> interval t = None -> coherent a ->
  timers b = <[r := mk_timer (Some (Browser.next_handle (queue a))) x (callbacks t)]> (timers a) ->
  queue b = snd (Browser.add_interval (CbTick r) 100%N (queue a)) ->
  coherent b.
Proof.
  intros Hq Et Eh Hc Htb Hqb h cb. assert (Hr : r < List.length (timers a)) by (eapply lookup_lt_Some; eauto).
  rewrite Hqb, Browser.in_intervals_add_interval, (Hc h cb), Htb. split.
  - intros [(r' & t0 & -> & E0 & E0h) | [= -> ->]].
    + exists r', t0. destruct (decide (r' = r)) as [->|Hrr]; [congruence|].
      rewrite list_lookup_insert_ne by congruence. auto.
    + exists r, (mk_timer (Some (Browser.next_handle (queue a))) x (callbacks t)).
      rewrite list_lookup_insert_eq by exact Hr. auto.
  - intros (r' & t0 & -> & E0 & E0h). destruct (decide (r' = r)) as [->|Hrr].
    + rewrite list_lookup_insert_eq in E0 by exact Hr. injection E0 as <-. simpl in E0h.
      injection E0h as <-. now right.
    + rewrite list_lookup_insert_ne in E0 by congruence. left. eauto.
Qed.

(** [new CountdownTimer(...)]: a stopped countdown no interval names. *)
Lemma coherent_new_timer a ex : coherent a -> coherent (snd (new_timer ex a)).
Proof.
  intros Hc h cb. simpl. rewrite (Hc h cb). split; intros (r' & t0 & -> & E0 & Eh); exists r', t0;
    (split; [reflexivity|]).
  - rewrite lookup_app_l by (eapply lookup_lt_Some; eauto). auto.
  - rewrite lookup_app in E0. destruct (timers a !! r') eqn:E; [injection E0 as <-; auto|].
    apply list_lookup_singleton_Some in E0 as [_ <-]. discriminate.
Qed.

(** ** Preservation by the handlers *)

Definition timers_ok (a : app) : Prop := app_wf a /\ coherent a.

Definition coh_step (a b : app) : Prop := timers_ok a -> timers_ok b.

#[export] Instance coh_step_preorder : PreOrder coh_step.
Proof. split; [intros a H; exact H | intros a b c H1 H2 H; exact (H2 (H1 H))]. Qed.

Abbreviation keeps := (stays coh_step).

(** The operations that leave the countdowns and the pending intervals. *)
Definition same_ivals (a b : app) : Prop :=
  timers b = timers a /\ forall x, In x (Browser.intervals (queue b)) <-> In x (Browser.intervals (queue a)).

#[export] Instance same_ivals_preorder : PreOrder same_ivals.
Proof.
  split; [intros a; split; [reflexivity | tauto]|].
  intros a b c [E1 F1] [E2 F2]. split; [congruence | intros x; rewrite F2, F1; tauto].
Qed.

Abbreviation idle := (stays same_ivals).

Lemma coherent_same a b : same_ivals a b -> coherent a -> coherent b.
Proof. intros [Et Ei] Hc h cb. rewrite Ei, Et. apply Hc. Qed.

Lemma keeps_idle {A} (c : EM app A) : preserves c -> idle c -> keeps c.
Proof. intros Hw Hi a [Ha Hc]. split; [exact (Hw a Ha) | exact (coherent_same _ _ (Hi a) Hc)]. Qed.

Lemma idle_modify (f : app -> app) :
  (forall a, timers (f a) = timers a /\ queue (f a) = queue a) -> idle (em_modify f).
Proof. intros Hf a. destruct (Hf a) as [E1 E2]. split; [exact E1 | intros x; simpl; rewrite E2; tauto]. Qed.

Lemma idle_set_timeout cb ms : idle (App.set_timeout cb ms).
Proof.
  intros a. split; [reflexivity|]. intros x. unfold App.set_timeout. cbn [snd queue upd_queue].
  rewrite Browser.intervals_add_timeout. tauto.
Qed.

Lemma idle_load r : idle (load r).
Proof. intros a. unfold load. simpl. destruct (timers a !! r); simpl; reflexivity. Qed.

Create HintDb ivals discriminated.
#[export] Hint Resolve idle_set_timeout idle_load : ivals.
#[export] Hint Extern 1 (idle (em_modify _)) => apply idle_modify; intros; split; reflexivity : ivals.
#[export] Hint Extern 1 (idle (updateTimerDisplay _)) => apply idle_modify; intros; split; reflexivity : ivals.
#[export] Hint Extern 1 (idle (host_on_tick _ _)) => apply idle_modify; intros; split; reflexivity : ivals.

Ltac ivals_solve := stays_solve ltac:(auto with ivals).

Lemma idle_beep d f : idle (beep d f).
Proof. unfold beep. ivals_solve. Qed.

Lemma idle_stop_tone k : idle (stop_tone k).
Proof. unfold stop_tone. ivals_solve. Qed.

#[export] Hint Resolve idle_beep idle_stop_tone : ivals.

Lemma idle_on_done ex : idle (host_on_done ex).
Proof. simpl. unfold on_done. ivals_solve. Qed.

Lemma idle_current_ex : idle current_ex.
Proof. intros a. unfold current_ex. destruct (routine_at _); simpl; reflexivity. Qed.

Lemma idle_the_timer : idle the_timer.
Proof. intros a. unfold the_timer. destruct (cur_timer _); simpl; reflexivity. Qed.

(** A method that throws at its first [load] leaves the state. *)
Lemma load_missing {A} r a (k : timer exercise -> EM app A) :
  timers a !! r = None -> em_bind (load r) k a = (None, a).
Proof. intros E. unfold em_bind, load. simpl. now rewrite E. Qed.

Lemma interval_stopped (t : timer exercise) x : interval (mk_timer None x (callbacks t)) = None.
Proof. reflexivity. Qed.

Lemma keeps_start r secs : keeps (start r secs).
Proof.
  intros a [Ha Hc]. split; [exact (preserves_start r secs a Ha)|].
  destruct (timers a !! r) as [t|] eqn:Et.
  - rewrite (app_start r secs a t Et). cbv zeta. destruct (interval t) as [h|] eqn:Eh.
    + set (t0 := set_interval_field None t).
      set (b0 := upd_timers (fun l => <[r := t0]> l) (upd_queue (Browser.clear h) a)).
      assert (Hr : r < List.length (timers a)) by (eapply lookup_lt_Some; eauto).
      assert (Hb0 : coherent b0) by
        (apply (coherent_stop a b0 r t h t0 (proj1 Ha) Et Eh); [now destruct t | exact Hc | reflexivity | reflexivity]).
      apply (coherent_arm b0 _ r t0 (match secs with Some x => x | None => remaining t end));
        [apply Browser.clear_wf, Ha | simpl; apply list_lookup_insert_eq; exact Hr
        | now destruct t | exact Hb0 | | reflexivity].
      simpl. rewrite list_insert_insert_eq. now destruct t.
    + apply (coherent_arm a _ r t (match secs with Some x => x | None => remaining t end) (proj1 Ha) Et Eh Hc);
        reflexivity.
  - unfold start, clear_own. em_norm. rewrite em_bind_assoc, (load_missing r a _ Et). exact Hc.
Qed.

Lemma keeps_pause r : keeps (pause r).
Proof.
  intros a [Ha Hc]. split; [exact (preserves_pause r a Ha)|].
  destruct (timers a !! r) as [t|] eqn:Et.
  - rewrite (app_pause r a t Et). destruct (interval t) as [h|] eqn:Eh; [|exact Hc].
    apply (coherent_stop a _ r t h (set_interval_field None t) (proj1 Ha) Et Eh);
      [now destruct t | exact Hc | reflexivity | reflexivity].
  - unfold pause. em_norm. rewrite (load_missing r a _ Et). exact Hc.
Qed.

Lemma keeps_tick r : keeps (tick r).
Proof.
  intros a [Ha Hc]. split; [exact (preserves_tick r a Ha)|].
  destruct (timers a !! r) as [t|] eqn:Et.
  - rewrite (app_tick r a t Et). cbv zeta.
    destruct (remaining t - js_tenth <=? 0)%float.
    + eapply coherent_same; [exact (idle_on_done (callbacks t) _)|].
      destruct (interval t) as [h|] eqn:Eh.
      * apply (coherent_stop a _ r t h _ (proj1 Ha) Et Eh (interval_stopped t 0) Hc); reflexivity.
      * apply (coherent_update a _ r t (mk_timer None 0%float (callbacks t)) Et);
          [now rewrite Eh | exact Hc | reflexivity | reflexivity].
    + apply (coherent_update a _ r t (set_remaining (remaining t - js_tenth)%float t) Et);
        [now destruct t | exact Hc | reflexivity | reflexivity].
  - unfold tick. em_norm. rewrite (load_missing r a _ Et). exact Hc.
Qed.

Lemma keeps_new_timer ex : keeps (new_timer ex).
Proof.
  intros a [Ha Hc]. split; [exact (preserves_new_timer ex a Ha) | exact (coherent_new_timer a ex Hc)].
Qed.

(** [t = this; ...; t.remaining = f(t)]: a store that keeps the interval. *)
Lemma keeps_load_store r (f : timer exercise -> timer exercise) (k : timer exercise -> EM app unit) :
  (forall t, interval (f t) = interval t) -> (forall t, keeps (k t)) ->
  keeps (em_bind (load r) (fun t => em_bind (store r (f t)) (fun _ => k t))).
Proof.
  intros Hf Hk a [Ha Hc]. destruct (timers a !! r) as [t|] eqn:Et.
  - rewrite (app_load r a t _ Et). unfold store. rewrite em_bind_modify. apply Hk. split.
    + exact (preserves_store r (f t) a Ha).
    + apply (coherent_update a _ r t (f t) Et (Hf t) Hc); reflexivity.
  - rewrite (load_missing r a _ Et). split; assumption.
Qed.

#[export] Hint Resolve idle_on_done idle_current_ex idle_the_timer : ivals.

Create HintDb timers discriminated.
#[export] Hint Resolve keeps_start keeps_pause keeps_tick keeps_new_timer : timers.
#[export] Hint Extern 5 (keeps _) => apply keeps_idle; [solve [wf_solve] | solve [ivals_solve]] : timers.

Ltac keeps_solve := stays_solve ltac:(auto with timers).

Lemma keeps_reset r : keeps (reset r).
Proof.
  unfold reset. em_norm. apply (stays_bind coh_step); [apply keeps_pause|]. intros _.
  apply keeps_load_store; [now intros [] | intros t; keeps_solve].
Qed.

#[export] Hint Resolve keeps_reset : timers.

Lemma keeps_renderExercise : keeps renderExercise.
Proof. unfold renderExercise. keeps_solve. Qed.

#[export] Hint Resolve keeps_renderExercise : timers.

Lemma keeps_selectIndex i : keeps (selectIndex i).
Proof. unfold selectIndex, cleanupTimers, renderStepList, saveProgress. keeps_solve. Qed.

#[export] Hint Resolve keeps_selectIndex : timers.

Lemma keeps_dispatch e : keeps (dispatch e).
Proof.
  destruct e; simpl;
    unfold btnStart, btnPause, btnReset, repInc, repDec, setInc, setDec, prevStep, nextStep,
      completeStep, resetProgress, toggleTheme, applyTheme, renderStepList, saveProgress;
    keeps_solve.
Qed.

Lemma keeps_run_callback cb : keeps (run_callback cb).
Proof. destruct cb; simpl; keeps_solve. Qed.

Lemma idle_loadProgress : idle loadProgress.
Proof. apply idle_modify. intros a. destruct (load_progress _ _ _). split; reflexivity. Qed.

#[export] Hint Resolve idle_loadProgress : ivals.

Lemma keeps_init : keeps init.
Proof. unfold init, applyTheme, renderStepList. keeps_solve. Qed.

(** ** The event loop *)

(** The state once the next task has left the queue, before its
    callback runs. *)
Lemma popped_timers_ok limit a cb q :
  timers_ok a -> Browser.pop limit (queue a) = Some (cb, q) -> timers_ok (upd_queue (fun _ => q) a).
Proof.
  intros [Ha Hc] Ep. split.
  - split; [exact (Browser.pop_wf _ _ _ _ (proj1 Ha) Ep) | exact (proj2 Ha)].
  - intros h c. simpl. rewrite (Browser.in_intervals_pop _ _ _ _ (h, c) (proj1 Ha) Ep). apply Hc.
Qed.

Lemma fire_timers_ok limit a a' : timers_ok a -> fire limit a = Some a' -> timers_ok a'.
Proof.
  intros Ha E. unfold fire in E.
  destruct (Browser.pop limit (queue a)) as [[cb q]|] eqn:Ep; [|discriminate]. invc E.
  apply keeps_run_callback. exact (popped_timers_ok _ _ _ _ Ha Ep).
Qed.

Lemma advance_timers_ok fuel limit : forall a, timers_ok a -> timers_ok (advance fuel limit a).
Proof.
  induction fuel as [|f IH]; intros a Ha; simpl; [exact Ha|].
  destruct (fire limit a) as [a'|] eqn:E; [exact (IH a' (fire_timers_ok _ _ _ Ha E))|].
  pose proof (advance_wf 1 limit a (proj1 Ha)) as Hw. simpl in Hw. rewrite E in Hw.
  split; [exact Hw | intros h c; apply (proj2 Ha)].
Qed.

Lemma step_event_timers_ok a e : timers_ok a -> timers_ok (step_event a e).
Proof.
  destruct e as [u|ms]; simpl; intros Ha; [exact (keeps_dispatch u a Ha) | now apply advance_timers_ok].
Qed.

Lemma boot_timers_ok p t : timers_ok (boot p t).
Proof. split; [apply boot_wf|]. intros h cb. simpl. split; [intros []|]. intros (r & t0 & _ & E & _). discriminate. Qed.

Lemma reachable_timers_ok a : Invariants.reachable a -> timers_ok a.
Proof.
  intros Hr. induction Hr as [p t | a e _ IH];
    [exact (keeps_init _ (boot_timers_ok p t)) | now apply step_event_timers_ok].
Qed.

(** C8: in every reachable state the countdowns and the browser agree:
    each pending interval ticks a countdown whose [interval] field holds
    that handle, and each running countdown has its interval pending. *)
Theorem reachable_coherent a : Invariants.reachable a -> coherent a.
Proof. intros Hr. exact (proj2 (reachable_timers_ok a Hr)). Qed.

Lemma reachable_coherent_witness :
  Invariants.reachable (em_exec init (boot None None)) /\ coherent (em_exec init (boot None None)).
Proof. split; [apply Invariants.reach_boot | apply reachable_coherent, Invariants.reach_boot]. Defined.

(** ** Only [state.timer] runs *)

(** [state.timer] is the only countdown whose interval is set. *)
Definition only_current (a : app) : Prop :=
  forall r t, timers a !! r = Some t -> interval t <> None -> cur_timer (st a) = Some r.

(** No countdown runs. *)
Definition none_running (a : app) : Prop :=
  forall r t, timers a !! r = Some t -> interval t = None.

Lemma none_only_current a : none_running a -> only_current a.
Proof. intros Hn r t Et Hi. exfalso. exact (Hi (Hn r t Et)). Qed.

(** [b] keeps [state.timer] of [a] and runs no countdown [a] did not. *)
Definition calm_rel (a b : app) : Prop :=
  cur_timer (st b) = cur_timer (st a) /\
  forall r t, timers b !! r = Some t -> interval t <> None ->
    exists t0, timers a !! r = Some t0 /\ interval t0 <> None.

#[export] Instance calm_rel_preorder : PreOrder calm_rel.
Proof.
  split; [intros a; split; [reflexivity | eauto]|].
  intros a b c [E1 F1] [E2 F2]. split; [congruence|].
  intros r t Et Hi. destruct (F2 r t Et Hi) as (t1 & E & H). exact (F1 r t1 E H).
Qed.

Abbreviation calm := (stays calm_rel).

Lemma calm_only_current a b : calm_rel a b -> only_current a -> only_current b.
Proof.
  intros [Ec Hr] Ho r t Et Hi. destruct (Hr r t Et Hi) as (t0 & E0 & H0). rewrite Ec. exact (Ho r t0 E0 H0).
Qed.

Lemma calm_none_running a b : calm_rel a b -> none_running a -> none_running b.
Proof.
  intros [_ Hr] Hn r t Et. destruct (interval t) eqn:Ei; [|reflexivity].
  destruct (Hr r t Et ltac:(congruence)) as (t0 & E0 & H0). exfalso. exact (H0 (Hn r t0 E0)).
Qed.

(** A store into countdown [r] that starts nothing. *)
Lemma calm_insert a b r t' :
  cur_timer (st b) = cur_timer (st a) -> timers b = <[r := t']> (timers a) ->
  (interval t' <> None -> exists t0, timers a !! r = Some t0 /\ interval t0 <> None) ->
  calm_rel a b.
Proof.
  intros Ec Et Hr. split; [exact Ec|]. intros r' t Er Hi. rewrite Et in Er.
  destruct (decide (r' = r)) as [->|Hne].
  - apply list_lookup_insert_Some in Er as [(_ & <- & _)|(Hne & _)]; [exact (Hr Hi) | congruence].
  - rewrite list_lookup_insert_ne in Er by congruence. eauto.
Qed.

Lemma calm_modify (f : app -> app) :
  (forall a, timers (f a) = timers a /\ cur_timer (st (f a)) = cur_timer (st a)) -> calm (em_modify f).
Proof. intros Hf a. destruct (Hf a) as [E1 E2]. split; [exact E2|]. simpl. rewrite E1. eauto. Qed.

Lemma calm_load r : calm (load r).
Proof. intros a. unfold load. simpl. destruct (timers a !! r); simpl; reflexivity. Qed.

Lemma calm_host_set_interval r : calm (host_set_interval r).
Proof. intros a. simpl. destruct (Browser.add_interval (CbTick r) 100%N (queue a)). simpl. split; [reflexivity | eauto]. Qed.

Create HintDb calm discriminated.
#[export] Hint Resolve calm_load : calm.
#[export] Hint Extern 1 (calm (em_modify _)) => apply calm_modify; intros; split; reflexivity : calm.
#[export] Hint Extern 1 (calm (App.set_timeout _ _)) => intros ?; split; [reflexivity | eauto] : calm.
#[export] Hint Extern 1 (calm (updateTimerDisplay _)) => apply calm_modify; intros; split; reflexivity : calm.
#[export] Hint Extern 1 (calm (host_on_tick _ _)) => apply calm_modify; intros; split; reflexivity : calm.
#[export] Hint Extern 1 (calm (host_clear_interval _)) => apply calm_modify; intros; split; reflexivity : calm.

Ltac calm_solve := stays_solve ltac:(auto with calm).

Lemma calm_beep d f : calm (beep d f).
Proof. unfold beep. calm_solve. Qed.

Lemma calm_stop_tone k : calm (stop_tone k).
Proof. unfold stop_tone. calm_solve. Qed.

#[export] Hint Resolve calm_beep calm_stop_tone : calm.

Lemma calm_on_done ex : calm (host_on_done ex).
Proof. simpl. unfold on_done. calm_solve. Qed.

Lemma calm_current_ex : calm current_ex.
Proof. intros a. unfold current_ex. destruct (routine_at _); simpl; reflexivity. Qed.

Lemma calm_the_timer : calm the_timer.
Proof. intros a. unfold the_timer. destruct (cur_timer _); simpl; reflexivity. Qed.

#[export] Hint Resolve calm_on_done calm_current_ex calm_the_timer : calm.

Lemma calm_pause r : calm (pause r).
Proof.
  intros a. destruct (timers a !! r) as [t|] eqn:Et.
  - rewrite (app_pause r a t Et). destruct (interval t); [|reflexivity].
    apply (calm_insert a _ r (set_interval_field None t)); [reflexivity | reflexivity |].
    now destruct t.
  - unfold pause. em_norm. rewrite (load_missing r a _ Et). reflexivity.
Qed.

Lemma calm_tick r : calm (tick r).
Proof.
  intros a. destruct (timers a !! r) as [t|] eqn:Et.
  - rewrite (app_tick r a t Et). cbv zeta. destruct (remaining t - js_tenth <=? 0)%float.
    + etransitivity; [|exact (calm_on_done (callbacks t) _)].
      apply (calm_insert a _ r (mk_timer None 0%float (callbacks t))); [reflexivity | reflexivity |].
      simpl. congruence.
    + apply (calm_insert a _ r (set_remaining (remaining t - js_tenth)%float t)); [reflexivity | reflexivity |].
      intros Hi. exists t. split; [exact Et | now destruct t].
  - unfold tick. em_norm. rewrite (load_missing r a _ Et). reflexivity.
Qed.

Lemma calm_reset r : calm (reset r).
Proof.
  unfold reset. em_norm. apply (stays_bind calm_rel); [apply calm_pause|]. intros _ a.
  destruct (timers a !! r) as [t|] eqn:Et.
  - rewrite (app_load r a t _ Et). unfold store. rewrite em_bind_modify.
    etransitivity; [|exact (calm_modify _ (fun _ => conj eq_refl eq_refl) _)].
    apply (calm_insert a _ r (set_remaining 0%float t)); [reflexivity | reflexivity |].
    intros Hi. exists t. split; [exact Et | now destruct t].
  - rewrite (load_missing r a _ Et). reflexivity.
Qed.

Lemma calm_loadProgress : calm loadProgress.
Proof. apply calm_modify. intros a. destruct (load_progress _ _ _). split; reflexivity. Qed.

#[export] Hint Resolve calm_pause calm_tick calm_reset calm_loadProgress : calm.

Lemma calm_cleanupTimers : calm cleanupTimers.
Proof. unfold cleanupTimers. calm_solve. Qed.

(** [new CountdownTimer(...)] replaces [state.timer] by a stopped countdown:
    it keeps "nothing runs". *)
Definition none_step (a b : app) : Prop := none_running a -> none_running b.

#[export] Instance none_step_preorder : PreOrder none_step.
Proof. split; [intros a H; exact H | intros a b c H1 H2 H; exact (H2 (H1 H))]. Qed.

Lemma none_of_calm {A} (c : EM app A) : calm c -> stays none_step c.
Proof. intros Hc a. exact (calm_none_running _ _ (Hc a)). Qed.

Lemma none_new_timer ex : stays none_step (new_timer ex).
Proof.
  intros a Hn r t Et. simpl in Et. rewrite lookup_app in Et.
  destruct (timers a !! r) eqn:E; [injection Et as <-; exact (Hn r _ E)|].
  apply list_lookup_singleton_Some in Et as [_ <-]. reflexivity.
Qed.

Ltac none_solve := stays_solve ltac:(first [apply none_new_timer | apply none_of_calm; calm_solve]).

(** After [cleanupTimers()] nothing runs, when only [state.timer] ran. *)
Lemma cleanup_none a a1 :
  timer_ok a -> only_current a -> cleanupTimers a = (Some tt, a1) -> none_running a1.
Proof.
  intros Hok Ho E1. destruct (cleanupTimers_spec a Hok) as (a' & E & _ & _ & _ & _ & _ & L & O & C).
  rewrite E1 in E. injection E as <-. intros r t Et.
  destruct (decide (cur_timer (st a) = Some r)) as [Hc|Hc].
  - destruct (timers a !! r) as [t0|] eqn:E0.
    + destruct (C r t0 Hc E0) as [T _]. rewrite T in Et. injection Et as <-. now destruct t0.
    + exfalso. apply lookup_lt_Some in Et. apply lookup_ge_None in E0. lia.
  - rewrite (O r Hc) in Et. destruct (interval t) eqn:Ei; [|reflexivity].
    exfalso. apply Hc. apply (Ho r t Et). congruence.
Qed.

Lemma wf_timer_ok a : app_wf a -> timer_ok a.
Proof.
  intros [_ Ht]. unfold timer_ok. unfold Invariants.timer_ref_ok in Ht.
  destruct (cur_timer (st a)); [now apply lookup_lt_is_Some_2 | exact I].
Qed.

Definition oc_ok (a : app) : Prop := app_wf a /\ only_current a.

Definition oc_step (a b : app) : Prop := oc_ok a -> oc_ok b.

#[export] Instance oc_step_preorder : PreOrder oc_step.
Proof. split; [intros a H; exact H | intros a b c H1 H2 H; exact (H2 (H1 H))]. Qed.

Lemma oc_of_calm {A} (c : EM app A) : preserves c -> calm c -> stays oc_step c.
Proof. intros Hw Hc a [Ha Ho]. split; [exact (Hw a Ha) | exact (calm_only_current _ _ (Hc a) Ho)]. Qed.

(** [state.timer.start(...)]: the one countdown started is [state.timer]. *)
Lemma oc_start_cur r secs a :
  cur_timer (st a) = Some r -> oc_ok a -> oc_ok (snd (start r secs a)).
Proof.
  intros Ec [Ha Ho]. split; [exact (preserves_start r secs a Ha)|].
  destruct (timers a !! r) as [t|] eqn:Et.
  - rewrite (app_start r secs a t Et). intros r' t' E' Hi. simpl in *.
    destruct (decide (r' = r)) as [->|Hne]; [exact Ec|].
    rewrite list_lookup_insert_ne in E' by congruence. exact (Ho r' t' E' Hi).
  - unfold start, clear_own. em_norm. rewrite em_bind_assoc, (load_missing r a _ Et). exact Ho.
Qed.

Lemma oc_cur_load_start r (g : timer exercise -> option float) a :
  cur_timer (st a) = Some r -> oc_ok a -> oc_ok (snd (mbind (fun t => start r (g t)) (load r) a)).
Proof.
  intros Ec Ha. em_norm. destruct (timers a !! r) as [t|] eqn:Et.
  - rewrite (app_load r a t _ Et). exact (oc_start_cur r _ a Ec Ha).
  - rewrite (load_missing r a _ Et). exact Ha.
Qed.

Lemma oc_the_timer (k : nat -> EM app unit) :
  (forall r a, cur_timer (st a) = Some r -> oc_ok a -> oc_ok (snd (k r a))) ->
  stays oc_step (mbind k the_timer).
Proof.
  intros Hk a Ha. em_norm. unfold em_bind, the_timer.
  destruct (cur_timer (st a)) as [r|] eqn:E; [exact (Hk r a E Ha) | exact Ha].
Qed.

Lemma oc_selectIndex i : stays oc_step (selectIndex i).
Proof.
  intros a [Ha Ho]. split; [exact (preserves_selectIndex i a Ha)|].
  destruct (cleanupTimers a) as [[[]|] a1] eqn:E1.
  - pose proof (cleanup_none a a1 (wf_timer_ok a Ha) Ho E1) as Hn. apply none_only_current.
    destruct (routine_at i) as [ex|] eqn:Ei.
    + rewrite (selectIndex_eq a a1 i ex E1 Ei). exact (none_new_timer ex a1 Hn).
    + unfold selectIndex. em_norm. rewrite (em_bind_some _ _ _ _ _ E1), !em_bind_modify.
      erewrite em_bind_none by (apply renderExercise_none; exact Ei). exact Hn.
  - unfold selectIndex. em_norm. rewrite (em_bind_none _ _ _ _ E1).
    pose proof (calm_cleanupTimers a) as Hc. rewrite E1 in Hc. exact (calm_only_current a a1 Hc Ho).
Qed.

Ltac oc_leaf :=
  idtac; lazymatch goal with
  | |- stays _ (selectIndex _) => apply oc_selectIndex
  | |- stays _ (mbind _ the_timer) =>
      apply oc_the_timer; intros ? ? ? ?;
      first [apply oc_start_cur | apply oc_cur_load_start]; assumption
  | |- stays _ (mbind _ _) => fail
  | |- stays _ (em_bind _ _) => fail
  | |- stays _ (em_when _ _) => fail
  | |- stays _ (match _ with _ => _ end) => fail
  | _ => apply oc_of_calm; [solve [wf_solve] | solve [calm_solve]]
  end.

Ltac oc_solve := stays_solve ltac:(oc_leaf).

(** Every user event but a confirmed "Reset all progress". *)
Definition resets_all (u : user_event) : bool :=
  match u with ResetAll true => true | _ => false end.

Lemma oc_dispatch u : resets_all u = false -> stays oc_step (dispatch u).
Proof.
  intros Hu. destruct (decide (u = ResetAll false)) as [->|Hne]; [apply (stays_ret oc_step)|].
  destruct u; try (destruct confirmed; [discriminate Hu | congruence]); cbn [dispatch];
    unfold btnStart, btnPause, btnReset, repInc, repDec, setInc, setDec, prevStep, nextStep,
      completeStep, toggleTheme, applyTheme, renderStepList, saveProgress; oc_solve.
Qed.

Lemma oc_run_callback cb : stays oc_step (run_callback cb).
Proof. destruct cb; simpl; oc_solve. Qed.

Lemma oc_init p t : oc_ok (em_exec init (boot p t)).
Proof.
  split; [exact (preserves_init _ (boot_wf p t))|]. apply none_only_current.
  assert (Hi : stays none_step init) by (unfold init, applyTheme, renderStepList, renderExercise; none_solve).
  apply Hi. intros r t0 E. discriminate.
Qed.

Lemma oc_advance fuel limit : forall a, oc_ok a -> oc_ok (advance fuel limit a).
Proof.
  induction fuel as [|f IH]; intros a [Ha Ho]; simpl; [split; assumption|].
  destruct (fire limit a) as [a'|] eqn:E.
  - apply IH. pose proof (fire_wf limit a a' Ha E) as Ha'. unfold fire in E.
    destruct (Browser.pop limit (queue a)) as [[cb q]|] eqn:Ep; [|discriminate]. invc E.
    apply oc_run_callback. split; [|exact Ho].
    split; [exact (Browser.pop_wf _ _ _ _ (proj1 Ha) Ep) | exact (proj2 Ha)].
  - pose proof (advance_wf 1 limit a Ha) as Hw. simpl in Hw. rewrite E in Hw.
    split; [exact Hw | exact Ho].
Qed.

(** The states reachable without confirming "Reset all progress". *)
Inductive reachable_nr : app -> Prop :=
| nr_boot p t : reachable_nr (em_exec init (boot p t))
| nr_user a u : reachable_nr a -> resets_all u = false -> reachable_nr (step_event a (User u))
| nr_wait a ms : reachable_nr a -> reachable_nr (step_event a (Wait ms)).

Lemma reachable_nr_reachable a : reachable_nr a -> Invariants.reachable a.
Proof. induction 1; constructor; assumption. Qed.

Lemma reachable_nr_oc a : reachable_nr a -> oc_ok a.
Proof.
  induction 1 as [p t | a u _ IH Hu | a ms _ IH]; [apply oc_init | | apply oc_advance, IH].
  exact (oc_dispatch u Hu a IH).
Qed.

(** C6: as long as "Reset all progress" is not confirmed, every pending
    interval of the browser ticks [state.timer], and at most one is
    pending: no countdown runs in the background, whatever the user
    presses and whenever the timers fire. *)
Theorem only_current_ticks a :
  reachable_nr a ->
  List.length (Browser.intervals (queue a)) <= 1 /\
  forall h cb, In (h, cb) (Browser.intervals (queue a)) -> exists r, cb = CbTick r /\ cur_timer (st a) = Some r.
Proof.
  intros Hr. pose proof (reachable_coherent a (reachable_nr_reachable a Hr)) as Hc.
  destruct (reachable_nr_oc a Hr) as [[Hq _] Ho].
  assert (Hall : forall h cb, In (h, cb) (Browser.intervals (queue a)) ->
                 exists r t, cb = CbTick r /\ cur_timer (st a) = Some r /\ timers a !! r = Some t /\
                             interval t = Some h).
  { intros h cb Hin. apply Hc in Hin as (r & t & -> & Et & Eh). exists r, t.
    split; [reflexivity|]. split; [apply (Ho r t Et); congruence | auto]. }
  split.
  - apply nodup_all_equal; [exact (Browser.intervals_nodup _ Hq)|].
    intros [h1 c1] [h2 c2] H1 H2.
    destruct (Hall h1 c1 H1) as (r1 & t1 & -> & E1 & T1 & I1).
    destruct (Hall h2 c2 H2) as (r2 & t2 & -> & E2 & T2 & I2). congruence.
  - intros h cb Hin. destruct (Hall h cb Hin) as (r & t & Ec & Er & _). eauto.
Qed.

Lemma only_current_ticks_witness :
  let a := step_event (step_event (em_exec init (boot None None)) (User (Select 1))) (User Start) in
  reachable_nr a /\ List.length (Browser.intervals (queue a)) <= 1.
Proof.
  intros a. assert (Hr : reachable_nr a) by
    (apply nr_user; [apply nr_user; [apply nr_boot | reflexivity] | reflexivity]).
  split; [exact Hr | exact (proj1 (only_current_ticks a Hr))].
Defined.

End Timers.
