(* ===== verification/Current.v ===== *)
(** * [state.timer] belongs to the current exercise

    [renderExercise] (script.js lines 270-325) builds a new
    [CountdownTimer] whose [onDone] closure captures
    [ex = routine[state.currentIndex]] and stores it in [state.timer].
    Every handler that changes [state.currentIndex] ([selectIndex], the
    confirmed "Reset all progress", the script's start) calls
    [renderExercise] after the change; every other handler and every
    timer callback leaves the index, [state.timer] and the closures of
    the countdowns alone.  This file proves that in every reachable state
    whose index names an exercise, [state.timer] is a countdown of the
    store whose closure is over that exercise: a hold that ends runs the
    [onDone] of the exercise on the screen. *)

From stdpp Require Import base list strings.
From Stdlib Require Import Ascii String NArith ZArith Floats Uint63 Lia.
From S2P Require Import Prelude Catalog Format Countdown Browser Persist App AppFacts Invariants Timers.

Import Catalog Countdown Persist App AppFacts Invariants Timers.

Module Current.

Definition timer_current (a : app) : Prop :=
  forall ex, routine_at (currentIndex (st a)) = Some ex ->
    exists r t, cur_timer (st a) = Some r /\ timers a !! r = Some t /\ callbacks t = ex.

(** The parts of the state the invariant reads: the index, [state.timer]
    and the closure of every countdown. *)
Definition same_cb (a b : app) : Prop :=
  currentIndex (st b) = currentIndex (st a) /\ cur_timer (st b) = cur_timer (st a) /\
  callbacks <$> timers b = callbacks <$> timers a.

#[export] Instance same_cb_preorder : PreOrder same_cb.
Proof.
  split; [intros a; repeat split |].
  intros a b c (E1 & E2 & E3) (F1 & F2 & F3). repeat split; congruence.
Qed.

Abbreviation steady := (stays same_cb).

Lemma timer_current_same a b : same_cb a b -> timer_current a -> timer_current b.
Proof.
  intros (E1 & E2 & E3) H ex Ex. rewrite E1 in Ex. destruct (H ex Ex) as (r & t & Er & Et & Ec).
  assert (Hl : (callbacks <$> timers b) !! r = Some ex) by (rewrite E3, list_lookup_fmap, Et; simpl; congruence).
  rewrite list_lookup_fmap in Hl. destruct (timers b !! r) as [t'|] eqn:Et'; [|discriminate].
  exists r, t'. simpl in Hl. injection Hl as Hl. rewrite E2. auto.
Qed.

(** A store into countdown [r] that keeps its closure. *)
Lemma same_cb_insert a b r t t' :
  timers a !! r = Some t -> timers b = <[r := t']> (timers a) -> callbacks t' = callbacks t ->
  currentIndex (st b) = currentIndex (st a) -> cur_timer (st b) = cur_timer (st a) -> same_cb a b.
Proof.
  intros Et Eb Ec E1 E2. split; [exact E1|]. split; [exact E2|].
  rewrite Eb, list_fmap_insert, Ec. apply list_insert_id. rewrite list_lookup_fmap, Et. reflexivity.
Qed.

Lemma steady_modify (f : app -> app) :
  (forall a, currentIndex (st (f a)) = currentIndex (st a) /\ cur_timer (st (f a)) = cur_timer (st a) /\
             timers (f a) = timers a) -> steady (em_modify f).
Proof. intros Hf a. destruct (Hf a) as (E1 & E2 & E3). split; [exact E1|]. split; [exact E2|]. simpl. now rewrite E3. Qed.

Lemma steady_load r : steady (load r).
Proof. intros a. unfold load. simpl. destruct (timers a !! r); simpl; reflexivity. Qed.

Lemma steady_set_interval r : steady (host_set_interval r).
Proof. intros a. simpl. destruct (Browser.add_interval (CbTick r) 100%N (queue a)). repeat split. Qed.

Lemma steady_set_timeout cb ms : steady (App.set_timeout cb ms).
Proof. intros a. repeat split. Qed.

Lemma steady_current_ex : steady current_ex.
Proof. intros a. unfold current_ex. destruct (routine_at _); simpl; reflexivity. Qed.

Lemma steady_the_timer : steady the_timer.
Proof. intros a. unfold the_timer. destruct (cur_timer _); simpl; reflexivity. Qed.

Create HintDb steady discriminated.
#[export] Hint Resolve steady_load steady_set_interval steady_set_timeout steady_current_ex
  steady_the_timer : steady.
#[export] Hint Extern 1 (steady (em_modify _)) => apply steady_modify; intros; repeat split : steady.
#[export] Hint Extern 1 (steady (host_clear_interval _)) => apply steady_modify; intros; repeat split : steady.
#[export] Hint Extern 1 (steady (host_on_tick _ _)) => apply steady_modify; intros; repeat split : steady.
#[export] Hint Extern 1 (steady (updateTimerDisplay _)) => apply steady_modify; intros; repeat split : steady.

Ltac steady_solve := stays_solve ltac:(auto with steady).

Lemma steady_beep d f : steady (beep d f).
Proof. unfold beep. steady_solve. Qed.

Lemma steady_stop_tone k : steady (stop_tone k).
Proof. unfold stop_tone. steady_solve. Qed.

#[export] Hint Resolve steady_beep steady_stop_tone : steady.

Lemma steady_on_done ex : steady (host_on_done ex).
Proof. simpl. unfold on_done. steady_solve. Qed.

(** The methods store a countdown built from the one they loaded. *)
Lemma steady_start r secs : steady (start r secs).
Proof.
  intros a. destruct (timers a !! r) as [t|] eqn:Et.
  - rewrite (app_start r secs a t Et). cbv zeta. eapply (same_cb_insert a _ r t); [exact Et | reflexivity | destruct t; reflexivity | reflexivity ..].
  - unfold start, clear_own. em_norm. rewrite em_bind_assoc, (load_missing r a _ Et). reflexivity.
Qed.

Lemma steady_pause r : steady (pause r).
Proof.
  intros a. destruct (timers a !! r) as [t|] eqn:Et.
  - rewrite (app_pause r a t Et). destruct (interval t); [|reflexivity].
    eapply (same_cb_insert a _ r t); [exact Et | reflexivity | destruct t; reflexivity | reflexivity ..].
  - unfold pause. em_norm. rewrite (load_missing r a _ Et). reflexivity.
Qed.

Lemma steady_tick r : steady (tick r).
Proof.
  intros a. destruct (timers a !! r) as [t|] eqn:Et.
  - rewrite (app_tick r a t Et). cbv zeta. destruct (remaining t - js_tenth <=? 0)%float.
    + etransitivity; [|exact (steady_on_done (callbacks t) _)].
      eapply (same_cb_insert a _ r t); [exact Et | reflexivity | destruct t; reflexivity | reflexivity ..].
    + eapply (same_cb_insert a _ r t); [exact Et | reflexivity | destruct t; reflexivity | reflexivity ..].
  - unfold tick. em_norm. rewrite (load_missing r a _ Et). reflexivity.
Qed.

Lemma steady_reset r : steady (reset r).
Proof.
  unfold reset. em_norm. apply (stays_bind same_cb); [apply steady_pause|]. intros _ a.
  destruct (timers a !! r) as [t|] eqn:Et.
  - rewrite (app_load r a t _ Et). unfold store. rewrite em_bind_modify.
    etransitivity; [|apply steady_modify; intros; repeat split].
    eapply (same_cb_insert a _ r t); [exact Et | reflexivity | destruct t; reflexivity | reflexivity ..].
  - rewrite (load_missing r a _ Et). reflexivity.
Qed.

#[export] Hint Resolve steady_on_done steady_start steady_pause steady_tick steady_reset : steady.

Lemma steady_cleanupTimers : steady cleanupTimers.
Proof. unfold cleanupTimers. steady_solve. Qed.

#[export] Hint Resolve steady_cleanupTimers : steady.

(** ** The invariant *)

Definition tc_step (a b : app) : Prop := timer_current a -> timer_current b.

#[export] Instance tc_step_preorder : PreOrder tc_step.
Proof. split; [intros a H; exact H | intros a b c H1 H2 H; exact (H2 (H1 H))]. Qed.

(** A computation whose every outcome keeps the invariant. *)
Abbreviation holds := (stays tc_step).

Lemma holds_of_steady {A} (c : EM app A) : steady c -> holds c.
Proof. intros Hc a. exact (timer_current_same _ _ (Hc a)). Qed.

(** [renderExercise()] establishes the invariant from any state: either
    [routine[state.currentIndex]] is an exercise and [state.timer] is the
    new countdown over it, or [ex.category] throws before anything
    changes and the index names no exercise. *)
Lemma renderExercise_establishes a : timer_current (snd (renderExercise a)).
Proof.
  destruct (routine_at (currentIndex (st a))) as [ex|] eqn:E.
  - rewrite (renderExercise_eq a ex E). intros ex' E'. cbn [snd st set_cur_timer set_setsDone set_repsDone currentIndex] in E'.
    exists (List.length (timers a)), (mk_timer None 0%float ex). simpl.
    rewrite lookup_app_r, Nat.sub_diag by lia. split; [reflexivity|]. split; [reflexivity|]. congruence.
  - rewrite (renderExercise_none a E). intros ex' E'. simpl in E'. congruence.
Qed.

Lemma bind_establishes {A B} (c : EM app A) (k : A -> EM app B) a :
  (forall a, timer_current (snd (c a))) -> (forall x, holds (k x)) -> timer_current (snd (em_bind c k a)).
Proof.
  intros Hc Hk. unfold em_bind. specialize (Hc a).
  destruct (c a) as [[x|] a1]; simpl in *; [exact (Hk x a1 Hc) | exact Hc].
Qed.

Create HintDb current discriminated.
#[export] Hint Extern 5 (holds _) => apply holds_of_steady; solve [steady_solve] : current.

Ltac holds_solve := stays_solve ltac:(auto with current).

(** [selectIndex(idx)]: the index changes, then [renderExercise()]. *)
Lemma holds_selectIndex i : holds (selectIndex i).
Proof.
  intros a Ha. destruct (cleanupTimers a) as [[[]|] a1] eqn:E1.
  - unfold selectIndex. em_norm. rewrite (em_bind_some _ _ _ _ _ E1), !em_bind_modify.
    apply bind_establishes; [exact renderExercise_establishes|].
    intros _. unfold renderStepList, saveProgress. holds_solve.
  - unfold selectIndex. em_norm. rewrite (em_bind_none _ _ _ _ E1).
    replace a1 with (snd (cleanupTimers a)) by now rewrite E1.
    exact (holds_of_steady _ steady_cleanupTimers a Ha).
Qed.

#[export] Hint Resolve holds_selectIndex : current.

(** The confirmed "Reset all progress": index 0, then [renderExercise()]. *)
Lemma holds_resetProgress b : holds (resetProgress b).
Proof.
  intros a Ha. destruct b; [unfold resetProgress; cbn [em_when] | exact Ha].
  unfold saveProgress, renderStepList. em_norm. rewrite !em_bind_modify.
  apply renderExercise_establishes.
Qed.

#[export] Hint Resolve holds_resetProgress : current.

Lemma holds_dispatch e : holds (dispatch e).
Proof.
  destruct e; simpl;
    unfold btnStart, btnPause, btnReset, repInc, repDec, setInc, setDec, prevStep, nextStep,
      completeStep, toggleTheme, applyTheme, renderStepList, saveProgress;
    holds_solve.
Qed.

Lemma holds_run_callback cb : holds (run_callback cb).
Proof. apply holds_of_steady. destruct cb; simpl; steady_solve. Qed.

Lemma current_init a : timer_current (em_exec init a).
Proof.
  unfold em_exec, init, loadProgress, applyTheme, renderStepList. em_norm. rewrite !em_bind_modify.
  apply renderExercise_establishes.
Qed.

Lemma current_advance fuel limit : forall a, timer_current a -> timer_current (advance fuel limit a).
Proof.
  induction fuel as [|f IH]; intros a Ha; simpl; [exact Ha|].
  unfold fire. destruct (Browser.pop limit (queue a)) as [[cb q]|]; [|exact (timer_current_same a _ ltac:(repeat split) Ha)].
  apply IH. exact (holds_run_callback cb (upd_queue (fun _ => q) a) Ha).
Qed.

Lemma current_step_event a e : timer_current a -> timer_current (step_event a e).
Proof. destruct e; simpl; [apply holds_dispatch | apply current_advance]. Qed.

(** C3: in every reachable state whose [state.currentIndex] names an
    exercise [ex] of the catalog, [state.timer] refers to a countdown of
    the store whose [onDone] closure was built over that [ex]: the end of
    a hold runs the loop of the exercise on the screen. *)
Theorem reachable_timer_current a : Invariants.reachable a -> timer_current a.
Proof.
  induction 1 as [p t | a e _ IH]; [apply current_init | now apply current_step_event].
Qed.

(** The fresh page after a click on the chin tucks. *)
Lemma reachable_timer_current_witness :
  Invariants.reachable (run (em_exec init (boot None None)) [User (Select 1)]) /\
  timer_current (run (em_exec init (boot None None)) [User (Select 1)]).
Proof.
  assert (H : Invariants.reachable (run (em_exec init (boot None None)) [User (Select 1)]))
    by (apply Invariants.reach_step, Invariants.reach_boot).
  split; [exact H | exact (reachable_timer_current _ H)].
Defined.

End Current.
