(* ===== verification/Methods.v ===== *)
(** * The countdown's methods in the application

    Countdown.v proves what each method of [CountdownTimer] does to its
    own object against any host.  Here the host is the page itself:
    [setInterval] and [clearInterval] act on the browser's queue and
    [onDone] is the closure of [renderExercise].  The theorems state what
    [start] and an interval tick do to the queue, the display and the
    tones, and that a started countdown runs its ticks and then calls
    [onDone] exactly once, its interval leaving the queue. *)

From stdpp Require Import base list strings.
From Stdlib Require Import Ascii String NArith ZArith Floats Uint63 Lia.
From S2P Require Import Prelude Catalog Format Countdown Browser Persist App AppFacts Invariants Timers.

Import Catalog Format Countdown Persist App AppFacts Invariants Timers.

Module Methods.

(** [onDone] always returns, sounds its two tones and touches neither
    the countdowns nor the timer display. *)
Lemma on_done_frame ex a :
  exists a', on_done ex a = (Some tt, a') /\ timers a' = timers a /\
    beeps a' = (beeps a ++ done_beeps)%list /\ timerDisplay (view a') = timerDisplay (view a).
Proof.
  unfold on_done, beep, set_timeout. em_run.
  repeat (case_match; simplify_eq/=); eexists; (split; [reflexivity|]); simpl; rewrite <- ?app_assoc; auto.
Qed.

(** In an agreeing state no interval ticks a countdown whose field is
    [null], and a running countdown's interval is pending. *)
Lemma coherent_stopped a r t h :
  coherent a -> timers a !! r = Some t -> interval t = None ->
  ~ In (h, CbTick r) (Browser.intervals (queue a)).
Proof.
  intros Hc Et Ei Hin. apply Hc in Hin as (r' & t' & [= <-] & E' & Eh). congruence.
Qed.

Lemma coherent_running a r t h :
  coherent a -> timers a !! r = Some t -> interval t = Some h ->
  In (h, CbTick r) (Browser.intervals (queue a)).
Proof. intros Hc Et Eh. apply Hc. eauto. Qed.

(** One tick of a running countdown whose value stays positive. *)
Lemma tick_positive a r t :
  timers a !! r = Some t -> (remaining t - js_tenth <=? 0)%float = false ->
  tick r a = (Some tt, mk_app (st a) (<[r := set_remaining (remaining t - js_tenth)%float t]> (timers a))
                         (queue a) (set_timerDisplay (fmt (remaining t - js_tenth)%float) (view a))
                         (ls_progress a) (ls_theme a) (beeps a) (sounding a)).
Proof. intros Et Hp. rewrite (app_tick r a t Et). cbv zeta. now rewrite Hp. Qed.

(** The tick that reaches [<= 0]. *)
Lemma tick_last a r t :
  timers_ok a -> timers a !! r = Some t -> (remaining t - js_tenth <=? 0)%float = true ->
  exists b, tick r a = (Some tt, b) /\ timers_ok b /\
    timers b !! r = Some (mk_timer None 0%float (callbacks t)) /\
    (forall h, ~ In (h, CbTick r) (Browser.intervals (queue b))) /\
    beeps b = (beeps a ++ done_beeps)%list /\ timerDisplay (view b) = fmt 0%float.
Proof.
  intros Ht Et Hd. pose proof (keeps_tick r a Ht) as Hb.
  assert (Hr : r < List.length (timers a)) by (eapply lookup_lt_Some; eauto).
  rewrite (app_tick r a t Et) in *. cbv zeta in *. rewrite Hd in *.
  destruct (on_done_frame (callbacks t) (mk_app (st a) (<[r := mk_timer None 0%float (callbacks t)]> (timers a))
              (match interval t with Some h => Browser.clear h (queue a) | None => queue a end)
              (set_timerDisplay (fmt 0%float) (view a)) (ls_progress a) (ls_theme a) (beeps a) (sounding a)))
    as (b & Eb & Tb & Bb & Db).
  rewrite Eb in *. cbn [snd] in Hb. exists b. split; [reflexivity|]. split; [exact Hb|].
  assert (Er : timers b !! r = Some (mk_timer None 0%float (callbacks t)))
    by (rewrite Tb; simpl; apply list_lookup_insert_eq; exact Hr).
  split; [exact Er|]. split; [intros h; exact (coherent_stopped b r _ h (proj2 Hb) Er eq_refl)|].
  split; [exact Bb | exact Db].
Qed.

(** C19: [start(seconds)] on a countdown of a reachable state clears the
    interval it had and registers one new 100 ms interval: afterwards
    exactly one pending interval ticks it, under the handle its field
    holds, due 100 ms from now; its value is [seconds] (or the kept
    [remaining] when called without a number); the display shows it; the
    other countdowns are untouched. *)
Theorem app_start_spec a r secs t :
  Invariants.reachable a -> timers a !! r = Some t ->
  exists h,
    timers (em_exec (start r secs) a) !! r =
      Some (mk_timer (Some h) (match secs with Some x => x | None => remaining t end) (callbacks t)) /\
    (forall h', In (h', CbTick r) (Browser.intervals (queue (em_exec (start r secs) a))) <-> h' = h) /\
    In (Browser.mk_task h (Browser.now (queue (em_exec (start r secs) a)) + 100)%N
          (Browser.Every 100%N (CbTick r))) (Browser.tasks (queue (em_exec (start r secs) a))) /\
    (forall r', r' <> r -> timers (em_exec (start r secs) a) !! r' = timers a !! r') /\
    timerDisplay (view (em_exec (start r secs) a)) = fmt (match secs with Some x => x | None => remaining t end).
Proof.
  intros Hr Et. pose proof (keeps_start r secs a (reachable_timers_ok a Hr)) as [_ Hc].
  assert (Hlt : r < List.length (timers a)) by (eapply lookup_lt_Some; eauto).
  unfold em_exec in *. rewrite (app_start r secs a t Et) in *. cbv zeta in *. cbn [snd] in *.
  set (q0 := match interval t with Some h => Browser.clear h (queue a) | None => queue a end) in *.
  exists (Browser.next_handle q0).
  assert (Er : timers (mk_app (st a) (<[r := mk_timer (Some (Browser.next_handle q0))
                 (match secs with Some x => x | None => remaining t end) (callbacks t)]> (timers a))
                 (snd (Browser.add_interval (CbTick r) 100%N q0))
                 (set_timerDisplay (fmt (match secs with Some x => x | None => remaining t end)) (view a))
                 (ls_progress a) (ls_theme a) (beeps a) (sounding a)) !! r =
               Some (mk_timer (Some (Browser.next_handle q0))
                 (match secs with Some x => x | None => remaining t end) (callbacks t)))
    by (simpl; apply list_lookup_insert_eq; exact Hlt).
  split; [exact Er|]. split.
  - intros h'. split.
    + intros Hin. apply Hc in Hin as (r' & t' & [= <-] & E' & Eh). rewrite Er in E'. injection E' as <-. simpl in Eh. congruence.
    + intros ->. apply Hc. eauto.
  - split; [unfold q0; simpl; apply in_or_app; right; destruct (interval t); left; reflexivity|].
    split; [|reflexivity].
    intros r' Hr'. simpl. apply list_lookup_insert_ne. congruence.
Qed.

(** C10: one interval tick of a running countdown of a reachable state:
    while the new value stays positive the countdown keeps it, its
    interval stays pending, the display shows it and nothing sounds; the
    tick that reaches [<= 0] stores 0, takes its interval off the queue,
    shows [fmt(0)] and runs [onDone], whose two tones sound. *)
Theorem app_tick_spec a r t h :
  Invariants.reachable a -> timers a !! r = Some t -> interval t = Some h ->
  if (remaining t - js_tenth <=? 0)%float then
    timers (em_exec (tick r) a) !! r = Some (mk_timer None 0%float (callbacks t)) /\
    (forall h', ~ In (h', CbTick r) (Browser.intervals (queue (em_exec (tick r) a)))) /\
    beeps (em_exec (tick r) a) = (beeps a ++ done_beeps)%list /\
    timerDisplay (view (em_exec (tick r) a)) = fmt 0%float
  else
    timers (em_exec (tick r) a) !! r = Some (set_remaining (remaining t - js_tenth)%float t) /\
    In (h, CbTick r) (Browser.intervals (queue (em_exec (tick r) a))) /\
    beeps (em_exec (tick r) a) = beeps a /\
    timerDisplay (view (em_exec (tick r) a)) = fmt (remaining t - js_tenth)%float.
Proof.
  intros Hr Et Eh. pose proof (reachable_timers_ok a Hr) as Ht.
  assert (Hlt : r < List.length (timers a)) by (eapply lookup_lt_Some; eauto).
  destruct (remaining t - js_tenth <=? 0)%float eqn:Hd.
  - destruct (tick_last a r t Ht Et Hd) as (b & Eb & _ & Hb). unfold em_exec. rewrite Eb. exact Hb.
  - unfold em_exec. rewrite (tick_positive a r t Et Hd). cbn [snd timers queue beeps view].
    split; [apply list_lookup_insert_eq; exact Hlt|]. split; [|split; reflexivity].
    exact (coherent_running a r t h (proj2 Ht) Et Eh).
Qed.

(** [k] ticks that keep the value positive: the countdown holds
    [rem_after x k] and its interval, and nothing sounds. *)
Lemma ticks_positive r h k : forall a t,
  timers_ok a -> timers a !! r = Some t -> interval t = Some h ->
  (forall j, 1 <= j <= k -> (rem_after (remaining t) j <=? 0)%float = false) ->
  exists b, tick_n r k a = (Some tt, b) /\ timers_ok b /\
    timers b !! r = Some (mk_timer (Some h) (rem_after (remaining t) k) (callbacks t)) /\
    beeps b = beeps a.
Proof.
  induction k as [|k IH]; intros a t Ht Et Eh Hpos.
  - exists a. split; [reflexivity|]. split; [exact Ht|]. split; [|reflexivity].
    rewrite Et. destruct t; simpl in *; subst; reflexivity.
  - assert (Hlt : r < List.length (timers a)) by (eapply lookup_lt_Some; eauto).
    assert (H1 : (remaining t - js_tenth <=? 0)%float = false) by exact (Hpos 1 ltac:(lia)).
    pose proof (keeps_tick r a Ht) as Ht1. rewrite (tick_positive a r t Et H1) in Ht1.
    cbn [tick_n]. em_norm. rewrite (em_bind_some _ _ _ _ _ (tick_positive a r t Et H1)).
    set (a1 := mk_app _ _ _ _ _ _ _ _) in *.
    assert (E1 : timers a1 !! r = Some (set_remaining (remaining t - js_tenth)%float t))
      by (apply list_lookup_insert_eq; exact Hlt).
    destruct (IH a1 _ Ht1 E1 ltac:(destruct t; exact Eh)) as (b & Eb & Hb & Tb & Bb).
    { intros j Hj. cbn [remaining set_remaining]. rewrite rem_after_shift. apply Hpos. lia. }
    exists b. split; [exact Eb|]. split; [exact Hb|]. split; [|exact Bb].
    rewrite Tb. cbn [remaining set_remaining callbacks]. now rewrite rem_after_shift.
Qed.

(** The [n]-th tick, [n] as [ticks_from] finds it, stops the countdown
    and calls [onDone] once. *)
Lemma ticks_to_zero r h fuel : forall a t n,
  timers_ok a -> timers a !! r = Some t -> interval t = Some h ->
  ticks_from fuel (remaining t) = Some n ->
  exists b, tick_n r n a = (Some tt, b) /\
    timers b !! r = Some (mk_timer None 0%float (callbacks t)) /\
    (forall h', ~ In (h', CbTick r) (Browser.intervals (queue b))) /\
    beeps b = (beeps a ++ done_beeps)%list.
Proof.
  induction fuel as [|f IH]; intros a t n Ht Et Eh Hn; simpl in Hn; [discriminate|].
  destruct (remaining t - js_tenth <=? 0)%float eqn:Hd.
  - invc Hn. destruct (tick_last a r t Ht Et Hd) as (b & Eb & _ & Tb & Ib & Bb & _).
    exists b. cbn [tick_n]. em_norm. rewrite (em_bind_some _ _ _ _ _ Eb). auto.
  - destruct (ticks_from f (remaining t - js_tenth)%float) as [m|] eqn:Ef; simpl in Hn; [|discriminate].
    invc Hn. assert (Hlt : r < List.length (timers a)) by (eapply lookup_lt_Some; eauto).
    pose proof (keeps_tick r a Ht) as Ht1. rewrite (tick_positive a r t Et Hd) in Ht1.
    cbn [tick_n]. em_norm. rewrite (em_bind_some _ _ _ _ _ (tick_positive a r t Et Hd)).
    set (a1 := mk_app _ _ _ _ _ _ _ _) in *.
    assert (E1 : timers a1 !! r = Some (set_remaining (remaining t - js_tenth)%float t))
      by (apply list_lookup_insert_eq; exact Hlt).
    destruct (IH a1 _ m Ht1 E1 ltac:(destruct t; exact Eh) Ef) as (b & Eb & Tb & Ib & Bb).
    exists b. split; [exact Eb|]. split; [exact Tb|]. split; [exact Ib | exact Bb].
Qed.

(** C4: a countdown running in a reachable state, whose value reaches
    [<= 0] at the [n]-th tick (as [ticks_from] finds it), runs: after
    each of the first [k < n] ticks it holds [rem_after x k], its
    interval is still pending and no tone has sounded; after the [n]-th it
    holds 0, no pending interval ticks it, and [onDone] has run exactly
    once (its two tones, nothing more). *)
Theorem countdown_runs_to_done a r t h fuel n :
  Invariants.reachable a -> timers a !! r = Some t -> interval t = Some h ->
  ticks_from fuel (remaining t) = Some n ->
  (forall k, k < n ->
     timers (em_exec (tick_n r k) a) !! r = Some (mk_timer (Some h) (rem_after (remaining t) k) (callbacks t)) /\
     In (h, CbTick r) (Browser.intervals (queue (em_exec (tick_n r k) a))) /\
     beeps (em_exec (tick_n r k) a) = beeps a) /\
  (timers (em_exec (tick_n r n) a) !! r = Some (mk_timer None 0%float (callbacks t)) /\
   (forall h', ~ In (h', CbTick r) (Browser.intervals (queue (em_exec (tick_n r n) a)))) /\
   beeps (em_exec (tick_n r n) a) = (beeps a ++ done_beeps)%list).
Proof.
  intros Hr Et Eh Hn. pose proof (reachable_timers_ok a Hr) as Ht. split.
  - intros k Hk. destruct (ticks_from_spec fuel _ _ Hn) as (_ & Hlt & _).
    destruct (ticks_positive r h k a t Ht Et Eh) as (b & Eb & Hb & Tb & Bb);
      [intros j Hj; apply Hlt; lia|].
    unfold em_exec. rewrite Eb. cbn [snd]. split; [exact Tb|]. split; [|exact Bb].
    exact (coherent_running b r _ h (proj2 Hb) Tb eq_refl).
  - destruct (ticks_to_zero r h fuel a t n Ht Et Eh Hn) as (b & Eb & Tb & Ib & Bb).
    unfold em_exec. rewrite Eb. auto.
Qed.

(** ** Witnesses *)

(** The chin tucks started on a fresh page, two seconds into the first
    hold. *)
Definition chin_running : app :=
  run (em_exec init (boot None None)) [User (Select 1); User Start; Wait 2000].

Lemma chin_running_reachable : Invariants.reachable chin_running.
Proof.
  unfold chin_running. apply Invariants.reach_step. apply Invariants.reach_step.
  apply Invariants.reach_step. apply Invariants.reach_boot.
Qed.

Lemma app_start_spec_witness :
  Invariants.reachable chin_running /\
  exists t, timers chin_running !! 1 = Some t /\
  exists h,
    timers (em_exec (start 1 (Some 5%float)) chin_running) !! 1 =
      Some (mk_timer (Some h) (match Some 5%float with Some x => x | None => remaining t end) (callbacks t)) /\
    (forall h', In (h', CbTick 1) (Browser.intervals (queue (em_exec (start 1 (Some 5%float)) chin_running)))
                <-> h' = h) /\
    In (Browser.mk_task h (Browser.now (queue (em_exec (start 1 (Some 5%float)) chin_running)) + 100)%N
          (Browser.Every 100%N (CbTick 1))) (Browser.tasks (queue (em_exec (start 1 (Some 5%float)) chin_running))) /\
    (forall r', r' <> 1 -> timers (em_exec (start 1 (Some 5%float)) chin_running) !! r' = timers chin_running !! r') /\
    timerDisplay (view (em_exec (start 1 (Some 5%float)) chin_running)) =
      fmt (match Some 5%float with Some x => x | None => remaining t end).
Proof.
  split; [exact chin_running_reachable|].
  destruct (timers chin_running !! 1) as [t|] eqn:Et; [|vm_compute in Et; discriminate].
  exists t. split; [first [exact Et|reflexivity]|]. exact (app_start_spec chin_running 1 (Some 5%float) t chin_running_reachable Et).
Defined.

Lemma app_tick_spec_witness :
  Invariants.reachable chin_running /\
  exists t h, timers chin_running !! 1 = Some t /\ interval t = Some h /\
  if (remaining t - js_tenth <=? 0)%float then
    timers (em_exec (tick 1) chin_running) !! 1 = Some (mk_timer None 0%float (callbacks t)) /\
    (forall h', ~ In (h', CbTick 1) (Browser.intervals (queue (em_exec (tick 1) chin_running)))) /\
    beeps (em_exec (tick 1) chin_running) = (beeps chin_running ++ done_beeps)%list /\
    timerDisplay (view (em_exec (tick 1) chin_running)) = fmt 0%float
  else
    timers (em_exec (tick 1) chin_running) !! 1 = Some (set_remaining (remaining t - js_tenth)%float t) /\
    In (h, CbTick 1) (Browser.intervals (queue (em_exec (tick 1) chin_running))) /\
    beeps (em_exec (tick 1) chin_running) = beeps chin_running /\
    timerDisplay (view (em_exec (tick 1) chin_running)) = fmt (remaining t - js_tenth)%float.
Proof.
  split; [exact chin_running_reachable|].
  destruct (timers chin_running !! 1) as [t|] eqn:Et; [|vm_compute in Et; discriminate].
  destruct (interval t) as [h|] eqn:Eh; [|vm_compute in Et; injection Et as <-; discriminate].
  exists t, h. split; [first [exact Et|reflexivity]|]. split; [first [exact Eh|reflexivity]|].
  exact (app_tick_spec chin_running 1 t h chin_running_reachable Et Eh).
Defined.

Lemma countdown_runs_to_done_witness :
  Invariants.reachable chin_running /\
  exists t h n, timers chin_running !! 1 = Some t /\ interval t = Some h /\
    ticks_from 100 (remaining t) = Some n /\
  (forall k, k < n ->
     timers (em_exec (tick_n 1 k) chin_running) !! 1 =
       Some (mk_timer (Some h) (rem_after (remaining t) k) (callbacks t)) /\
     In (h, CbTick 1) (Browser.intervals (queue (em_exec (tick_n 1 k) chin_running))) /\
     beeps (em_exec (tick_n 1 k) chin_running) = beeps chin_running) /\
  (timers (em_exec (tick_n 1 n) chin_running) !! 1 = Some (mk_timer None 0%float (callbacks t)) /\
   (forall h', ~ In (h', CbTick 1) (Browser.intervals (queue (em_exec (tick_n 1 n) chin_running)))) /\
   beeps (em_exec (tick_n 1 n) chin_running) = (beeps chin_running ++ done_beeps)%list).
Proof.
  split; [exact chin_running_reachable|].
  destruct (timers chin_running !! 1) as [t|] eqn:Et; [|vm_compute in Et; discriminate].
  destruct (interval t) as [h|] eqn:Eh; [|vm_compute in Et; injection Et as <-; discriminate].
  destruct (ticks_from 100 (remaining t)) as [n|] eqn:En;
    [|vm_compute in Et; injection Et as <-; vm_compute in En; discriminate].
  exists t, h, n. split; [first [exact Et|reflexivity]|]. split; [first [exact Eh|reflexivity]|]. split; [first [exact En|reflexivity]|].
  exact (countdown_runs_to_done chin_running 1 t h 100 n chin_running_reachable Et Eh En).
Defined.

End Methods.
