(* ===== verification/Audio.v ===== *)
(** * Every tone is stopped

    [beep(duration, frequency)] (script.js lines 144-156) starts an
    oscillator and queues [setTimeout(() => { o.stop(); ctx.close(); },
    duration)] in the same task queue as the countdowns' intervals and the
    hold loop's restarts.  This file proves that in every reachable state
    the oscillators still sounding are exactly those whose stop is queued,
    each stop queued once: the [clearInterval] calls of the countdowns
    never drop a stop, and no tone is left sounding with nothing to end
    it. *)

From stdpp Require Import base list strings.
From Stdlib Require Import Ascii String NArith ZArith Floats Uint63 Lia.
From S2P Require Import Prelude Catalog Format Countdown Browser Persist App AppFacts Invariants Timers.

Import Catalog Format Countdown Persist App AppFacts Invariants Timers.

Module Audio.

Local Open Scope list_scope.

(** The beeps whose stop is among the timeouts [l]. *)
Fixpoint stops_of (l : list (nat * callback)) : list nat :=
  match l with
  | [] => []
  | (_, CbStopTone k) :: l' => k :: stops_of l'
  | _ :: l' => stops_of l'
  end.

Definition stops (a : app) : list nat := stops_of (Browser.timeouts (queue a)).

(** Each queued stop is queued once, the sounding oscillators are those
    with a stop queued, and a stop names a beep of the log. *)
Definition tones_ok (a : app) : Prop :=
  List.NoDup (stops a) /\ (forall k, In k (sounding a) <-> In k (stops a)) /\
  (forall k, In k (stops a) -> k < List.length (beeps a)).

(** ** The stops of a list of timeouts *)

Lemma in_stops_of l k : In k (stops_of l) <-> exists h, In (h, CbStopTone k) l.
Proof.
  induction l as [|[h [r|hs|j]] l IH]; simpl.
  - split; [intros []|intros (h & [])].
  - rewrite IH. split; intros (h' & H); [eauto|]. destruct H as [[=]|H]; eauto.
  - rewrite IH. split; intros (h' & H); [eauto|]. destruct H as [[=]|H]; eauto.
  - rewrite IH. split.
    + intros [->|(h' & H)]; eauto.
    + intros (h' & [[= -> ->]|H]); eauto.
Qed.

Lemma stops_of_app l1 l2 : stops_of (l1 ++ l2) = stops_of l1 ++ stops_of l2.
Proof. induction l1 as [|[h [r|hs|j]] l1 IH]; simpl; rewrite ?IH; reflexivity. Qed.

(** With no stop queued twice, a stop has one handle. *)
Lemma stops_handle_unique l h1 h2 k :
  List.NoDup (stops_of l) -> In (h1, CbStopTone k) l -> In (h2, CbStopTone k) l -> h1 = h2.
Proof.
  induction l as [|[h c] l IH]; [intros _ []|]. intros Hn H1 H2.
  destruct c as [r|hs|j]; simpl in Hn, H1, H2.
  1,2: destruct H1 as [H1|H1]; [discriminate|]; destruct H2 as [H2|H2]; [discriminate|]; eauto.
  apply List.NoDup_cons_iff in Hn as [Hj Hn].
  destruct H1 as [H1|H1], H2 as [H2|H2].
  - injection H1 as <- _. injection H2 as <- _. reflexivity.
  - injection H1 as -> ->. exfalso. apply Hj, in_stops_of. eauto.
  - injection H2 as -> ->. exfalso. apply Hj, in_stops_of. eauto.
  - eauto.
Qed.

Abbreviation drop_handle h := (List.filter (fun x : nat * callback => negb (Nat.eqb (fst x) h))).

Lemma in_stops_drop h l k :
  In k (stops_of (drop_handle h l)) <-> exists h', h' <> h /\ In (h', CbStopTone k) l.
Proof.
  rewrite in_stops_of. split.
  - intros (h' & H). apply filter_In in H as [H Hne]. simpl in Hne.
    apply negb_true_iff, Nat.eqb_neq in Hne. eauto.
  - intros (h' & Hne & H). exists h'. apply filter_In. split; [exact H|].
    apply negb_true_iff, Nat.eqb_neq. exact Hne.
Qed.

Lemma nodup_stops_drop h l : List.NoDup (stops_of l) -> List.NoDup (stops_of (drop_handle h l)).
Proof.
  induction l as [|[h' [r|hs|j]] l IH]; simpl; [auto| | |];
    destruct (negb (Nat.eqb h' h)); simpl; auto.
  - intros Hn. apply List.NoDup_cons_iff in Hn as [Hj Hn]. constructor; [|auto].
    intros Hin. apply Hj. apply in_stops_drop in Hin as (h0 & _ & Hin). apply in_stops_of. eauto.
  - intros Hn. apply List.NoDup_cons_iff in Hn as [_ Hn]. auto.
Qed.

(** ** What the invariant depends on *)

Lemma tones_same a b :
  Browser.timeouts (queue b) = Browser.timeouts (queue a) -> sounding b = sounding a ->
  beeps b = beeps a -> tones_ok a -> tones_ok b.
Proof. unfold tones_ok, stops. intros -> -> ->. exact id. Qed.

(** [clearInterval] of a countdown's own interval leaves every timeout. *)
Lemma timeouts_clear_own a r t h :
  timers_ok a -> timers a !! r = Some t -> interval t = Some h ->
  Browser.timeouts (Browser.clear h (queue a)) = Browser.timeouts (queue a).
Proof.
  intros [Ha Hc] Et Eh. rewrite Browser.timeouts_clear.
  apply (Browser.timeouts_interval_handle _ h (CbTick r) (proj1 Ha)). apply Hc. eauto.
Qed.

(** ** Computations that keep the invariant *)

Definition ring (a b : app) : Prop := tones_ok a -> tones_ok b.

#[export] Instance ring_preorder : PreOrder ring.
Proof. split; [intros a H; exact H | intros a b c H1 H2 H; exact (H2 (H1 H))]. Qed.

Abbreviation rings := (stays ring).

Definition tone_step (a b : app) : Prop := timers_ok a /\ tones_ok a -> timers_ok b /\ tones_ok b.

#[export] Instance tone_step_preorder : PreOrder tone_step.
Proof. split; [intros a H; exact H | intros a b c H1 H2 H; exact (H2 (H1 H))]. Qed.

Abbreviation sounds := (stays tone_step).

Lemma sounds_of {A} (c : EM app A) : keeps c -> rings c -> sounds c.
Proof. intros Hk Hr a [Ht Hs]. exact (conj (Hk a Ht) (Hr a Hs)). Qed.

Lemma rings_modify (f : app -> app) :
  (forall a, queue (f a) = queue a /\ sounding (f a) = sounding a /\ beeps (f a) = beeps a) ->
  rings (em_modify f).
Proof. intros Hf a. destruct (Hf a) as (E1 & E2 & E3). intros Hs; apply (tones_same a); [..|exact Hs]; simpl; congruence. Qed.

Lemma rings_load r : rings (load r).
Proof. intros a. unfold load. simpl. destruct (timers a !! r); simpl; exact id. Qed.

Lemma rings_set_interval r : rings (host_set_interval r).
Proof.
  intros a Hs. apply (tones_same a); [|reflexivity|reflexivity|exact Hs].
  rewrite <- (Browser.timeouts_add_interval (CbTick r) 100%N (queue a)). reflexivity.
Qed.

Lemma rings_restart hs ms : rings (set_timeout (CbRestart hs) ms).
Proof.
  intros a. unfold ring, tones_ok, stops. cbn [set_timeout snd queue upd_queue sounding beeps].
  rewrite Browser.timeouts_add_timeout, stops_of_app, app_nil_r. exact id.
Qed.

(** [beep]: the new oscillator sounds and its stop is queued. *)
Lemma rings_beep d f : rings (beep d f).
Proof.
  intros a (Hn & He & Hb). rewrite beep_eq. unfold tone_added, tones_ok, stops.
  cbn [snd queue upd_queue upd_sounding upd_beeps sounding beeps].
  rewrite Browser.timeouts_add_timeout, stops_of_app. simpl. fold (stops a). split; [|split].
  - apply List.NoDup_app; [exact Hn | constructor; [intros []|constructor] |].
    intros k Hk [<-|[]]. specialize (Hb _ Hk). lia.
  - intros k. rewrite !in_app_iff, He. tauto.
  - intros k. rewrite in_app_iff, length_app. simpl. intros [Hk|[<-|[]]]; [specialize (Hb _ Hk)|]; lia.
Qed.

Create HintDb tones discriminated.
#[export] Hint Resolve rings_load rings_set_interval rings_restart rings_beep : tones.
#[export] Hint Extern 1 (rings (em_modify _)) => apply rings_modify; intros; repeat split : tones.
#[export] Hint Extern 1 (rings (store _ _)) => apply rings_modify; intros; repeat split : tones.
#[export] Hint Extern 1 (rings (updateTimerDisplay _)) => apply rings_modify; intros; repeat split : tones.
#[export] Hint Extern 1 (rings (host_on_tick _ _)) => apply rings_modify; intros; repeat split : tones.
#[export] Hint Extern 1 (rings (new_timer _)) => apply rings_modify; intros; repeat split : tones.

Ltac ring_solve := stays_solve ltac:(auto with tones).

Lemma rings_on_done ex : rings (host_on_done ex).
Proof. simpl. unfold on_done. ring_solve. Qed.

Lemma rings_current_ex : rings current_ex.
Proof. intros a. unfold current_ex. destruct (routine_at _); exact id. Qed.

Lemma rings_the_timer : rings the_timer.
Proof. intros a. unfold the_timer. destruct (cur_timer _); exact id. Qed.

#[export] Hint Resolve rings_on_done rings_current_ex rings_the_timer : tones.

Lemma rings_renderExercise : rings renderExercise.
Proof. unfold renderExercise. ring_solve. Qed.

Lemma rings_renderStepList : rings renderStepList.
Proof. unfold renderStepList. ring_solve. Qed.

Lemma rings_saveProgress : rings saveProgress.
Proof. unfold saveProgress. ring_solve. Qed.

Lemma rings_loadProgress : rings loadProgress.
Proof. apply rings_modify. intros a. destruct (load_progress _ _ _). auto. Qed.

#[export] Hint Resolve rings_renderExercise rings_renderStepList rings_saveProgress rings_loadProgress : tones.

(** ** The countdown's methods: they clear only their own interval *)

Lemma sounds_pause r : sounds (pause r).
Proof.
  intros a [Ht Hs]. split; [exact (keeps_pause r a Ht)|].
  destruct (timers a !! r) as [t|] eqn:Et.
  - rewrite (app_pause r a t Et). destruct (interval t) as [h|] eqn:Eh; [|exact Hs].
    apply (tones_same a); [|reflexivity|reflexivity|exact Hs]. exact (timeouts_clear_own a r t h Ht Et Eh).
  - unfold pause. em_norm. rewrite (load_missing r a _ Et). exact Hs.
Qed.

Lemma sounds_start r secs : sounds (start r secs).
Proof.
  intros a [Ht Hs]. split; [exact (keeps_start r secs a Ht)|].
  destruct (timers a !! r) as [t|] eqn:Et.
  - rewrite (app_start r secs a t Et). cbv zeta. apply (tones_same a); [|reflexivity|reflexivity|exact Hs].
    cbn [snd queue]. rewrite Browser.timeouts_add_interval.
    destruct (interval t) as [h|] eqn:Eh; [exact (timeouts_clear_own a r t h Ht Et Eh) | reflexivity].
  - unfold start, clear_own. em_norm. rewrite em_bind_assoc, (load_missing r a _ Et). exact Hs.
Qed.

Lemma sounds_tick r : sounds (tick r).
Proof.
  intros a [Ht Hs]. split; [exact (keeps_tick r a Ht)|].
  destruct (timers a !! r) as [t|] eqn:Et.
  - rewrite (app_tick r a t Et). cbv zeta. destruct (remaining t - js_tenth <=? 0)%float.
    + apply (rings_on_done (callbacks t)). apply (tones_same a); [|reflexivity|reflexivity|exact Hs].
      cbn [queue]. destruct (interval t) as [h|] eqn:Eh; [exact (timeouts_clear_own a r t h Ht Et Eh) | reflexivity].
    + apply (tones_same a); [reflexivity..|exact Hs].
  - unfold tick. em_norm. rewrite (load_missing r a _ Et). exact Hs.
Qed.

Lemma sounds_reset r : sounds (reset r).
Proof.
  unfold reset. em_norm. apply (stays_bind tone_step); [apply sounds_pause|]. intros _.
  apply sounds_of; [apply keeps_load_store; [now intros [] | intros t; keeps_solve] | ring_solve].
Qed.

Lemma sounds_renderExercise : sounds renderExercise.
Proof. apply sounds_of; [apply keeps_renderExercise | apply rings_renderExercise]. Qed.

Lemma sounds_renderStepList : sounds renderStepList.
Proof. apply sounds_of; [unfold renderStepList; keeps_solve | apply rings_renderStepList]. Qed.

Lemma sounds_saveProgress : sounds saveProgress.
Proof. apply sounds_of; [unfold saveProgress; keeps_solve | apply rings_saveProgress]. Qed.

(** Split a handler into the methods above and the steps that clear
    nothing. *)
Ltac tone_leaf :=
  idtac; lazymatch goal with
  | |- stays _ (start _ _) => apply sounds_start
  | |- stays _ (pause _) => apply sounds_pause
  | |- stays _ (tick _) => apply sounds_tick
  | |- stays _ (reset _) => apply sounds_reset
  | |- stays _ renderExercise => apply sounds_renderExercise
  | |- stays _ renderStepList => apply sounds_renderStepList
  | |- stays _ saveProgress => apply sounds_saveProgress
  | |- stays _ (mbind _ _) => fail
  | |- stays _ (em_bind _ _) => fail
  | |- stays _ (em_when _ _) => fail
  | |- stays _ (match _ with _ => _ end) => fail
  | _ => apply sounds_of; [solve [keeps_solve] | solve [ring_solve]]
  end.

Ltac sounds_solve := stays_solve ltac:(tone_leaf).

Lemma sounds_selectIndex i : sounds (selectIndex i).
Proof. unfold selectIndex, cleanupTimers, renderStepList, saveProgress. sounds_solve. Qed.

Lemma sounds_dispatch u : sounds (dispatch u).
Proof.
  destruct u; cbn [dispatch];
    unfold btnStart, btnPause, btnReset, repInc, repDec, setInc, setDec, prevStep, nextStep,
      completeStep, resetProgress, toggleTheme, applyTheme, renderStepList, saveProgress;
    sounds_solve.
Qed.

Lemma sounds_init : sounds init.
Proof. unfold init, applyTheme. sounds_solve. Qed.

(** ** The event loop: a stop runs, and only its tone stops *)

(** A task that is not a stop leaves the queue. *)
Lemma tones_popped_other a limit cb q :
  timers_ok a -> tones_ok a -> Browser.pop limit (queue a) = Some (cb, q) ->
  (forall k, cb <> CbStopTone k) -> tones_ok (upd_queue (fun _ => q) a).
Proof.
  intros Ht Hs Ep Hcb.
  destruct (Browser.timeouts_pop _ _ _ _ (proj1 (proj1 Ht)) Ep) as [[Eq _]|(h & Hin & Eq)].
  - apply (tones_same a); [exact Eq|reflexivity|reflexivity|exact Hs].
  - destruct Hs as (Hn & He & Hb). unfold tones_ok, stops. cbn [queue upd_queue sounding beeps]. rewrite Eq.
    assert (Hk : forall k, In k (stops_of (drop_handle h (Browser.timeouts (queue a)))) <-> In k (stops a)).
    { intros k. rewrite in_stops_drop. unfold stops. rewrite in_stops_of.
      split; [intros (h' & _ & H); eauto|]. intros (h' & H). exists h'. split; [|exact H].
      intros ->. apply (Hcb k). exact (Browser.timeouts_unique _ _ _ _ (proj1 (proj1 Ht)) Hin H). }
    split; [exact (nodup_stops_drop h _ Hn)|]. split; intros k; rewrite Hk; [apply He | apply Hb].
Qed.

(** The stop of beep [k] runs: its timeout has left the queue and [k] no
    longer sounds. *)
Lemma tones_popped_stop a limit k q :
  timers_ok a -> tones_ok a -> Browser.pop limit (queue a) = Some (CbStopTone k, q) ->
  tones_ok (snd (stop_tone k (upd_queue (fun _ => q) a))).
Proof.
  intros Ht Hs Ep. pose proof (proj1 (proj1 Ht)) as Hq.
  destruct (Browser.timeouts_pop _ _ _ _ Hq Ep) as [[_ (h & Hi)]|(h & Hin & Eq)].
  - exfalso. apply (proj2 Ht) in Hi as (r & t & Hr & _). discriminate.
  - destruct Hs as (Hn & He & Hb). unfold stop_tone, tones_ok, stops.
    cbn [em_modify snd queue upd_queue upd_sounding sounding beeps]. rewrite Eq.
    assert (Hk : forall j, In j (stops_of (drop_handle h (Browser.timeouts (queue a)))) <-> In j (stops a) /\ j <> k).
    { intros j. rewrite in_stops_drop. unfold stops. rewrite in_stops_of. split.
      - intros (h' & Hne & H). split; [eauto|]. intros ->. exact (Hne (stops_handle_unique _ _ _ _ Hn H Hin)).
      - intros [(h' & H) Hjk]. exists h'. split; [|exact H]. intros ->.
        pose proof (Browser.timeouts_unique _ _ _ _ Hq H Hin). congruence. }
    split; [exact (nodup_stops_drop h _ Hn)|]. split.
    + intros j. rewrite filter_In, Hk, <- He, negb_true_iff, Nat.eqb_neq. reflexivity.
    + intros j. rewrite Hk. intros [Hj _]. exact (Hb j Hj).
Qed.

Lemma sounds_restart hs : sounds (run_callback (CbRestart hs)).
Proof. cbn [run_callback]. sounds_solve. Qed.

Lemma fire_tones_ok limit a a' :
  timers_ok a /\ tones_ok a -> fire limit a = Some a' -> timers_ok a' /\ tones_ok a'.
Proof.
  intros [Ht Hs] E. unfold fire in E.
  destruct (Browser.pop limit (queue a)) as [[cb q]|] eqn:Ep; [|discriminate]. invc E.
  pose proof (popped_timers_ok _ _ _ _ Ht Ep) as Ht'.
  destruct cb as [r|hs|k].
  - exact (sounds_tick r _ (conj Ht' (tones_popped_other a limit _ q Ht Hs Ep ltac:(discriminate)))).
  - exact (sounds_restart hs _ (conj Ht' (tones_popped_other a limit _ q Ht Hs Ep ltac:(discriminate)))).
  - exact (conj (keeps_run_callback (CbStopTone k) _ Ht') (tones_popped_stop a limit k q Ht Hs Ep)).
Qed.

Lemma advance_tones_ok fuel limit :
  forall a, timers_ok a /\ tones_ok a -> timers_ok (advance fuel limit a) /\ tones_ok (advance fuel limit a).
Proof.
  induction fuel as [|f IH]; intros a Ha; simpl; [exact Ha|].
  destruct (fire limit a) as [a'|] eqn:E; [exact (IH a' (fire_tones_ok _ _ _ Ha E))|].
  pose proof (advance_timers_ok 1 limit a (proj1 Ha)) as Hw. simpl in Hw. rewrite E in Hw.
  split; [exact Hw|]. apply (tones_same a); [reflexivity..|exact (proj2 Ha)].
Qed.

Lemma step_event_tones_ok a e :
  timers_ok a /\ tones_ok a -> timers_ok (step_event a e) /\ tones_ok (step_event a e).
Proof. destruct e as [u|ms]; simpl; intros Ha; [exact (sounds_dispatch u a Ha) | now apply advance_tones_ok]. Qed.

Lemma boot_tones_ok p t : tones_ok (boot p t).
Proof. split; [constructor|]. split; [intros k; simpl; tauto | intros k []]. Qed.

Lemma reachable_audio_ok a : Invariants.reachable a -> timers_ok a /\ tones_ok a.
Proof.
  intros Hr. induction Hr as [p t | a e _ IH].
  - exact (sounds_init _ (conj (boot_timers_ok p t) (boot_tones_ok p t))).
  - exact (step_event_tones_ok a e IH).
Qed.

(** C9: in every reachable state the oscillators still sounding are
    exactly the beeps whose stop is queued, no stop is queued twice, and
    every queued stop is for a beep of the log: whatever the handlers
    clear and whenever the tasks run, no tone is left without its stop. *)
Theorem reachable_tones_ok a : Invariants.reachable a -> tones_ok a.
Proof. intros Hr. exact (proj2 (reachable_audio_ok a Hr)). Qed.

(** Chin tucks started and the first hold over: its two tones sound, and
    their stops are queued. *)
Lemma reachable_tones_ok_witness :
  let a := run (em_exec init (boot None None)) [User (Select 1); User Start; Wait 5100] in
  Invariants.reachable a /\ tones_ok a /\ sounding a = [0; 1] /\ stops a = [0; 1].
Proof.
  cbv zeta. assert (Hr : Invariants.reachable (run (em_exec init (boot None None))
                                                   [User (Select 1); User Start; Wait 5100])).
  { apply Invariants.reach_step. apply Invariants.reach_step. apply Invariants.reach_step.
    apply Invariants.reach_boot. }
  split; [exact Hr|]. split; [exact (reachable_tones_ok _ Hr)|]. split; vm_compute; reflexivity.
Defined.

End Audio.
