(* ===== verification/Handlers.v ===== *)
(** * The other buttons and the start of the script

    What the handlers of script.js lines 332-401 do that the hold-loop
    files do not cover: Start on a [timer] exercise resumes or starts the
    countdown; Pause and Reset stop [state.timer] but cancel no queued
    timeout (the restart of a hold loop among them); "Reset all progress"
    redraws without stopping anything; switching exercises cancels no
    timeout either; the theme button flips the body class in every
    reachable state; the start of the script resumes the saved session,
    and throws when the stored index names no exercise. *)

From stdpp Require Import base list strings.
From Stdlib Require Import Ascii String NArith ZArith Floats Uint63 Lia.
From S2P Require Import Prelude Catalog Format Countdown Browser Persist App AppFacts Invariants Timers Audio.

Import Catalog Format Countdown Persist App AppFacts Invariants Timers Audio.

Module Handlers.

(** ** Pause *)

Lemma btnPause_eq a r t :
  cur_timer (st a) = Some r -> timers a !! r = Some t ->
  btnPause a = (Some tt, upd_st (set_holdLoopActive false) (snd (pause r a))).
Proof.
  intros Er Et. unfold btnPause. em_norm. unfold em_bind at 1, em_get. cbv beta iota. rewrite Er.
  erewrite em_bind_some by (apply app_pause; exact Et). rewrite (app_pause r a t Et). reflexivity.
Qed.

(** C15: in a reachable state, Pause stops the countdown [state.timer]
    (its interval leaves the queue, its remaining time is kept) and turns
    the hold loop off, but every queued timeout stays: a hold loop's
    pending restart is not cancelled. *)
Theorem btnPause_keeps_timeouts a r t :
  Invariants.reachable a -> cur_timer (st a) = Some r -> timers a !! r = Some t ->
  holdLoopActive (st (em_exec btnPause a)) = false /\
  timers (em_exec btnPause a) !! r = Some (set_interval_field None t) /\
  (forall h, ~ In (h, CbTick r) (Browser.intervals (queue (em_exec btnPause a)))) /\
  Browser.timeouts (queue (em_exec btnPause a)) = Browser.timeouts (queue a).
Proof.
  intros Hr Er Et. pose proof (reachable_timers_ok a Hr) as Ht.
  pose proof (keeps_dispatch Pause a Ht) as Ht'. cbn [dispatch] in Ht'.
  unfold em_exec in *. rewrite (btnPause_eq a r t Er Et) in *. cbn [snd] in *.
  assert (Hr' : r < List.length (timers a)) by (eapply lookup_lt_Some; eauto).
  rewrite (app_pause r a t Et) in *. cbn [snd] in *.
  destruct (interval t) as [h|] eqn:Eh.
  - split; [reflexivity|]. split; [simpl; now apply list_lookup_insert_eq|]. split.
    + intros h' Hin. apply (proj2 Ht') in Hin as (r' & t' & [= <-] & E' & Eh').
      simpl in E'. rewrite list_lookup_insert_eq in E' by exact Hr'. injection E' as <-. discriminate.
    + simpl. exact (timeouts_clear_own a r t h Ht Et Eh).
  - split; [reflexivity|]. split; [simpl; rewrite Et; now destruct t as [i x c]; simpl in *; subst|].
    split; [|reflexivity].
    intros h' Hin. apply (proj2 Ht') in Hin as (r' & t' & [= <-] & E' & Eh').
    simpl in E'. rewrite Et in E'. injection E' as <-. congruence.
Qed.

(** ** Reset *)

Lemma app_reset r a t :
  timers a !! r = Some t ->
  reset r a = (Some tt, upd_view (set_timerDisplay (fmt 0%float))
                 (upd_timers (fun l => <[r := mk_timer None 0%float (callbacks t)]> l)
                    (match interval t with Some h => upd_queue (Browser.clear h) a | None => a end))).
Proof.
  intros Et. assert (Hr : r < List.length (timers a)) by (eapply lookup_lt_Some; eauto).
  unfold reset. em_norm. erewrite em_bind_some by (apply app_pause; exact Et).
  cbv beta. rewrite (app_load r _ (match interval t with Some _ => set_interval_field None t | None => t end)).
  2:{ destruct (interval t); simpl; [apply list_lookup_insert_eq; exact Hr | exact Et]. }
  unfold store, em_bind, em_modify. simpl. unfold updateTimerDisplay, em_modify.
  destruct t as [[h|] x c]; simpl; unfold upd_view, upd_timers, upd_queue; simpl;
    rewrite ?list_insert_insert_eq; reflexivity.
Qed.

Lemma btnReset_eq a r t :
  cur_timer (st a) = Some r -> timers a !! r = Some t ->
  btnReset a = (Some tt, upd_st (set_holdLoopActive false) (snd (reset r a))).
Proof.
  intros Er Et. unfold btnReset. em_norm. unfold em_bind at 1, em_get. cbv beta iota. rewrite Er.
  erewrite em_bind_some by (apply app_reset; exact Et). rewrite (app_reset r a t Et). reflexivity.
Qed.

(** C16: in a reachable state, Reset stops the countdown [state.timer]
    and sets its remaining time to 0, shows [00:00] and turns the hold
    loop off; the rep and set counters are kept; and, as with Pause,
    every queued timeout stays. *)
Theorem btnReset_spec a r t :
  Invariants.reachable a -> cur_timer (st a) = Some r -> timers a !! r = Some t ->
  holdLoopActive (st (em_exec btnReset a)) = false /\
  timers (em_exec btnReset a) !! r = Some (mk_timer None 0%float (callbacks t)) /\
  timerDisplay (view (em_exec btnReset a)) = "00:00"%string /\
  repsDone (st (em_exec btnReset a)) = repsDone (st a) /\
  setsDone (st (em_exec btnReset a)) = setsDone (st a) /\
  (forall h, ~ In (h, CbTick r) (Browser.intervals (queue (em_exec btnReset a)))) /\
  Browser.timeouts (queue (em_exec btnReset a)) = Browser.timeouts (queue a).
Proof.
  intros Hr Er Et. pose proof (reachable_timers_ok a Hr) as Ht.
  pose proof (keeps_dispatch Reset a Ht) as Ht'. cbn [dispatch] in Ht'.
  assert (Hr' : r < List.length (timers a)) by (eapply lookup_lt_Some; eauto).
  unfold em_exec in *. rewrite (btnReset_eq a r t Er Et) in *. rewrite (app_reset r a t Et) in *.
  cbn [snd] in *.
  assert (Hl : timers (upd_st (set_holdLoopActive false) (upd_view (set_timerDisplay (fmt 0%float))
             (upd_timers (fun l => <[r := mk_timer None 0%float (callbacks t)]> l)
                (match interval t with Some h => upd_queue (Browser.clear h) a | None => a end)))) !! r
             = Some (mk_timer None 0%float (callbacks t))).
  { destruct (interval t); apply list_lookup_insert_eq; exact Hr'. }
  split; [reflexivity|]. split; [exact Hl|]. split; [reflexivity|].
  split; [destruct (interval t); reflexivity|]. split; [destruct (interval t); reflexivity|]. split.
  - intros h' Hin. apply (proj2 Ht') in Hin as (r' & t' & [= <-] & E' & Eh').
    rewrite Hl in E'. injection E' as <-. discriminate.
  - destruct (interval t) as [h|] eqn:Eh; [|reflexivity]. exact (timeouts_clear_own a r t h Ht Et Eh).
Qed.

(** ** Reset all progress *)

(** C17: a confirmed "Reset all progress" clears the completed set, goes
    to the first exercise, saves, redraws the list and builds a fresh
    countdown for it, but stops nothing: every countdown of the store,
    the old [state.timer] included, is left as it was, the queue is
    untouched (its intervals keep ticking, its timeouts keep waiting) and
    the hold loop flag is kept.  Declined, it does nothing. *)
Theorem resetProgress_stops_nothing a :
  em_exec (resetProgress false) a = a /\
  let a' := em_exec (resetProgress true) a in
  completed (st a') = [] /\ currentIndex (st a') = 0%float /\
  ls_progress a' = Some (SJson (encode_progress [] 0%float)) /\
  cur_timer (st a') = Some (List.length (timers a)) /\
  holdLoopActive (st a') = holdLoopActive (st a) /\
  (forall r, r < List.length (timers a) -> timers a' !! r = timers a !! r) /\
  queue a' = queue a.
Proof.
  split; [reflexivity|]. cbv zeta. unfold em_exec, resetProgress, em_when, saveProgress, renderStepList.
  em_norm. unfold em_bind at 1 2 3 4, em_modify. cbv beta iota.
  erewrite renderExercise_eq by reflexivity. simpl.
  repeat (split; [reflexivity|]). split; [|reflexivity].
  intros r Hr. apply lookup_app_l. exact Hr.
Qed.

(** ** Start on a [timer] exercise *)

(** C13: Start on an exercise of mode [timer] starts [state.timer] on a
    fresh 100 ms interval: from its remaining time when a run was paused
    before it reached 0, otherwise from the exercise's [durationSec]; the
    display shows that time and the session is unchanged. *)
Theorem btnStart_timer a n ex d r t :
  currentIndex (st a) = js_of_nat n -> routine !! n = Some ex -> ex_mode ex = Timer ->
  durationSec (ex_targets ex) = Some d -> cur_timer (st a) = Some r -> timers a !! r = Some t ->
  runs_from (em_exec btnStart a) r (if (0 <? remaining t)%float then remaining t else js_of_nat d) /\
  st (em_exec btnStart a) = st a /\
  timerDisplay (view (em_exec btnStart a)) = fmt (if (0 <? remaining t)%float then remaining t else js_of_nat d).
Proof.
  intros Ei En Em Ed Er Et.
  assert (Hn : n < List.length routine) by (eapply lookup_lt_Some; eauto).
  assert (E : btnStart a = start r (Some (if (0 <? remaining t)%float then remaining t else js_of_nat d)) a).
  { unfold btnStart, current_ex. em_norm. unfold em_bind at 1. rewrite Ei, routine_at_nat, En by exact Hn.
    cbv beta iota. rewrite Em. unfold em_bind at 1, the_timer. rewrite Er. cbv beta iota.
    rewrite (app_load r a t) by exact Et. rewrite Ed. destruct (0 <? remaining t)%float; reflexivity. }
  unfold em_exec. rewrite E. split; [exact (app_start_runs r _ a t Et)|].
  rewrite (app_start r _ a t Et). split; reflexivity.
Qed.

(** ** The theme *)

(** The body class shows the theme: [applyTheme()] ran after the last
    change of [state.preferences.theme]. *)
Definition theme_shown (a : app) : Prop :=
  bodyLight (view a) = String.eqb (theme (st a)) "light".

(** The parts of the state the theme lives in. *)
Definition same_theme (a b : app) : Prop :=
  theme (st b) = theme (st a) /\ bodyLight (view b) = bodyLight (view a).

#[export] Instance same_theme_preorder : PreOrder same_theme.
Proof.
  split; [intros a; split; reflexivity|]. intros a b c [E1 F1] [E2 F2]. split; congruence.
Qed.

Abbreviation themed := (stays same_theme).

Lemma themed_modify (f : app -> app) :
  (forall a, same_theme a (f a)) -> themed (em_modify f).
Proof. intros Hf a. exact (Hf a). Qed.

Lemma themed_load r : themed (load r).
Proof. intros a. unfold load. simpl. destruct (timers a !! r); simpl; reflexivity. Qed.

Lemma themed_set_interval r : themed (host_set_interval r).
Proof. intros a. simpl. destruct (Browser.add_interval (CbTick r) 100%N (queue a)). split; reflexivity. Qed.

Lemma themed_set_timeout cb ms : themed (App.set_timeout cb ms).
Proof. intros a. split; reflexivity. Qed.

Lemma themed_current_ex : themed current_ex.
Proof. intros a. unfold current_ex. destruct (routine_at _); simpl; reflexivity. Qed.

Lemma themed_the_timer : themed the_timer.
Proof. intros a. unfold the_timer. destruct (cur_timer _); simpl; reflexivity. Qed.

Create HintDb theme discriminated.
#[export] Hint Resolve themed_load themed_set_interval themed_set_timeout themed_current_ex
  themed_the_timer : theme.
#[export] Hint Extern 1 (themed (em_modify _)) => apply themed_modify; intros; split; reflexivity : theme.
#[export] Hint Extern 1 (themed (store _ _)) => apply themed_modify; intros; split; reflexivity : theme.
#[export] Hint Extern 1 (themed (host_clear_interval _)) => apply themed_modify; intros; split; reflexivity : theme.
#[export] Hint Extern 1 (themed (host_on_tick _ _)) => apply themed_modify; intros; split; reflexivity : theme.
#[export] Hint Extern 1 (themed (updateTimerDisplay _)) => apply themed_modify; intros; split; reflexivity : theme.
#[export] Hint Extern 1 (themed (new_timer _)) => unfold new_timer; apply themed_modify; intros; split; reflexivity : theme.

Ltac themed_solve := stays_solve ltac:(auto with theme).

Lemma themed_beep d f : themed (beep d f).
Proof. unfold beep. themed_solve. Qed.

Lemma themed_stop_tone k : themed (stop_tone k).
Proof. unfold stop_tone. themed_solve. Qed.

#[export] Hint Resolve themed_beep themed_stop_tone : theme.

Lemma themed_on_done ex : themed (host_on_done ex).
Proof. simpl. unfold on_done. themed_solve. Qed.

#[export] Hint Resolve themed_on_done : theme.

Lemma themed_start r secs : themed (start r secs).
Proof. unfold start, clear_own. themed_solve. Qed.

Lemma themed_tick r : themed (tick r).
Proof. unfold tick. themed_solve. Qed.

Lemma themed_pause r : themed (pause r).
Proof. unfold pause. themed_solve. Qed.

Lemma themed_reset r : themed (reset r).
Proof. unfold reset, pause. themed_solve. Qed.

#[export] Hint Resolve themed_start themed_tick themed_pause themed_reset : theme.

Lemma themed_renderExercise : themed renderExercise.
Proof. unfold renderExercise. themed_solve. Qed.

Lemma themed_selectIndex i : themed (selectIndex i).
Proof. unfold selectIndex, cleanupTimers, renderStepList, saveProgress. themed_solve. Qed.

Lemma themed_renderStepList : themed renderStepList.
Proof. apply themed_modify. intros. split; reflexivity. Qed.

#[export] Hint Resolve themed_renderExercise themed_selectIndex themed_renderStepList : theme.

Definition theme_step (a b : app) : Prop := theme_shown a -> theme_shown b.

#[export] Instance theme_step_preorder : PreOrder theme_step.
Proof. split; [intros a H; exact H | intros a b c H1 H2 H; exact (H2 (H1 H))]. Qed.

Lemma theme_step_of_same {A} (c : EM app A) : themed c -> stays theme_step c.
Proof. intros Hc a H. destruct (Hc a) as [E1 E2]. unfold theme_shown in *. congruence. Qed.

(** [els.toggleTheme.onclick]: the new theme is stored and shown,
    whatever the state before. *)
Lemma toggleTheme_eq a :
  let t := if String.eqb (theme (st a)) "light" then "dark"%string else "light"%string in
  toggleTheme a = (Some tt, upd_view (set_bodyLight (String.eqb t "light"))
                             (upd_ls_theme (Some t) (upd_st (set_theme t) a))).
Proof. reflexivity. Qed.

Lemma theme_toggleTheme : stays theme_step toggleTheme.
Proof. intros a _. rewrite toggleTheme_eq. reflexivity. Qed.

Lemma theme_dispatch e : stays theme_step (dispatch e).
Proof.
  destruct e; [| | | | | | | | | | | | exact theme_toggleTheme]; apply theme_step_of_same; simpl;
    unfold btnStart, btnPause, btnReset, repInc, repDec, setInc, setDec, prevStep, nextStep,
      completeStep, resetProgress, renderStepList, saveProgress; themed_solve.
Qed.

Lemma theme_advance fuel limit : forall a, theme_shown a -> theme_shown (advance fuel limit a).
Proof.
  induction fuel as [|f IH]; intros a Ha; simpl; [exact Ha|].
  unfold fire. destruct (Browser.pop limit (queue a)) as [[cb q]|]; [|exact Ha].
  apply IH. apply (theme_step_of_same (run_callback cb)); [|exact Ha].
  destruct cb; simpl; themed_solve.
Qed.

Lemma themed_list_exercise : themed (em_bind renderStepList (fun _ => renderExercise)).
Proof. exact (stays_bind same_theme _ _ themed_renderStepList (fun _ => themed_renderExercise)). Qed.

Lemma theme_init a : theme_shown (em_exec init a).
Proof.
  unfold em_exec, init, loadProgress, applyTheme. em_norm. rewrite !em_bind_modify.
  destruct (load_progress _ _ _) as [c i].
  apply (theme_step_of_same _ themed_list_exercise). reflexivity.
Qed.

Lemma reachable_theme_shown a : Invariants.reachable a -> theme_shown a.
Proof.
  induction 1 as [p t | a e _ IH]; [apply theme_init|].
  destruct e; simpl; [exact (theme_dispatch e a IH) | exact (theme_advance _ _ a IH)].
Qed.

(** C22: in every reachable state the theme button flips the page between
    light and dark: the body's [light] class is toggled, the new
    preference is the theme the page now shows, and it is stored under
    ['theme'] for the next visit. *)
Theorem toggleTheme_flips a :
  Invariants.reachable a ->
  fst (toggleTheme a) = Some tt /\
  bodyLight (view (em_exec toggleTheme a)) = negb (bodyLight (view a)) /\
  theme (st (em_exec toggleTheme a)) = (if bodyLight (view a) then "dark" else "light")%string /\
  ls_theme (em_exec toggleTheme a) = Some (theme (st (em_exec toggleTheme a))).
Proof.
  intros Hr. pose proof (reachable_theme_shown a Hr) as H. unfold theme_shown in H.
  unfold em_exec. rewrite toggleTheme_eq. cbv zeta. simpl. rewrite H.
  destruct (String.eqb (theme (st a)) "light"); repeat split.
Qed.

(** ** Switching exercises *)

(** [cleanupTimers()] clears at most the interval of [state.timer]: the
    queued timeouts stay. *)
Lemma cleanupTimers_timeouts a :
  timers_ok a -> Browser.timeouts (queue (snd (cleanupTimers a))) = Browser.timeouts (queue a).
Proof.
  intros Ht. pose proof (wf_timer_ok a (proj1 Ht)) as Hok.
  destruct (cleanupTimers_spec a Hok) as (a1 & E1 & _ & _ & _ & _ & _ & _ & _ & C1). rewrite E1. simpl.
  unfold timer_ok in Hok. destruct (cur_timer (st a)) as [r|] eqn:Er.
  - destruct Hok as [t Et]. destruct (C1 r t eq_refl Et) as [_ ->].
    destruct (interval t) as [h|] eqn:Eh; [exact (timeouts_clear_own a r t h Ht Et Eh) | reflexivity].
  - cbv [cleanupTimers mbind em_mbind mret em_mret em_bind em_modify em_get em_ret] in E1.
    cbn [st upd_st set_holdLoopActive cur_timer] in E1. rewrite Er in E1. simpl in E1.
    injection E1 as <-. reflexivity.
Qed.

(** C18: selecting exercise [n] (a step-list click, Prev, Next or
    Complete) in a reachable state cancels no queued timeout: a hold
    loop's pending restart survives the switch, and when it fires it
    starts [state.timer], the new countdown whose [onDone] is over the
    new exercise, with the hold the old exercise queued. *)
Theorem selectIndex_keeps_timeouts a n ex :
  Invariants.reachable a -> routine !! n = Some ex ->
  Browser.timeouts (queue (em_exec (selectIndex (js_of_nat n)) a)) = Browser.timeouts (queue a) /\
  forall hs, exists r t,
    cur_timer (st (em_exec (selectIndex (js_of_nat n)) a)) = Some r /\
    timers (em_exec (selectIndex (js_of_nat n)) a) !! r = Some t /\ callbacks t = ex /\
    runs_from (em_exec (run_callback (CbRestart hs)) (em_exec (selectIndex (js_of_nat n)) a)) r
      (match js_opt hs with Some x => x | None => 0%float end).
Proof.
  intros Hr En. pose proof (reachable_timers_ok a Hr) as Ht.
  destruct (cleanupTimers_spec a (wf_timer_ok a (proj1 Ht))) as (a1 & E1 & _ & _ & _ & _ & _ & L1 & _).
  assert (Hn : n < List.length routine) by (eapply lookup_lt_Some; eauto).
  unfold em_exec at 1 2 3 5. rewrite (selectIndex_eq a a1 _ ex E1) by (rewrite routine_at_nat by exact Hn; exact En).
  split.
  - rewrite <- (cleanupTimers_timeouts a Ht), E1. reflexivity.
  - intros hs. set (b := selected a1 (js_of_nat n) ex).
    assert (Eb : timers b !! List.length (timers a1) = Some (mk_timer None 0%float ex))
      by (simpl; rewrite lookup_app_r, Nat.sub_diag by lia; reflexivity).
    exists (List.length (timers a1)), (mk_timer None 0%float ex).
    split; [reflexivity|]. split; [exact Eb|]. split; [reflexivity|].
    pose proof (app_start_runs _ (js_opt hs) b _ Eb) as H. cbn [remaining] in H.
    unfold em_exec in *. simpl run_callback. unfold the_timer, em_bind. simpl. exact H.
Qed.

(** ** The start of the script *)

(** C14: reloading the page after a save resumes the session: started on
    the progress [saveProgress] wrote (a set of exercise ids and the index
    [n] of exercise [ex]), the script shows [ex] in the panel with a fresh
    stopped countdown and nothing queued, the step list marks [n] and the
    completed ids, and the stored theme is applied. *)
Theorem init_resumes c n th ex :
  forallb is_vstr c = true -> jsset_distinct same_value_zero c = true -> routine !! n = Some ex ->
  exists a', init (boot (Some (SJson (encode_progress c (js_of_nat n)))) th) = (Some tt, a') /\
    currentIndex (st a') = js_of_nat n /\ completed (st a') = c /\ theme (st a') = initial_theme th /\
    exercisePanel (view a') = render_panel ex /\ stepList (view a') = render_steps (st a') /\
    bodyLight (view a') = String.eqb (initial_theme th) "light" /\
    cur_timer (st a') = Some 0 /\ timers a' = [mk_timer None 0%float ex] /\ Browser.tasks (queue a') = [].
Proof.
  intros Hs Hd En. assert (Hn : n < List.length routine) by (eapply lookup_lt_Some; eauto).
  unfold init, loadProgress, applyTheme, renderStepList. em_norm.
  unfold em_bind at 1 2 3, em_modify. cbv beta iota. cbn [ls_progress boot st completed currentIndex].
  rewrite (load_progress_saved c n [] 0%float Hs Hd Hn). cbv beta iota.
  rewrite (renderExercise_eq _ ex) by (simpl; rewrite routine_at_nat by exact Hn; exact En).
  eexists. split; [reflexivity|]. cbn [st view upd_st upd_view set_cur_timer set_setsDone set_repsDone
    set_currentIndex set_completed set_stepList set_bodyLight set_timerDisplay set_setCount set_repCount
    set_exercisePanel currentIndex completed theme exercisePanel stepList bodyLight
    cur_timer timers queue boot].
  repeat split.
Qed.

(** [cleanupTimers()] with [state.timer] null only writes the flag and
    the display. *)
Lemma cleanupTimers_null a :
  cur_timer (st a) = None ->
  cleanupTimers a = (Some tt, upd_view (set_timerDisplay "00:00") (upd_st (set_holdLoopActive false) a)).
Proof.
  intros Er. cbv [cleanupTimers mbind em_mbind mret em_mret em_bind em_modify em_get em_ret].
  cbn [st upd_st set_holdLoopActive cur_timer]. rewrite Er. reflexivity.
Qed.

Lemma init_throws item th x :
  snd (load_progress item [] 0%float) = x -> routine_at x = None ->
  exists a0, init (boot item th) = (None, a0) /\ currentIndex (st a0) = x /\
    cur_timer (st a0) = None /\ timers a0 = [].
Proof.
  intros Ex Hx. unfold init, loadProgress, applyTheme, renderStepList. em_norm.
  unfold em_bind at 1 2 3, em_modify. cbv beta iota. cbn [ls_progress boot st completed currentIndex].
  destruct (load_progress item [] 0%float) as [c i] eqn:El. simpl in Ex. subst i.
  rewrite renderExercise_none by exact Hx. eexists. repeat split.
Qed.

(** C20: when the stored progress yields an index that names no exercise
    (a fraction inside the clamp of [loadProgress]), the start of the
    script throws in [renderExercise] before any countdown exists:
    [state.timer] stays null with the index kept, Start throws without
    changing anything, and only a click on the step list builds a
    countdown. *)
Theorem init_bad_index_throws item th x :
  snd (load_progress item [] 0%float) = x -> routine_at x = None ->
  fst (init (boot item th)) = None /\
  currentIndex (st (em_exec init (boot item th))) = x /\
  cur_timer (st (em_exec init (boot item th))) = None /\
  btnStart (em_exec init (boot item th)) = (None, em_exec init (boot item th)) /\
  forall n ex, routine !! n = Some ex ->
    exists a', selectIndex (js_of_nat n) (em_exec init (boot item th)) = (Some tt, a') /\
      cur_timer (st a') = Some 0 /\ timers a' = [mk_timer None 0%float ex].
Proof.
  intros Ex Hx. destruct (init_throws item th x Ex Hx) as (a0 & E & E1 & E2 & E3).
  unfold em_exec. rewrite E. cbn [fst snd].
  split; [reflexivity|]. split; [exact E1|]. split; [exact E2|].
  split; [unfold btnStart; em_norm; unfold em_bind at 1, current_ex; rewrite E1, Hx; reflexivity|].
  intros n ex En. assert (Hn : n < List.length routine) by (eapply lookup_lt_Some; eauto).
  erewrite selectIndex_eq; [eexists; split; [reflexivity|] | apply cleanupTimers_null; exact E2
                           | rewrite routine_at_nat by exact Hn; exact En].
  simpl. rewrite E3. split; reflexivity.
Qed.

(** A stored theme other than ['light'] or ['dark'] is kept as the
    preference: the page is drawn dark, the theme button then goes to
    light and next to dark, never back to the stored value. *)
Lemma unknown_theme_kept :
  theme (st (em_exec init (boot None (Some "blue"%string)))) = "blue"%string /\
  bodyLight (view (em_exec init (boot None (Some "blue"%string)))) = false /\
  theme (st (em_exec toggleTheme (em_exec init (boot None (Some "blue"%string))))) = "light"%string /\
  ls_theme (em_exec toggleTheme (em_exec init (boot None (Some "blue"%string)))) = Some "light"%string /\
  theme (st (em_exec toggleTheme (em_exec toggleTheme (em_exec init (boot None (Some "blue"%string))))))
    = "dark"%string.
Proof. vm_compute. repeat split. Qed.

(** ** Witnesses *)

(** The chin tucks paused in the gap between two holds, while their
    restart is queued. *)
Lemma btnPause_keeps_timeouts_witness :
  let a := run (em_exec init (boot None None)) [User (Select 1); User Start; Wait 5200] in
  Invariants.reachable a /\ cur_timer (st a) = Some 1 /\
  exists t, timers a !! 1 = Some t /\
    holdLoopActive (st (em_exec btnPause a)) = false /\
    timers (em_exec btnPause a) !! 1 = Some (set_interval_field None t) /\
    (forall h, ~ In (h, CbTick 1) (Browser.intervals (queue (em_exec btnPause a)))) /\
    Browser.timeouts (queue (em_exec btnPause a)) = Browser.timeouts (queue a).
Proof.
  cbv zeta. assert (Hr : Invariants.reachable (run (em_exec init (boot None None))
                                                   [User (Select 1); User Start; Wait 5200])).
  { apply Invariants.reach_step. apply Invariants.reach_step. apply Invariants.reach_step.
    apply Invariants.reach_boot. }
  split; [exact Hr|]. split; [vm_compute; reflexivity|].
  destruct (timers (run (em_exec init (boot None None)) [User (Select 1); User Start; Wait 5200]) !! 1)
    as [t|] eqn:Et; [|vm_compute in Et; discriminate].
  exists t. split; [reflexivity|]. apply btnPause_keeps_timeouts; [exact Hr | vm_compute; reflexivity | exact Et].
Defined.

(** The first exercise (a 2-minute [timer]) started on a fresh page. *)
Lemma btnStart_timer_witness :
  let a := em_exec init (boot None None) in
  exists ex t, currentIndex (st a) = js_of_nat 0 /\ routine !! 0 = Some ex /\ ex_mode ex = Timer /\
    durationSec (ex_targets ex) = Some 120 /\ cur_timer (st a) = Some 0 /\ timers a !! 0 = Some t /\
    runs_from (em_exec btnStart a) 0 (if (0 <? remaining t)%float then remaining t else js_of_nat 120) /\
    st (em_exec btnStart a) = st a /\
    timerDisplay (view (em_exec btnStart a)) = fmt (if (0 <? remaining t)%float then remaining t else js_of_nat 120).
Proof.
  cbv zeta. destruct (timers (em_exec init (boot None None)) !! 0) as [t|] eqn:Et;
    [|vm_compute in Et; discriminate].
  eexists _, t. split; [vm_compute; reflexivity|]. split; [reflexivity|].
  split; [reflexivity|]. split; [reflexivity|]. split; [vm_compute; reflexivity|]. split; [reflexivity|].
  eapply (btnStart_timer _ 0 _ 120 0 t); [vm_compute; reflexivity | reflexivity | reflexivity | reflexivity
                               | vm_compute; reflexivity | exact Et].
Defined.

(** A page reloaded on exercise 1 with the last exercise done and the
    light theme. *)
Lemma init_resumes_witness :
  exists ex, forallb is_vstr [VStr "suboccipital-release"] = true /\
    jsset_distinct same_value_zero [VStr "suboccipital-release"] = true /\ routine !! 1 = Some ex /\
  exists a', init (boot (Some (SJson (encode_progress [VStr "suboccipital-release"] (js_of_nat 1))))
                        (Some "light"%string)) = (Some tt, a') /\
    currentIndex (st a') = js_of_nat 1 /\ completed (st a') = [VStr "suboccipital-release"] /\
    theme (st a') = initial_theme (Some "light"%string) /\
    exercisePanel (view a') = render_panel ex /\ stepList (view a') = render_steps (st a') /\
    bodyLight (view a') = String.eqb (initial_theme (Some "light"%string)) "light" /\
    cur_timer (st a') = Some 0 /\ timers a' = [mk_timer None 0%float ex] /\ Browser.tasks (queue a') = [].
Proof.
  eexists. split; [reflexivity|]. split; [reflexivity|]. split; [reflexivity|].
  apply init_resumes; reflexivity.
Defined.

(** Reset pressed in the gap between two holds of the chin tucks. *)
Lemma btnReset_spec_witness :
  let a := run (em_exec init (boot None None)) [User (Select 1); User Start; Wait 5200] in
  Invariants.reachable a /\ cur_timer (st a) = Some 1 /\
  exists t, timers a !! 1 = Some t /\
    holdLoopActive (st (em_exec btnReset a)) = false /\
    timers (em_exec btnReset a) !! 1 = Some (mk_timer None 0%float (callbacks t)) /\
    timerDisplay (view (em_exec btnReset a)) = "00:00"%string /\
    repsDone (st (em_exec btnReset a)) = repsDone (st a) /\
    setsDone (st (em_exec btnReset a)) = setsDone (st a) /\
    (forall h, ~ In (h, CbTick 1) (Browser.intervals (queue (em_exec btnReset a)))) /\
    Browser.timeouts (queue (em_exec btnReset a)) = Browser.timeouts (queue a).
Proof.
  cbv zeta. assert (Hr : Invariants.reachable (run (em_exec init (boot None None))
                                                   [User (Select 1); User Start; Wait 5200])).
  { apply Invariants.reach_step. apply Invariants.reach_step. apply Invariants.reach_step.
    apply Invariants.reach_boot. }
  split; [exact Hr|]. split; [vm_compute; reflexivity|].
  destruct (timers (run (em_exec init (boot None None)) [User (Select 1); User Start; Wait 5200]) !! 1)
    as [t|] eqn:Et; [|vm_compute in Et; discriminate].
  exists t. split; [reflexivity|]. apply btnReset_spec; [exact Hr | vm_compute; reflexivity | exact Et].
Defined.

(** The theme button pressed on the fresh page. *)
Lemma toggleTheme_flips_witness :
  Invariants.reachable (em_exec init (boot None None)) /\
  fst (toggleTheme (em_exec init (boot None None))) = Some tt /\
  bodyLight (view (em_exec toggleTheme (em_exec init (boot None None)))) =
    negb (bodyLight (view (em_exec init (boot None None)))) /\
  theme (st (em_exec toggleTheme (em_exec init (boot None None)))) =
    (if bodyLight (view (em_exec init (boot None None))) then "dark" else "light")%string /\
  ls_theme (em_exec toggleTheme (em_exec init (boot None None))) =
    Some (theme (st (em_exec toggleTheme (em_exec init (boot None None))))).
Proof.
  split; [apply Invariants.reach_boot|]. apply toggleTheme_flips, Invariants.reach_boot.
Defined.

(** Next-to-last step of the spec's gap: the chin tucks between two
    holds, the levator stretch (exercise 2) clicked. *)
Lemma selectIndex_keeps_timeouts_witness :
  let a := run (em_exec init (boot None None)) [User (Select 1); User Start; Wait 5200] in
  Invariants.reachable a /\
  exists ex, routine !! 2 = Some ex /\
  Browser.timeouts (queue (em_exec (selectIndex (js_of_nat 2)) a)) = Browser.timeouts (queue a) /\
  forall hs, exists r t,
    cur_timer (st (em_exec (selectIndex (js_of_nat 2)) a)) = Some r /\
    timers (em_exec (selectIndex (js_of_nat 2)) a) !! r = Some t /\ callbacks t = ex /\
    runs_from (em_exec (run_callback (CbRestart hs)) (em_exec (selectIndex (js_of_nat 2)) a)) r
      (match js_opt hs with Some x => x | None => 0%float end).
Proof.
  cbv zeta. assert (Hr : Invariants.reachable (run (em_exec init (boot None None))
                                                   [User (Select 1); User Start; Wait 5200])).
  { apply Invariants.reach_step. apply Invariants.reach_step. apply Invariants.reach_step.
    apply Invariants.reach_boot. }
  split; [exact Hr|]. eexists. split; [reflexivity|].
  apply selectIndex_keeps_timeouts; [exact Hr | reflexivity].
Defined.

(** A stored index of 1.5 (between the chin tucks and the levator
    stretch); the click is on exercise 0. *)
Lemma init_bad_index_throws_witness :
  let item := Some (SJson (JObj [("currentIndex"%string, JNum 1.5%float)])) in
  snd (load_progress item [] 0%float) = 1.5%float /\ routine_at 1.5%float = None /\
  fst (init (boot item None)) = None /\
  currentIndex (st (em_exec init (boot item None))) = 1.5%float /\
  cur_timer (st (em_exec init (boot item None))) = None /\
  btnStart (em_exec init (boot item None)) = (None, em_exec init (boot item None)) /\
  forall n ex, routine !! n = Some ex ->
    exists a', selectIndex (js_of_nat n) (em_exec init (boot item None)) = (Some tt, a') /\
      cur_timer (st a') = Some 0 /\ timers a' = [mk_timer None 0%float ex].
Proof.
  cbv zeta. split; [vm_compute; reflexivity|]. split; [vm_compute; reflexivity|].
  apply init_bad_index_throws; vm_compute; reflexivity.
Defined.

End Handlers.
