(* ===== verification/Scenarios.v ===== *)
(** * Runs of the whole program

    Concrete sessions of the application, from the script's start on an
    empty [localStorage], through user events and waits of the event
    loop.  Each lemma evaluates the model ([vm_compute]) and states what
    the program does: the spec's hold-loop scenario, and the interleavings
    in which the deferred restart of a hold loop or an orphaned countdown
    acts on the wrong state.  Every run is checked to have been carried to
    its time limit (nothing due is left), so the fuel of [advance] did not
    cut it short. *)

From stdpp Require Import base list strings.
From Stdlib Require Import Ascii String NArith ZArith Floats Uint63 Lia.
From S2P Require Import Prelude Catalog Format Countdown Browser Persist App.

Import Catalog Countdown Persist App.

Module Scenarios.

(** The page just loaded, nothing stored. *)
Definition fresh : app := em_exec init (boot None None).

(** The task queue has nothing due at or before the clock. *)
Definition settled (a : app) : bool :=
  forallb (fun t => N.ltb (Browser.now (queue a)) (Browser.due t)) (Browser.tasks (queue a)).

(** The countdown [state.timer] refers to, if any. *)
Definition current_timer (a : app) : option (timer exercise) :=
  match cur_timer (st a) with Some r => timers a !! r | None => None end.

(** A countdown of the store is ticking. *)
Definition running (t : timer exercise) : bool :=
  match interval t with Some _ => true | None => false end.

Definition current_running (a : app) : bool :=
  match current_timer a with Some t => running t | None => false end.

(** The interval tasks pending in the browser. *)
Definition ticking (a : app) : nat :=
  List.length (List.filter (fun t => match Browser.kind t with Browser.Every _ _ => true | _ => false end)
                   (Browser.tasks (queue a))).

(** The progress key holding only an index. *)
Definition stored_index (f : float) : option stored :=
  Some (SJson (JObj [("currentIndex"%string, JNum f)])).

(** Chin tucks selected and started. *)
Definition chin_started : app := run fresh [User (Select 1); User Start].

(** The spec's scenario.  Chin tucks ([hold-reps], 10 reps of a
    5 s hold) started on a fresh page: each hold takes 51 ticks, so the
    first rep is counted at 5.1 s, not 5 s; each next hold starts 400 ms
    later; the tenth rep is counted at 54.6 s, when the loop stops with
    the counter at 10 and no countdown left in the queue; the last two of
    its twenty tones stop 200 ms later, leaving the queue empty. *)
Lemma chin_tucks_ten_reps :
  repsDone (st (run chin_started [Wait 5099])) = 0 /\
  repsDone (st (run chin_started [Wait 5100])) = 1 /\
  repsDone (st (run chin_started [Wait 54599])) = 9 /\
  holdLoopActive (st (run chin_started [Wait 54599])) = true /\
  repsDone (st (run chin_started [Wait 54600])) = 10 /\
  holdLoopActive (st (run chin_started [Wait 54600])) = false /\
  repCount (view (run chin_started [Wait 54600])) = "10"%string /\
  ticking (run chin_started [Wait 54600]) = 0 /\
  settled (run chin_started [Wait 54600]) = true /\
  List.length (beeps (run chin_started [Wait 54600])) = 20 /\
  sounding (run chin_started [Wait 54600]) = [18; 19] /\
  Browser.tasks (queue (run chin_started [Wait 54800])) = [] /\
  sounding (run chin_started [Wait 54800]) = [].
Proof. vm_compute. repeat split. Qed.

(** Pressing Pause in the 400 ms gap between two holds does
    not stop the loop's restart: the countdown starts again 400 ms after
    the hold ended although the loop is off, runs its whole 5.1 s, and
    counts no rep. *)
Lemma pause_in_gap_restarts :
  let paused := run chin_started [Wait 5200; User Pause] in
  holdLoopActive (st paused) = false /\ current_running paused = false /\
  current_running (run paused [Wait 400]) = true /\
  settled (run paused [Wait 400]) = true /\
  current_running (run paused [Wait 5399]) = true /\
  current_running (run paused [Wait 5400]) = false /\
  repsDone (st (run paused [Wait 5400])) = 1.
Proof. vm_compute. repeat split. Qed.

(** Moving to the next exercise (a 30 s [hold-sets]
    stretch) in the gap lets the pending restart start the new exercise's
    countdown with the previous exercise's 5 s hold. *)
Lemma next_in_gap_runs_old_hold :
  let moved := run chin_started [Wait 5200; User Next] in
  currentIndex (st moved) = js_of_nat 2 /\ current_running moved = false /\
  current_running (run moved [Wait 300]) = true /\
  timerDisplay (view (run moved [Wait 300])) = "00:05"%string /\
  current_running (run moved [Wait 5500]) = false /\
  setsDone (st (run moved [Wait 5500])) = 0.
Proof. vm_compute. repeat split. Qed.

(** "Reset all progress" while a hold is running replaces
    [state.timer] without pausing the old countdown and leaves
    [holdLoopActive] set.  The orphaned countdown keeps writing the display
    of the first exercise (a 2-minute [timer]); when it ends, its [onDone]
    counts a rep on that exercise and its restart starts the first
    exercise's countdown with the 5 s hold. *)
Lemma reset_all_orphans_countdown :
  let reset := run chin_started [Wait 1000; User (ResetAll true)] in
  currentIndex (st reset) = 0%float /\ holdLoopActive (st reset) = true /\
  current_running reset = false /\ ticking reset = 1 /\
  timerDisplay (view (run reset [Wait 1000])) = "00:03"%string /\
  repsDone (st (run reset [Wait 4100])) = 1 /\
  repCount (view (run reset [Wait 4100])) = "1"%string /\
  current_running (run reset [Wait 4500]) = true /\
  timerDisplay (view (run reset [Wait 4500])) = "00:05"%string /\
  settled (run reset [Wait 4500]) = true.
Proof. vm_compute. repeat split. Qed.

(** Completing the last exercise adds it to the completed set and
    stays on it. *)
Lemma complete_last_stays :
  let a := run fresh [User (Select 8); User Complete] in
  currentIndex (st a) = js_of_nat 8 /\ completed (st a) = [VStr "suboccipital-release"] /\
  ls_progress a = Some (SJson (encode_progress [VStr "suboccipital-release"] (js_of_nat 8))).
Proof. vm_compute. repeat split. Qed.

(** A stored index that is a fraction in range passes the
    clamp of [loadProgress]; [routine[1.5]] is [undefined] and the start
    of the script throws in [renderExercise], leaving no timer.  Start
    then throws, Next moves to 2.5 and throws again; only a click on the
    step list recovers. *)
Lemma fractional_index_breaks_init :
  let a := em_exec init (boot (stored_index 1.5%float) None) in
  fst (init (boot (stored_index 1.5%float) None)) = None /\ currentIndex (st a) = 1.5%float /\
  cur_timer (st a) = None /\
  fst (btnStart a) = None /\
  fst (nextStep a) = None /\ currentIndex (st (em_exec nextStep a)) = 2.5%float /\
  fst (selectIndex (js_of_nat 2) a) = Some tt /\
  cur_timer (st (em_exec (selectIndex (js_of_nat 2)) a)) = Some 0.
Proof. vm_compute. repeat split. Qed.

End Scenarios.
