(* ===== verification/Liveness.v ===== *)
(** * The hold loops end

    Start on a [hold-reps] or [hold-sets] exercise runs the loop of the
    [onDone] closure built by [renderExercise] (script.js lines 305-320):
    a hold of [holdSec] seconds, the counter counted, a pause of 400 ms or
    600 ms before the next hold, until the counter reaches its target.
    This file states when the loop ends for every hold exercise of the
    catalog, and that after its end the page is at rest: no task is left
    in the browser's queue, so no later wait changes anything but the
    clock. *)

From stdpp Require Import base list strings.
From Stdlib Require Import Ascii String NArith ZArith Floats Uint63 Lia.
From S2P Require Import Prelude Catalog Format Countdown Browser Persist App Scenarios.

Import Catalog Countdown Persist App Scenarios.

Module Liveness.

(** The loop an exercise runs, as its [onDone] closure reads it: the
    target of the counter, the hold in seconds and the gap before the next
    hold in ms ([hold-reps]: [reps], 400 ms; [hold-sets]: [sets],
    600 ms). *)
Definition hold_plan (ex : exercise) : option (nat * nat * N) :=
  match ex_mode ex, reps (ex_targets ex), sets (ex_targets ex), holdSec (ex_targets ex) with
  | HoldReps, Some n, _, Some h => Some (n, h, 400%N)
  | HoldSets, _, Some n, Some h => Some (n, h, 600%N)
  | _, _, _, _ => None
  end.

(** The counter the loop of [ex] counts ([state.repsDone] or
    [state.setsDone]). *)
Definition loop_count (ex : exercise) (s : session) : nat :=
  match ex_mode ex with
  | HoldReps => repsDone s
  | HoldSets => setsDone s
  | _ => 0
  end.

(** The length of a whole loop in ms: [n] holds of [k] ticks of 100 ms,
    [k] the ticks a countdown of [h] seconds runs ([ticks_from]), and
    [n - 1] gaps. *)
Definition hold_loop_ms (ex : exercise) : option N :=
  match hold_plan ex with
  | Some (n, h, gap) =>
      match ticks_from (10 * h + 2) (js_of_nat h) with
      | Some k => Some (N.of_nat n * (N.of_nat k * 100) + (N.of_nat n - 1) * gap)%N
      | None => None
      end
  | None => None
  end.

(** The longer of the two tones [onDone] sounds, [beep(200, 900)]: the
    last oscillator stops that long after the end of the loop. *)
Definition last_tone_ms : N := 200.

(** The fresh page, exercise [i] selected and started. *)
Definition started (i : nat) : app := run fresh [User (Select i); User Start].

Definition no_tasks (a : app) : bool :=
  match Browser.tasks (queue a) with [] => true | _ => false end.

(** The loop of exercise [i], run on the model: still on one ms before
    [hold_loop_ms], with one hold left and nothing due left behind (the
    fuel of the wait was enough); off at [hold_loop_ms] with the counter at
    its target; [last_tone_ms] later, still so, with the queue empty and
    no tone sounding. *)
Definition loop_ends_at (i : nat) : bool :=
  match routine !! i with
  | Some ex =>
      match hold_plan ex, hold_loop_ms ex with
      | Some (n, _, _), Some w =>
          let b := run (started i) [Wait (w - 1)] in
          let c := run (started i) [Wait w] in
          let d := run (started i) [Wait (w + last_tone_ms)] in
          settled b && holdLoopActive (st b) && Nat.eqb (loop_count ex (st b)) (n - 1) &&
          negb (holdLoopActive (st c)) && Nat.eqb (loop_count ex (st c)) n &&
          negb (holdLoopActive (st d)) && Nat.eqb (loop_count ex (st d)) n &&
          no_tasks d && bool_decide (sounding d = [])
      | _, _ => true
      end
  | None => true
  end.

(** ** Waiting with nothing queued *)

Lemma run_snoc a es e : run a (es ++ [e]) = step_event (run a es) e.
Proof. unfold run. now rewrite fold_left_app. Qed.

Lemma wait_fuel_pos a ms : 0 < wait_fuel a ms.
Proof. unfold wait_fuel. generalize (ms / 100)%N. intros x. lia. Qed.

(** With no task queued, a wait only moves the clock. *)
Lemma wait_idle a ms :
  Browser.tasks (queue a) = [] ->
  step_event a (Wait ms) = upd_queue (set_now (Browser.now (queue a) + ms)%N) a.
Proof.
  intros H. unfold step_event.
  destruct (wait_fuel a ms) as [|f] eqn:E; [pose proof (wait_fuel_pos a ms); lia|].
  cbn [advance]. unfold fire, Browser.pop. rewrite H. reflexivity.
Qed.

Lemma wait_idle_fields a ms :
  Browser.tasks (queue a) = [] ->
  st (step_event a (Wait ms)) = st a /\ sounding (step_event a (Wait ms)) = sounding a /\
  Browser.tasks (queue (step_event a (Wait ms))) = [].
Proof. intros H. rewrite wait_idle by exact H. auto. Qed.

Lemma no_tasks_spec a : no_tasks a = true -> Browser.tasks (queue a) = [].
Proof. unfold no_tasks. destruct (Browser.tasks _); [reflexivity | discriminate]. Qed.

(** Every exercise of the catalog, run on the model. *)
Lemma loop_ends_at_all : forallb loop_ends_at (seq 0 (List.length routine)) = true.
Proof. vm_compute. reflexivity. Qed.

(** C7: every hold loop of the catalog ends, at the time its plan gives:
    on the fresh page, after a click on exercise [i] of mode [hold-reps]
    or [hold-sets] and Start, the loop is still on [hold_loop_ms - 1] ms
    later with one hold to go, and off at [hold_loop_ms] ms with the
    counter at its target; once its last tone has stopped, nothing is
    queued, nothing sounds, and no further wait changes the session. *)
Theorem hold_loop_finishes i ex n h gap w :
  routine !! i = Some ex -> hold_plan ex = Some (n, h, gap) -> hold_loop_ms ex = Some w ->
  (holdLoopActive (st (run (started i) [Wait (w - 1)])) = true /\
   loop_count ex (st (run (started i) [Wait (w - 1)])) = n - 1) /\
  (holdLoopActive (st (run (started i) [Wait w])) = false /\
   loop_count ex (st (run (started i) [Wait w])) = n) /\
  forall w',
    holdLoopActive (st (run (started i) [Wait (w + last_tone_ms); Wait w'])) = false /\
    loop_count ex (st (run (started i) [Wait (w + last_tone_ms); Wait w'])) = n /\
    Browser.tasks (queue (run (started i) [Wait (w + last_tone_ms); Wait w'])) = [] /\
    sounding (run (started i) [Wait (w + last_tone_ms); Wait w']) = [].
Proof.
  intros Hi Hp Hw.
  pose proof (forallb_seq_spec _ _ _ loop_ends_at_all i) as Hc.
  specialize (Hc (conj (Nat.le_0_l i) (lookup_lt_Some _ _ _ Hi))).
  unfold loop_ends_at in Hc. rewrite Hi, Hp, Hw in Hc. cbv zeta in Hc.
  repeat (apply andb_prop in Hc as [Hc ?]).
  repeat match goal with
         | H : Nat.eqb _ _ = true |- _ => apply Nat.eqb_eq in H
         | H : negb _ = true |- _ => apply negb_true_iff in H
         | H : bool_decide _ = true |- _ => apply bool_decide_eq_true in H
         | H : no_tasks _ = true |- _ => apply no_tasks_spec in H
         end.
  split; [split; assumption|]. split; [split; assumption|]. intros w'.
  change [Wait (w + last_tone_ms); Wait w'] with ([Wait (w + last_tone_ms)] ++ [Wait w'])%list.
  rewrite run_snoc.
  match goal with H : Browser.tasks _ = [] |- _ => destruct (wait_idle_fields _ w' H) as (-> & -> & ->) end.
  auto.
Qed.

(** The chin tucks (exercise 1: 10 reps of a 5 s hold) end at 54.6 s. *)
Lemma hold_loop_finishes_witness :
  exists ex, routine !! 1 = Some ex /\ hold_plan ex = Some (10, 5, 400%N) /\
  hold_loop_ms ex = Some 54600%N /\
  ((holdLoopActive (st (run (started 1) [Wait (54600 - 1)])) = true /\
    loop_count ex (st (run (started 1) [Wait (54600 - 1)])) = 10 - 1) /\
   (holdLoopActive (st (run (started 1) [Wait 54600])) = false /\
    loop_count ex (st (run (started 1) [Wait 54600])) = 10) /\
   forall w',
     holdLoopActive (st (run (started 1) [Wait (54600 + last_tone_ms); Wait w'])) = false /\
     loop_count ex (st (run (started 1) [Wait (54600 + last_tone_ms); Wait w'])) = 10 /\
     Browser.tasks (queue (run (started 1) [Wait (54600 + last_tone_ms); Wait w'])) = [] /\
     sounding (run (started 1) [Wait (54600 + last_tone_ms); Wait w']) = []).
Proof.
  eexists. split; [reflexivity|]. split; [reflexivity|]. split; [reflexivity|].
  apply (hold_loop_finishes 1 _ 10 5 400%N 54600%N); reflexivity.
Defined.

End Liveness.
